(** * cryptocurrency-warning: price monitor, alert deduplication and feed
      connection, embedded from the JavaScript sources

    Sources embedded here:
    - [src/utils/helpers.js]                  ([isValidSymbol],
      [calculatePriceChangePercent], [clamp], [retry], [throttle],
      [debounce])
    - [src/config.js]                         (constants)
    - [src/services/WebSocketService.js]      (symbol codec, ticker parser,
      frame handling, subscriptions, heartbeat, reconnect policy,
      [getStatus], [disconnect])
    - [src/services/NotificationService.js]   ([NotificationService],
      [PriceMonitorService], and of [CryptoMonitorService] the event
      wiring, [_validateConfig], the start-up after [connect],
      [addSymbol], [removeSymbol], [getSymbolInfo], [getAllPrices] and
      [shutdown])

    Conventions.
    - A JavaScript number is a value of [num]: [NaN], the two infinities, or
      a finite value carried as an exact rational.  Rounding of binary64 and
      the sign of zero are not represented; the one decimal example of the
      specification is additionally checked on binary64 with the kernel's
      floats.
    - A JavaScript string is a [string] (a sequence of bytes).
    - [Map]s and plain objects used as dictionaries are [gmap string _];
      for the threshold table, which is read with keys that come from the
      feed, a key that was never written reads what the object inherits
      from [Object.prototype].
    - Time is in milliseconds ([Z]); timers are kept in the state with their
      due time and fire when the clock reaches it. *)

From Stdlib Require Import ZArith QArith Qabs Lqa Lia List Bool Ascii String.
From Stdlib Require Import Floats Sorted.
From stdpp Require Import base option gmap strings list fin_maps.

Local Open Scope Z_scope.

(** Decimal literals of binary64 stand for the nearest double, as in the
    source. *)
#[local] Set Warnings "-inexact-float".

(* ===================================================================== *)
(** ** JavaScript numbers                                                  *)
(* ===================================================================== *)

Module JsNum.

Inductive num : Type :=
| NaN
| PInf
| NInf
| Fin (q : Q).

(** Finite results are kept in lowest terms, so that closed computations
    produce syntactically equal values. *)
Definition fin (q : Q) : num := Fin (Qred q).

Definition ofZ (z : Z) : num := Fin (inject_Z z).

Definition isNaN (x : num) : bool :=
  match x with NaN => true | _ => false end.

Definition isFinite (x : num) : bool :=
  match x with Fin _ => true | _ => false end.

Definition Qltb (a b : Q) : bool :=
  match Qcompare a b with Lt => true | _ => false end.

Definition Qleb (a b : Q) : bool :=
  match Qcompare a b with Gt => false | _ => true end.

Definition Qis0 (a : Q) : bool := Qeq_bool a 0.

(** [x < y]: false as soon as one side is [NaN]. *)
Definition lt (x y : num) : bool :=
  match x, y with
  | NaN, _ | _, NaN => false
  | _, NInf => false
  | NInf, _ => true
  | PInf, _ => false
  | Fin _, PInf => true
  | Fin a, Fin b => Qltb a b
  end.

Definition gt (x y : num) : bool := lt y x.

(** [x <= y] *)
Definition le (x y : num) : bool :=
  match x, y with
  | NaN, _ | _, NaN => false
  | NInf, _ => true
  | _, PInf => true
  | _, NInf => false
  | PInf, _ => false
  | Fin a, Fin b => Qleb a b
  end.

Definition ge (x y : num) : bool := le y x.

(** [x === y] on numbers *)
Definition eqb (x y : num) : bool :=
  match x, y with
  | PInf, PInf | NInf, NInf => true
  | Fin a, Fin b => Qeq_bool a b
  | _, _ => false
  end.

Definition neg (x : num) : num :=
  match x with
  | NaN => NaN
  | PInf => NInf
  | NInf => PInf
  | Fin a => fin (- a)
  end.

Definition add (x y : num) : num :=
  match x, y with
  | NaN, _ | _, NaN => NaN
  | PInf, NInf | NInf, PInf => NaN
  | PInf, _ | _, PInf => PInf
  | NInf, _ | _, NInf => NInf
  | Fin a, Fin b => fin (a + b)
  end.

Definition sub (x y : num) : num := add x (neg y).

(** Sign of a finite operand, as used by products and quotients with an
    infinity; zero counts as positive zero. *)
Definition signed_inf (negative : bool) : num :=
  if negative then NInf else PInf.

Definition Qneg (a : Q) : bool := Qltb a 0.

Definition mul (x y : num) : num :=
  match x, y with
  | NaN, _ | _, NaN => NaN
  | Fin a, Fin b => fin (a * b)
  | Fin a, PInf | PInf, Fin a =>
      if Qis0 a then NaN else signed_inf (Qneg a)
  | Fin a, NInf | NInf, Fin a =>
      if Qis0 a then NaN else signed_inf (negb (Qneg a))
  | PInf, PInf | NInf, NInf => PInf
  | PInf, NInf | NInf, PInf => NInf
  end.

Definition div (x y : num) : num :=
  match x, y with
  | NaN, _ | _, NaN => NaN
  | Fin a, Fin b =>
      if Qis0 b then
        if Qis0 a then NaN else signed_inf (Qneg a)
      else fin (a / b)
  | Fin _, PInf | Fin _, NInf => fin 0
  | PInf, Fin b => signed_inf (Qneg b)
  | NInf, Fin b => signed_inf (negb (Qneg b))
  | _, _ => NaN
  end.

(** ToBoolean on a number: [NaN] and zero are falsy. *)
Definition truthy (x : num) : bool :=
  match x with
  | NaN => false
  | PInf | NInf => true
  | Fin a => negb (Qis0 a)
  end.

(** [x || 0] *)
Definition or_zero (x : num) : num :=
  if truthy x then x else ofZ 0.

(** [Math.abs] *)
Definition abs (x : num) : num :=
  match x with
  | NaN => NaN
  | PInf | NInf => PInf
  | Fin a => fin (Qabs a)
  end.

(** [Math.max(x, y)] and [Math.min(x, y)] on two numbers: [NaN] when one
    of them is [NaN]. *)
Definition Math_max (x y : num) : num :=
  if isNaN x || isNaN y then NaN else if lt x y then y else x.

Definition Math_min (x y : num) : num :=
  if isNaN x || isNaN y then NaN else if lt y x then y else x.

(** The smallest positive normal number of binary64, [2 ^ -1022].  From
    there up the spacing of binary64 is at most [2 ^ -52] times the
    value. *)
Definition min_normal : Q := 1 # (2 ^ 1022).

End JsNum.

Import JsNum.

(* ===================================================================== *)
(** ** JavaScript values found in decoded JSON and in arguments           *)
(* ===================================================================== *)

(** The scalar values a field of a decoded frame can hold; [JUndefined]
    is an absent property. *)
Inductive jsval : Type :=
| JUndefined
| JNull
| JBool (b : bool)
| JNum (n : num)
| JStr (s : string).

(** Outcome of code that can throw. *)
Inductive exc (A : Type) : Type :=
| Ok (a : A)
| Throw (msg : string).
Arguments Ok {A} a.
Arguments Throw {A} msg.

Definition exc_bind {A B : Type} (m : exc A) (k : A -> exc B) : exc B :=
  match m with
  | Ok a => k a
  | Throw e => Throw e
  end.

(** [try { body } catch (e) { handler }] *)
Definition try_catch {A : Type} (body : exc A) (handler : string -> A) : A :=
  match body with
  | Ok a => a
  | Throw e => handler e
  end.

(** [x ← m; k] sequences throwing code. *)
#[global] Instance exc_mbind : MBind exc := fun _ _ k m => exc_bind m k.
#[global] Instance exc_mret : MRet exc := fun _ a => Ok a.

(* ===================================================================== *)
(** ** Strings                                                             *)
(* ===================================================================== *)

Module JsString.

Fixpoint drop (n : nat) (s : string) : string :=
  match n, s with
  | O, _ => s
  | S n', String _ s' => drop n' s'
  | S _, EmptyString => EmptyString
  end.

Fixpoint take (n : nat) (s : string) : string :=
  match n, s with
  | O, _ => EmptyString
  | S n', String c s' => String c (take n' s')
  | S _, EmptyString => EmptyString
  end.

(** [s.startsWith(p)] *)
Fixpoint startsWith (p s : string) : bool :=
  match p, s with
  | EmptyString, _ => true
  | String a p', String b s' => Ascii.eqb a b && startsWith p' s'
  | String _ _, EmptyString => false
  end.

(** [s.endsWith(suffix)] *)
Definition endsWith (s suffix : string) : bool :=
  let n := String.length s in
  let k := String.length suffix in
  (k <=? n)%nat && String.eqb (drop (n - k) s) suffix.

(** [s.replace(pat, rep)] with a string pattern: only the first
    occurrence of [pat] is replaced.  ([rep] is used verbatim; the callers
    pass the empty string, which has no replacement patterns.) *)
Fixpoint replace (pat rep s : string) : string :=
  if startsWith pat s then String.append rep (drop (String.length pat) s)
  else
    match s with
    | EmptyString => EmptyString
    | String c s' => String c (replace pat rep s')
    end.

Fixpoint all (p : ascii -> bool) (s : string) : bool :=
  match s with
  | EmptyString => true
  | String c s' => p c && all p s'
  end.

(** [A-Z] *)
Definition isUpper (c : ascii) : bool :=
  let n := nat_of_ascii c in (65 <=? n)%nat && (n <=? 90)%nat.

(** [0-9] *)
Definition isDigit (c : ascii) : bool :=
  let n := nat_of_ascii c in (48 <=? n)%nat && (n <=? 57)%nat.

(** ASCII members of the white space and line terminator classes that
    [parseFloat] skips. *)
Definition isSpace (c : ascii) : bool :=
  let n := nat_of_ascii c in
  ((9 <=? n)%nat && (n <=? 13)%nat) || (n =? 32)%nat.

End JsString.

(* ===================================================================== *)
(** ** src/config.js                                                       *)
(* ===================================================================== *)

(** A threshold entry [{ min, max }]. *)
Module Thresholds.
Record t : Type := mk { min : num; max : num }.
End Thresholds.

Module config.

Module websocket.
Definition reconnectAttempts : Z := 5.
Definition reconnectDelay : Z := 5000.
Definition subscriptionDelay : Z := 100.
End websocket.

Module symbols.
Definition default : list string :=
  ["BTCUSDT"; "ETHUSDT"; "SOLUSDT"; "DOGEUSDT"; "OKBUSDT"; "BNBUSDT";
   "APTUSDT"].

Definition thresholds : list (string * Thresholds.t) :=
  [("SOLUSDT", Thresholds.mk (ofZ 143) (ofZ 143));
   ("ETHUSDT", Thresholds.mk (ofZ 2400) (ofZ 2400));
   ("BTCUSDT", Thresholds.mk (ofZ 108000) (ofZ 108000));
   ("DOGEUSDT", Thresholds.mk (fin (165 # 1000)) (fin (165 # 1000)));
   ("OKBUSDT", Thresholds.mk (ofZ 51) (ofZ 51));
   ("BNBUSDT", Thresholds.mk (ofZ 630) (ofZ 630));
   ("APTUSDT", Thresholds.mk (fin (45 # 10)) (fin (45 # 10)))].
End symbols.

Module alerts.
Definition priceChangeThreshold : num := fin (1 # 100).
Definition cooldownPeriod : Z := 60 * 1000.
Definition cleanupInterval : Z := 15 * 60 * 1000.
Definition maxAlertAge : Z := 60 * 60 * 1000.
End alerts.

End config.

(* ===================================================================== *)
(** ** src/utils/helpers.js                                                *)
(* ===================================================================== *)

Module helpers.

(** The regular expression [/^[A-Z]{2,10}USDT$/]: some [k] between 2 and
    10 such that the first [k] characters are capital letters and the
    rest of the input is exactly [USDT]. *)
Definition matches_symbol_regex (s : string) : bool :=
  existsb
    (fun k => JsString.all JsString.isUpper (JsString.take k s)
              && (String.length (JsString.take k s) =? k)%nat
              && String.eqb (JsString.drop k s) "USDT")
    (seq 2 9).

Definition isValidSymbol (symbol : jsval) : bool :=
  match symbol with
  | JStr s => matches_symbol_regex s
  | _ => false
  end.

(** [calculatePriceChangePercent(currentPrice, previousPrice)] *)
Definition calculatePriceChangePercent (currentPrice previousPrice : jsval) : num :=
  match currentPrice, previousPrice with
  | JNum c, JNum p =>
      if isNaN c || isNaN p || JsNum.eqb p (ofZ 0) then ofZ 0
      else mul (div (sub c p) p) (ofZ 100)
  | _, _ => ofZ 0
  end.

(** [clamp(value, min, max)] on numbers *)
Definition clamp (value min max : num) : num :=
  Math_min (Math_max value min) max.

(** [retry(fn, retries, delayMs)] with an integer [retries].  [fn i] is
    what the call number [i] of [fn] does (counted from 0).  Result: what
    the promise settles with, how many times [fn] was called, and the
    delays awaited, in order. *)
Fixpoint retry_from {A : Type} (fn : nat -> exc A) (call : nat)
    (retries : nat) (delayMs : Z) : exc A * nat * list Z :=
  match fn call with
  | Ok a => (Ok a, S call, [])
  | Throw e =>
      match retries with
      | O => (Throw e, S call, [])
      | S retries' =>
          let '(r, calls, delays) := retry_from fn (S call) retries' delayMs in
          (r, calls, delayMs :: delays)
      end
  end.

Definition retry {A : Type} (fn : nat -> exc A) (retries : Z) (delayMs : Z)
  : exc A * nat * list Z :=
  retry_from fn 0 (Z.to_nat retries) delayMs.

(** The closure made by [throttle(func, limit)]: its variable
    [inThrottle] and the due times of the timers that reset it. *)
Record Throttle : Type := mkThrottle {
  inThrottle : bool;
  resetTimers : list Z
}.

(** [throttle(func, limit)]: [inThrottle] starts out undefined. *)
Definition throttle : Throttle := {| inThrottle := false; resetTimers := [] |}.

(** The clock reaches [now]: the timers due by then set [inThrottle] to
    [false]. *)
Definition throttle_elapse (now : Z) (th : Throttle) : Throttle :=
  {| inThrottle :=
       if existsb (fun due => due <=? now) (resetTimers th) then false
       else inThrottle th;
     resetTimers := filter (fun due => now < due) (resetTimers th) |}.

(** A call of the throttled function at [now]: the arguments [func] is
    applied to (none when the call is dropped) and the new closure. *)
Definition throttled {A : Type} (limit now : Z) (args : A) (th : Throttle)
  : list A * Throttle :=
  let th' := throttle_elapse now th in
  if inThrottle th' then ([], th')
  else ([args],
        {| inThrottle := true;
           resetTimers := resetTimers th' ++ [now + limit] |}).

(** Calls [(time, args)] in order: the calls that reach [func]. *)
Fixpoint throttled_calls {A : Type} (limit : Z) (calls : list (Z * A))
    (th : Throttle) : list (Z * A) :=
  match calls with
  | [] => []
  | (now, args) :: rest =>
      let '(ran, th') := throttled limit now args th in
      map (pair now) ran ++ throttled_calls limit rest th'
  end.

(** A call at [now] of the function made by [debounce(func, wait)].  The
    closure holds one timer, [(due, args)] while it is live.  Result: the
    application of [func] that happened before the call (the timer, when it
    was due) and the timer armed by the call, which replaces a timer that
    is not due yet. *)
Definition debounced {A : Type} (wait now : Z) (args : A)
    (pending : option (Z * A)) : list (Z * A) * option (Z * A) :=
  (match pending with
   | Some (due, a) => if due <=? now then [(due, a)] else []
   | None => []
   end,
   Some (now + wait, args)).

(** Calls [(time, args)] in order: the applications of [func] made in
    between, and the timer left at the end. *)
Fixpoint debounced_calls {A : Type} (wait : Z) (calls : list (Z * A))
    (pending : option (Z * A)) : list (Z * A) * option (Z * A) :=
  match calls with
  | [] => ([], pending)
  | (now, args) :: rest =>
      let '(ran, pending') := debounced wait now args pending in
      let '(ran', final) := debounced_calls wait rest pending' in
      (ran ++ ran', final)
  end.

(** All the applications of [func] for a sequence of calls, the last timer
    included (it fires when nothing else is called). *)
Definition debounce_applications {A : Type} (wait : Z) (calls : list (Z * A))
  : list (Z * A) :=
  let '(ran, final) := debounced_calls wait calls None in
  ran ++ match final with Some t => [t] | None => [] end.

End helpers.

(* ===================================================================== *)
(** ** The global [parseFloat]                                             *)
(* ===================================================================== *)

Module JsParse.

Import JsString.

(** The white space and line terminators outside ASCII, in the UTF-8
    encoding of the strings: U+00A0 on two bytes; U+1680, U+2000 to
    U+200A, U+2028, U+2029, U+202F, U+205F, U+3000 and U+FEFF on three. *)
Definition isSpace2 (c1 c2 : ascii) : bool :=
  (nat_of_ascii c1 =? 194)%nat && (nat_of_ascii c2 =? 160)%nat.

Definition isSpace3 (c1 c2 c3 : ascii) : bool :=
  let a := nat_of_ascii c1 in
  let b := nat_of_ascii c2 in
  let c := nat_of_ascii c3 in
  ((a =? 225) && (b =? 154) && (c =? 128))%nat
  || ((a =? 226) && (b =? 128)
      && (((128 <=? c) && (c <=? 138)) || (c =? 168) || (c =? 169)
          || (c =? 175)))%nat
  || ((a =? 226) && (b =? 129) && (c =? 159))%nat
  || ((a =? 227) && (b =? 128) && (c =? 128))%nat
  || ((a =? 239) && (b =? 187) && (c =? 191))%nat.

(** The leading white space that [parseFloat] skips. *)
Fixpoint trimStart (s : string) : string :=
  match s with
  | String c1 s1 =>
      if isSpace c1 then trimStart s1
      else
        match s1 with
        | String c2 s2 =>
            if isSpace2 c1 c2 then trimStart s2
            else
              match s2 with
              | String c3 s3 => if isSpace3 c1 c2 c3 then trimStart s3 else s
              | EmptyString => s
              end
        | EmptyString => s
        end
  | EmptyString => s
  end.

(** Optional sign: [(negative, rest)]. *)
Definition sign (s : string) : bool * string :=
  match s with
  | String "+" s' => (false, s')
  | String "-" s' => (true, s')
  | _ => (false, s)
  end.

(** Reads a run of decimal digits on top of the accumulator [acc]:
    [(value, number of digits read, rest)]. *)
Fixpoint digits (s : string) (acc : Z) (cnt : nat) : Z * nat * string :=
  match s with
  | String c s' =>
      if isDigit c
      then digits s' (10 * acc + (Z.of_nat (nat_of_ascii c) - 48)) (S cnt)
      else (acc, cnt, s)
  | EmptyString => (acc, cnt, s)
  end.

(** Exponent part [[eE][+-]?[0-9]+]; [0] when there is none (an [e] that
    is not followed by digits is not part of the literal). *)
Definition exponent (s : string) : Z :=
  match s with
  | String c s' =>
      if Ascii.eqb c "e" || Ascii.eqb c "E" then
        let '(negative, s'') := sign s' in
        let '(v, n, _) := digits s'' 0 0 in
        if (n =? 0)%nat then 0 else if negative then - v else v
      else 0
  | EmptyString => 0
  end.

(** Longest prefix that is an unsigned decimal literal
    ([digits], [digits.], [digits.digits], [.digits], each with an
    optional exponent); [None] when there is no such prefix. *)
Definition unsigned_literal (s : string) : option Q :=
  let '(ip, ni, r1) := digits s 0 0 in
  let '(mant, nf, r2) :=
    match r1 with
    | String "." r => digits r ip 0
    | _ => (ip, O, r1)
    end in
  if (ni + nf =? 0)%nat then None
  else Some (inject_Z mant * Qpower (10 # 1) (exponent r2 - Z.of_nat nf))%Q.

(** The number value of a literal of magnitude [q] at the two ends of
    binary64: from [2 ^ 1024 - 2 ^ 970] on (half way between the largest
    double and [2 ^ 1024]) it is an infinity, up to [2 ^ -1075] (half of
    the smallest double) it is zero.  In between the value is kept
    exactly. *)
Definition literal_value (negative : bool) (q : Q) : num :=
  if Qleb (inject_Z (2 ^ 1024 - 2 ^ 970)) q then signed_inf negative
  else if Qleb q (1 # 2 ^ 1075) then fin 0
  else fin (if negative then - q else q).

Definition parseFloat_string (s : string) : num :=
  let '(negative, u) := sign (trimStart s) in
  if startsWith "Infinity" u then signed_inf negative
  else
    match unsigned_literal u with
    | None => NaN
    | Some q => literal_value negative q
    end.

(** [parseFloat(v)]: the argument is converted to a string first, so
    [undefined], [null] and booleans give [NaN] and a number gives itself
    back. *)
Definition parseFloat (v : jsval) : num :=
  match v with
  | JStr s => parseFloat_string s
  | JNum n => n
  | JUndefined | JNull | JBool _ => NaN
  end.

End JsParse.

(* ===================================================================== *)
(** ** src/services/WebSocketService.js: codec and ticker parser          *)
(* ===================================================================== *)

(** One element of the [data] array of a ticker frame. *)
Module TickerItem.
Record t : Type := mk {
  instId : jsval;
  last : jsval;
  open24h : jsval;
  vol24h : jsval;
  high24h : jsval;
  low24h : jsval;
  ts : jsval
}.
End TickerItem.

(** The object built by [_parsePriceData].  [lastUpdate] keeps the raw
    [ts] field; it stands for [new Date(parseInt(item.ts))]. *)
Module PriceData.
Record t : Type := mk {
  symbol : string;
  price : num;
  priceChange : num;
  priceChangePercent : num;
  volume : num;
  high24h : num;
  low24h : num;
  lastUpdate : jsval
}.
End PriceData.

(** Signals of the [EventEmitter]. *)
Inductive Signal : Type :=
| connected
| disconnected (code : Z) (reason : string)
| error (msg : jsval)
| priceUpdate (cryptoData : PriceData.t)
| maxReconnectAttemptsReached.

(** A decoded frame: the properties [_handleMessage] reads.  [data] is
    [Some items] when [data.data] is an array; an element is [None] when
    it is [null]. *)
Module Frame.
Record t : Type := mk {
  event : jsval;
  msg : jsval;
  arg_channel : jsval;
  arg_instId : jsval;
  data : option (list (option TickerItem.t))
}.
End Frame.

Module WebSocketCodec.

Import JsString JsParse.

(** [_convertSymbolForOKX(symbol)] *)
Definition _convertSymbolForOKX (symbol : string) : string :=
  if endsWith symbol "USDT" then
    let base := replace "USDT" "" symbol in
    String.append base "-USDT"
  else symbol.

(** [_convertOKXSymbolBack(okxSymbol)] *)
Definition _convertOKXSymbolBack (okxSymbol : string) : string :=
  replace "-" "" okxSymbol.

(** The call [this._convertOKXSymbolBack(item.instId)] on a decoded
    property: [.replace] exists on strings only. *)
Definition _convertOKXSymbolBack_of (v : jsval) : exc string :=
  match v with
  | JStr s => Ok (_convertOKXSymbolBack s)
  | JUndefined | JNull =>
      Throw "TypeError: Cannot read properties of undefined (reading 'replace')"
  | JBool _ | JNum _ =>
      Throw "TypeError: okxSymbol.replace is not a function"
  end.

(** Reading a property of an array element. *)
Definition item_object (item : option TickerItem.t) : exc TickerItem.t :=
  match item with
  | Some o => Ok o
  | None => Throw "TypeError: Cannot read properties of null (reading 'instId')"
  end.

(** [_parsePriceData(item)]; [None] is [null]. *)
Definition _parsePriceData (item : option TickerItem.t) : option PriceData.t :=
  try_catch
    (o ← item_object item;
     symbol ← _convertOKXSymbolBack_of (TickerItem.instId o);
     let last := parseFloat (TickerItem.last o) in
     let open24h := parseFloat (TickerItem.open24h o) in
     if isNaN last || isNaN open24h then Ok None
     else
       Ok (Some {|
         PriceData.symbol := symbol;
         PriceData.price := last;
         PriceData.priceChange := sub last open24h;
         PriceData.priceChangePercent :=
           mul (div (sub last open24h) open24h) (ofZ 100);
         PriceData.volume := or_zero (parseFloat (TickerItem.vol24h o));
         PriceData.high24h := or_zero (parseFloat (TickerItem.high24h o));
         PriceData.low24h := or_zero (parseFloat (TickerItem.low24h o));
         PriceData.lastUpdate := TickerItem.ts o
       |}))
    (fun _ => None).

(** [data.event === 'subscribe'] and the like. *)
Definition is_str (v : jsval) (s : string) : bool :=
  match v with
  | JStr s' => String.eqb s' s
  | _ => false
  end.

(** [_handleMessage(data)]: the signals emitted, in order.  A [null]
    frame makes the first property read throw. *)
Definition _handleMessage (data : option Frame.t) : exc (list Signal) :=
  match data with
  | None => Throw "TypeError: Cannot read properties of null (reading 'event')"
  | Some d =>
      if is_str (Frame.event d) "subscribe" then Ok []
      else if is_str (Frame.event d) "error" then Ok [error (Frame.msg d)]
      else
        match Frame.data d with
        | Some items =>
            if is_str (Frame.arg_channel d) "tickers" then
              Ok (flat_map
                    (fun item =>
                       match _parsePriceData item with
                       | Some cryptoData => [priceUpdate cryptoData]
                       | None => []
                       end)
                    items)
            else Ok []
        | None => Ok []
        end
  end.

(** A raw message: [JSON.parse] either throws or yields a frame. *)
Inductive RawMessage : Type :=
| Malformed (why : string)
| Decoded (data : option Frame.t).

(** The ['message'] handler installed by [connect]. *)
Definition on_message (raw : RawMessage) : list Signal :=
  try_catch
    (parsedData ← match raw with
                  | Malformed why => Throw why
                  | Decoded d => Ok d
                  end;
     _handleMessage parsedData)
    (fun e => [error (JStr e)]).

End WebSocketCodec.

(* ===================================================================== *)
(** ** src/services/WebSocketService.js: connection state machine         *)
(* ===================================================================== *)

Module WebSocketService.

Import WebSocketCodec.

(** [ws.readyState] *)
Inductive ReadyState : Type := CONNECTING | OPEN | CLOSING | CLOSED.

(** The [setTimeout] callbacks the class creates. *)
Inductive Timer : Type :=
| connectTimeout      (* in [connect], 10000 ms *)
| resubscribeTimer    (* in the ['open'] handler, [subscriptionDelay] *)
| reconnectTimer.     (* in [_attemptReconnect] *)

(** What a method does to the outside, in order. *)
Inductive Effect : Type :=
| Emit (s : Signal)
| SetTimeout (t : Timer) (delay : Z)
| ClearTimeout (t : Timer)
| SetInterval (period : Z)
| ClearInterval
| NewWebSocket
| WsSend (op : string) (instId : string)
| WsClose (code : Z) (reason : string)
| WsTerminate
| WsPing
| Resolve
| Reject (why : string)
| Uncaught (why : string).

(** The fields of the instance.  [ws] is [None] for [null] and otherwise
    the ready state of the current socket; [heartbeatInterval] says
    whether an interval handle is stored. *)
Record State : Type := mkState {
  ws : option ReadyState;
  isConnected : bool;
  reconnectAttempts : Z;
  subscribers : list string;
  heartbeatInterval : bool
}.

(** [constructor()] *)
Definition init : State :=
  {| ws := None; isConnected := false; reconnectAttempts := 0;
     subscribers := []; heartbeatInterval := false |}.

(** Methods run in a state-and-output monad. *)
Definition M (A : Type) : Type := State -> A * State * list Effect.

#[global] Instance M_ret : MRet M := fun _ a st => (a, st, []).
#[global] Instance M_bind : MBind M := fun _ _ k m st =>
  let '(a, st1, out1) := m st in
  let '(b, st2, out2) := k a st1 in
  (b, st2, out1 ++ out2).

Definition get : M State := fun st => (st, st, []).
Definition put (st' : State) : M unit := fun _ => (tt, st', []).
Definition tell (e : Effect) : M unit := fun st => (tt, st, [e]).

Definition set_ws (w : option ReadyState) : M unit :=
  st ← get;
  put {| ws := w; isConnected := isConnected st;
         reconnectAttempts := reconnectAttempts st;
         subscribers := subscribers st;
         heartbeatInterval := heartbeatInterval st |}.

Definition set_isConnected (b : bool) : M unit :=
  st ← get;
  put {| ws := ws st; isConnected := b;
         reconnectAttempts := reconnectAttempts st;
         subscribers := subscribers st;
         heartbeatInterval := heartbeatInterval st |}.

Definition set_reconnectAttempts (n : Z) : M unit :=
  st ← get;
  put {| ws := ws st; isConnected := isConnected st;
         reconnectAttempts := n;
         subscribers := subscribers st;
         heartbeatInterval := heartbeatInterval st |}.

Definition set_subscribers (l : list string) : M unit :=
  st ← get;
  put {| ws := ws st; isConnected := isConnected st;
         reconnectAttempts := reconnectAttempts st;
         subscribers := l;
         heartbeatInterval := heartbeatInterval st |}.

Definition set_heartbeatInterval (b : bool) : M unit :=
  st ← get;
  put {| ws := ws st; isConnected := isConnected st;
         reconnectAttempts := reconnectAttempts st;
         subscribers := subscribers st;
         heartbeatInterval := b |}.

Definition state_of {A : Type} (r : A * State * list Effect) : State := r.1.2.
Definition output_of {A : Type} (r : A * State * list Effect) : list Effect := r.2.
Definition value_of {A : Type} (r : A * State * list Effect) : A := r.1.1.

(** [_stopHeartbeat()] *)
Definition _stopHeartbeat : M unit :=
  st ← get;
  if heartbeatInterval st then
    tell ClearInterval;; set_heartbeatInterval false
  else mret tt.

(** [_startHeartbeat()] *)
Definition _startHeartbeat : M unit :=
  _stopHeartbeat;;
  tell (SetInterval 30000);;
  set_heartbeatInterval true.

(** The interval callback of [_startHeartbeat]. *)
Definition heartbeat_tick : M unit :=
  st ← get;
  match ws st with
  | Some OPEN => tell WsPing
  | _ => mret tt
  end.

(** The guard shared by [_sendSubscription] and [_sendUnsubscription]. *)
Definition can_send (st : State) : bool :=
  isConnected st &&
  match ws st with
  | Some OPEN => true
  | _ => false
  end.

(** [_sendSubscription(symbol)] *)
Definition _sendSubscription (symbol : string) : M bool :=
  st ← get;
  if negb (can_send st) then mret false
  else tell (WsSend "subscribe" (_convertSymbolForOKX symbol));; mret true.

(** [_sendUnsubscription(symbol)] *)
Definition _sendUnsubscription (symbol : string) : M bool :=
  st ← get;
  if negb (can_send st) then mret false
  else tell (WsSend "unsubscribe" (_convertSymbolForOKX symbol));; mret true.

(** [subscribe(symbol)]; the [Set] keeps insertion order. *)
Definition subscribe (symbol : string) : M bool :=
  st ← get;
  (if bool_decide (symbol ∈ subscribers st) then mret tt
   else set_subscribers (subscribers st ++ [symbol]));;
  _sendSubscription symbol.

(** [unsubscribe(symbol)] *)
Definition unsubscribe (symbol : string) : M bool :=
  st ← get;
  set_subscribers (filter (fun s => s ≠ symbol) (subscribers st));;
  _sendUnsubscription symbol.

(** [_resubscribeAll()] *)
Definition _resubscribeAll : M unit :=
  st ← get;
  foldr (fun symbol rest => _sendSubscription symbol;; rest) (mret tt)
        (subscribers st).

(** [_attemptReconnect()] *)
Definition _attemptReconnect : M unit :=
  st ← get;
  if config.websocket.reconnectAttempts <=? reconnectAttempts st then
    tell (Emit maxReconnectAttemptsReached)
  else
    set_reconnectAttempts (reconnectAttempts st + 1);;
    st' ← get;
    let delay := config.websocket.reconnectDelay * reconnectAttempts st' in
    tell (SetTimeout reconnectTimer delay).

(** [connect()]: the body of the promise executor up to the handler
    registrations. *)
Definition connect : M unit :=
  tell NewWebSocket;;
  set_ws (Some CONNECTING);;
  tell (SetTimeout connectTimeout 10000).

(** The ['open'] handler. *)
Definition on_open : M unit :=
  tell (ClearTimeout connectTimeout);;
  set_isConnected true;;
  set_reconnectAttempts 0;;
  _startHeartbeat;;
  tell (SetTimeout resubscribeTimer config.websocket.subscriptionDelay);;
  tell Resolve.

(** The ['close'] handler.  It is the same for every close: nothing in
    the state records who asked for the close. *)
Definition on_close (code : Z) (reason : string) : M unit :=
  tell (ClearTimeout connectTimeout);;
  set_isConnected false;;
  _stopHeartbeat;;
  tell (Emit (disconnected code reason));;
  _attemptReconnect.

(** The ['error'] handler. *)
Definition on_error (message : string) : M unit :=
  tell (ClearTimeout connectTimeout);;
  set_isConnected false;;
  tell (Emit (error (JStr message)));;
  tell (Reject message).

(** The callbacks of the three timers.  The connect timeout reads
    [this.ws.readyState]; with [this.ws] set to [null] by [disconnect] that
    read throws out of the callback. *)
Definition on_timer (t : Timer) : M unit :=
  match t with
  | connectTimeout =>
      st ← get;
      match ws st with
      | Some CONNECTING =>
          tell WsTerminate;; tell (Reject "WebSocket connect timeout")
      | Some _ => mret tt
      | None =>
          tell (Uncaught "TypeError: Cannot read properties of null (reading 'readyState')")
      end
  | resubscribeTimer => _resubscribeAll;; tell (Emit connected)
  | reconnectTimer => connect
  end.

(** [disconnect()] *)
Definition disconnect : M unit :=
  _stopHeartbeat;;
  st ← get;
  (match ws st with
   | Some _ => tell (WsClose 1000 "Normal closure");; set_ws None
   | None => mret tt
   end);;
  set_isConnected false;;
  set_reconnectAttempts 0.

(** What can happen to an instance: calls of its public methods, events
    of a socket created by [connect] (the handlers act on the instance,
    whichever socket the event comes from), and timers.  The ready state of
    the current socket, when there is one, moves with the events. *)
Inductive Event : Type :=
| call_connect
| call_disconnect
| call_subscribe (symbol : string)
| call_unsubscribe (symbol : string)
| ws_open
| ws_message (raw : RawMessage)
| ws_close (code : Z) (reason : string)
| ws_error (message : string)
| timer_fires (t : Timer)
| interval_fires.

Definition socket_becomes (r : ReadyState) : M unit :=
  st ← get;
  match ws st with
  | Some _ => set_ws (Some r)
  | None => mret tt
  end.

Definition step (ev : Event) : M unit :=
  match ev with
  | call_connect => connect
  | call_disconnect => disconnect
  | call_subscribe symbol => subscribe symbol;; mret tt
  | call_unsubscribe symbol => unsubscribe symbol;; mret tt
  | ws_open => socket_becomes OPEN;; on_open
  | ws_message raw =>
      foldr (fun s rest => tell (Emit s);; rest) (mret tt) (on_message raw)
  | ws_close code reason => socket_becomes CLOSED;; on_close code reason
  | ws_error message => on_error message
  | timer_fires t => on_timer t
  | interval_fires => heartbeat_tick
  end.

Fixpoint run (evs : list Event) : M unit :=
  match evs with
  | [] => mret tt
  | ev :: rest => step ev;; run rest
  end.

(** The delays of the reconnects scheduled in an output. *)
Definition reconnect_delays (out : list Effect) : list Z :=
  flat_map (fun e => match e with
                     | SetTimeout reconnectTimer delay => [delay]
                     | _ => []
                     end) out.

(** The signals emitted in an output. *)
Definition emitted (out : list Effect) : list Signal :=
  flat_map (fun e => match e with Emit s => [s] | _ => [] end) out.

(** The socket closes requested in an output. *)
Definition closes (out : list Effect) : list (Z * string) :=
  flat_map (fun e => match e with
                     | WsClose code reason => [(code, reason)]
                     | _ => []
                     end) out.

(** A reconnect attempt that fails: the timer runs [connect], the new
    socket reports an error and then closes. *)
Definition failed_reconnect (message : string) (code : Z) (reason : string)
  : list Event :=
  [timer_fires reconnectTimer; ws_error message; ws_close code reason].

(** The events of a connection that drops and whose first [k] reconnect
    attempts all fail. *)
Fixpoint drop_and_fail (k : nat) (message : string) (code : Z) (reason : string)
  : list Event :=
  match k with
  | O => [ws_close code reason]
  | S k' => drop_and_fail k' message code reason
            ++ failed_reconnect message code reason
  end.

(** [getStatus()] *)
Record Status : Type := mkStatus {
  status_isConnected : bool;
  status_reconnectAttempts : Z;
  subscribedSymbols : list string;
  readyState : option ReadyState
}.

Definition getStatus (st : State) : Status :=
  {| status_isConnected := isConnected st;
     status_reconnectAttempts := reconnectAttempts st;
     subscribedSymbols := subscribers st;
     readyState := ws st |}.

(** The requests of a resubscribe pass over [l]. *)
Definition subscribe_requests (l : list string) : list Effect :=
  map (fun symbol => WsSend "subscribe" (_convertSymbolForOKX symbol)) l.

(** The requests written to the socket in an output: [(op, instId)]. *)
Definition sends (out : list Effect) : list (string * string) :=
  flat_map (fun e => match e with
                     | WsSend op instId => [(op, instId)]
                     | _ => []
                     end) out.

(** Heartbeat intervals started less heartbeat intervals cleared. *)
Definition intervals_balance (out : list Effect) : Z :=
  foldr (fun e n => match e with
                    | SetInterval _ => n + 1
                    | ClearInterval => n - 1
                    | _ => n
                    end) 0 out.

(** An output that only emits signals. *)
Definition only_emits (out : list Effect) : bool :=
  forallb (fun e => match e with Emit _ => true | _ => false end) out.

End WebSocketService.

(* ===================================================================== *)
(** ** src/services/NotificationService.js: NotificationService           *)
(* ===================================================================== *)

(** A template literal: its fixed pieces and its holes.  [ToFixed x d] is
    [x.toFixed(d)] and [LocaleTime] is [new Date().toLocaleString()]. *)
Inductive Part : Type :=
| Lit (s : string)
| ToFixed (x : num) (digits : nat)
| LocaleTime.

Module NotificationService.

(** How the promise of [_sendToWechat] settles: it resolves [true] when
    the webhook answers [errcode === 0], resolves [false] on any other
    answer, on an unreadable answer and on a network error; [Raised] is
    an exception out of the call, which [sendWechatAlert] catches. *)
Inductive SendOutcome : Type := Delivered | Refused | Raised.

(** [sentAlerts] and the pending cooldown timers [(due, alertKey)]. *)
Record State : Type := mkState {
  sentAlerts : gmap string Z;
  cooldownTimers : list (Z * string)
}.

(** [constructor()] *)
Definition init : State := {| sentAlerts := ∅; cooldownTimers := [] |}.

(** Truthiness of the [alertKey] argument ([null] by default): the key
    when it is a non-empty string. *)
Definition truthy_key (alertKey : option string) : option string :=
  match alertKey with
  | Some k => if String.eqb k "" then None else Some k
  | None => None
  end.

(** The test [alertKey && this.sentAlerts.has(alertKey)]. *)
Definition is_duplicate (alertKey : option string) (st : State) : bool :=
  match truthy_key alertKey with
  | Some k => bool_decide (is_Some (sentAlerts st !! k))
  | None => false
  end.

(** The value [sendWechatAlert] returns for an outcome of its request. *)
Definition success_of (outcome : SendOutcome) : bool :=
  match outcome with
  | Delivered => true
  | Refused | Raised => false
  end.

(** [sendWechatAlert] after its [await]: the promise of [_sendToWechat]
    has settled with [outcome] at time [now].  Result: the value the
    call returns and the new state. *)
Definition sendWechatAlert_resume
    (alertKey : option string) (outcome : SendOutcome) (now : Z) (st : State)
  : bool * State :=
  match outcome with
  | Delivered =>
      match truthy_key alertKey with
      | Some k =>
          (true,
           {| sentAlerts := <[k := now]> (sentAlerts st);
              cooldownTimers :=
                cooldownTimers st ++ [(now + config.alerts.cooldownPeriod, k)] |})
      | None => (true, st)
      end
  | Refused => (false, st)
  | Raised => (false, st)
  end.

(** [sendWechatAlert(content, alertKey)] when nothing else runs between
    the call and the settling of its request: the value returned, the
    contents handed to [_sendToWechat] and the new state. *)
Definition sendWechatAlert
    (content : list Part) (alertKey : option string)
    (outcome : SendOutcome) (now : Z) (st : State)
  : bool * list (list Part) * State :=
  if is_duplicate alertKey st then (false, [], st)
  else
    let '(success, st') := sendWechatAlert_resume alertKey outcome now st in
    (success, [content], st').

(** The clock reaches [now]: every cooldown timer due by then runs its
    [this.sentAlerts.delete(alertKey)]. *)
Definition fire_due (now : Z) (st : State) : State :=
  {| sentAlerts :=
       foldr (fun t m => if t.1 <=? now then delete t.2 m else m)
             (sentAlerts st) (cooldownTimers st);
     cooldownTimers :=
       filter (fun t => now < t.1) (cooldownTimers st) |}.

(** One run of the interval callback of [startCleanupTask] at [now]. *)
Definition cleanup (now : Z) (st : State) : State :=
  {| sentAlerts :=
       filter (fun kv => ¬ (now - kv.2 > config.alerts.maxAlertAge))
              (sentAlerts st);
     cooldownTimers := cooldownTimers st |}.

(** [getActiveAlertsCount()] *)
Definition getActiveAlertsCount (st : State) : nat := size (sentAlerts st).

(** [clearAllAlerts()] *)
Definition clearAllAlerts (st : State) : State :=
  {| sentAlerts := ∅; cooldownTimers := cooldownTimers st |}.

(** What happens to an instance over time, one call at a time (each
    request settles before the next call): a [sendWechatAlert] with the
    outcome of its request, or a run of the cleanup task.
    ([clearAllAlerts] has no caller in the repository.) *)
Inductive Op : Type :=
| op_send (content : list Part) (alertKey : option string) (outcome : SendOutcome)
| op_cleanup.

(** [op] happens at time [now], after the timers due by then. *)
Definition apply_at (now : Z) (op : Op) (st : State) : State :=
  let st' := fire_due now st in
  match op with
  | op_send content alertKey outcome =>
      (sendWechatAlert content alertKey outcome now st').2
  | op_cleanup => cleanup now st'
  end.

(** [reachable_at now st]: [st] is the state at time [now] of some run
    that started from [init], with times that never go back. *)
Inductive reachable_at : Z -> State -> Prop :=
| reach_start now : reachable_at now init
| reach_op now now' op st :
    reachable_at now st -> now <= now' ->
    reachable_at now' (apply_at now' op st).

(** Records and timers go by pairs: every pending timer is in the future
    and belongs to the record made [cooldownPeriod] before it is due, and
    every record has its timer. *)
Definition consistent (now : Z) (st : State) : Prop :=
  (forall due k, (due, k) ∈ cooldownTimers st ->
     now < due /\
     sentAlerts st !! k = Some (due - config.alerts.cooldownPeriod)) /\
  (forall k stamp, sentAlerts st !! k = Some stamp ->
     (stamp + config.alerts.cooldownPeriod, k) ∈ cooldownTimers st).

End NotificationService.

(* ===================================================================== *)
(** ** src/services/NotificationService.js: PriceMonitorService           *)
(* ===================================================================== *)

Module PriceMonitorService.

(** The [type] argument: ['max'] or ['min']. *)
Inductive ExceedType : Type := type_max | type_min.

Definition type_string (type : ExceedType) : string :=
  match type with
  | type_max => "max"
  | type_min => "min"
  end.

(** [priceThresholds] is a plain object, read with
    [this.priceThresholds[symbol]] and written with
    [this.priceThresholds[symbol] = { min, max }]; the map holds what was
    written under each key.  Reading a key that was never written falls
    back on the prototype chain, see [inherited]. *)
Record State : Type := mkState {
  cryptoData : gmap string PriceData.t;
  priceThresholds : gmap string Thresholds.t;
  notificationService : NotificationService.State
}.

(** The property names of [Object.prototype]. *)
Definition Object_prototype : list string :=
  ["constructor"; "__defineGetter__"; "__defineSetter__"; "hasOwnProperty";
   "__lookupGetter__"; "__lookupSetter__"; "isPrototypeOf";
   "propertyIsEnumerable"; "toString"; "valueOf"; "__proto__";
   "toLocaleString"].

(** What a plain object gives for a key that was never written: a member
    of [Object.prototype] (a function, or the prototype itself for
    [__proto__]); or, once an entry was written under the key [__proto__]
    (the assignment makes that entry the prototype of the object), the
    number [min] or [max] of that entry. *)
Inductive Inherited : Type :=
| prototype_member (name : string)
| prototype_number (x : num).

Definition inherited (symbol : string) (table : gmap string Thresholds.t)
  : option Inherited :=
  if bool_decide (symbol ∈ Object_prototype) then Some (prototype_member symbol)
  else
    match table !! "__proto__" with
    | Some t =>
        if String.eqb symbol "min" then Some (prototype_number (Thresholds.min t))
        else if String.eqb symbol "max"
             then Some (prototype_number (Thresholds.max t))
             else None
    | None => None
    end.

(** The value of [this.priceThresholds[symbol]]; [None] is [undefined]. *)
Inductive Property : Type :=
| own (t : Thresholds.t)
| from_prototype (v : Inherited).

Definition read_key (symbol : string) (table : gmap string Thresholds.t)
  : option Property :=
  match table !! symbol with
  | Some t => Some (own t)
  | None => from_prototype <$> inherited symbol table
  end.

(** ToBoolean of a value read from the table: objects and functions are
    truthy, an inherited number is truthy unless it is zero or [NaN]. *)
Definition truthy_property (v : option Property) : bool :=
  match v with
  | Some (own _) => true
  | Some (from_prototype (prototype_member _)) => true
  | Some (from_prototype (prototype_number x)) => truthy x
  | None => false
  end.

(** [constructor()] *)
Definition init : State :=
  {| cryptoData := ∅;
     priceThresholds := list_to_map config.symbols.thresholds;
     notificationService := NotificationService.init |}.

(** What a call does to the outside: console lines worth keeping and the
    webhook requests started. *)
Inductive Effect : Type :=
| warn_no_thresholds (symbol : string)
| log_thresholds (symbol : string) (t : Thresholds.t)
| request (content : list Part) (alertKey : string)
| log_duplicate (alertKey : string)
| log_alert (message : list Part)
| log_price_change (symbol : string) (price changePercent : num).

Definition nl : string := String (ascii_of_nat 10) EmptyString.

(** [_updateThresholds(symbol, currentPrice)]: the band written.  The
    products are exact here; the code rounds each to binary64
    ([rebased_binary64] below), which keeps their order but not always
    their distance from the price. *)
Definition rebased (currentPrice : num) : Thresholds.t :=
  let changeThreshold := config.alerts.priceChangeThreshold in
  {| Thresholds.min := mul currentPrice (sub (ofZ 1) changeThreshold);
     Thresholds.max := mul currentPrice (add (ofZ 1) changeThreshold) |}.

Definition _updateThresholds (symbol : string) (currentPrice : num) (st : State)
  : State * list Effect :=
  let t := rebased currentPrice in
  ({| cryptoData := cryptoData st;
      priceThresholds := <[symbol := t]> (priceThresholds st);
      notificationService := notificationService st |},
   [log_thresholds symbol t]).

(** The two products of [_updateThresholds] as the code computes them, on
    binary64. *)
Definition rebased_binary64 (currentPrice : float) : float * float :=
  let changeThreshold := 0.01%float in
  ((currentPrice * (1 - changeThreshold))%float,
   (currentPrice * (1 + changeThreshold))%float).

(** [_generateAlertMessage(symbol, data, type, threshold)]; [None] when
    [this.priceThresholds[symbol]] is missing (the property read on it
    would throw). *)
Definition _generateAlertMessage
    (symbol : string) (data : PriceData.t) (type : ExceedType)
    (threshold : num) (st : State) : option (list Part) :=
  let price := PriceData.price data in
  let priceChangePercent := PriceData.priceChangePercent data in
  let direction :=
    match type with type_max => "超过最大" | type_min => "低于最小" end in
  let emoji := match type with type_max => "📈" | type_min => "📉" end in
  newThresholds ← priceThresholds st !! symbol;
  Some [Lit emoji; Lit " 价格预警！"; Lit nl;
        Lit "币种: "; Lit symbol; Lit nl;
        Lit "当前价格: $"; ToFixed price 4; Lit nl;
        Lit direction; Lit "设定值: $"; ToFixed threshold 4; Lit nl;
        Lit "24h涨跌: ";
        Lit (if ge priceChangePercent (ofZ 0) then "+" else "");
        ToFixed priceChangePercent 2; Lit "%"; Lit nl;
        Lit "新阈值范围: $"; ToFixed (Thresholds.min newThresholds) 4;
        Lit " - $"; ToFixed (Thresholds.max newThresholds) 4; Lit nl;
        Lit "时间: "; LocaleTime].

(** The key built in [_handlePriceExceeded]. *)
Definition alert_key (symbol : string) (type : ExceedType) : string :=
  String.append symbol
    (String.append "_" (String.append (type_string type) "_price_exceeded")).

(** [_handlePriceExceeded(symbol, data, type, threshold)].  The call of
    [sendWechatAlert] is not awaited: only its part before the [await]
    runs here, which starts a request unless the key is already
    recorded. *)
Definition _handlePriceExceeded
    (symbol : string) (data : PriceData.t) (type : ExceedType)
    (threshold : num) (st : State) : State * list Effect :=
  let price := PriceData.price data in
  let '(st1, out1) := _updateThresholds symbol price st in
  match _generateAlertMessage symbol data type threshold st1 with
  | Some message =>
      let alertKey := alert_key symbol type in
      let out2 :=
        if NotificationService.is_duplicate (Some alertKey)
             (notificationService st1)
        then [log_duplicate alertKey]
        else [request message alertKey] in
      (st1, out1 ++ out2 ++ [log_alert message])
  | None => (st1, out1)
  end.

(** [_checkPriceThresholds(symbol, data, previousData)] *)
(** [_checkPriceThresholds(symbol, data, previousData)].  When the value
    read is inherited and truthy, [const { min, max } = thresholds] binds
    both names to [undefined], and [price > undefined] and
    [price < undefined] are false: nothing is done and nothing is
    printed. *)
Definition _checkPriceThresholds
    (symbol : string) (data : PriceData.t) (previousData : option PriceData.t)
    (st : State) : State * list Effect :=
  match priceThresholds st !! symbol with
  | None =>
      if truthy_property (read_key symbol (priceThresholds st)) then (st, [])
      else (st, [warn_no_thresholds symbol])
  | Some thresholds =>
      let price := PriceData.price data in
      let min := Thresholds.min thresholds in
      let max := Thresholds.max thresholds in
      if gt price max then _handlePriceExceeded symbol data type_max max st
      else if lt price min then _handlePriceExceeded symbol data type_min min st
      else (st, [])
  end.

(** What [_checkPriceThresholds] prints for a symbol that has no entry. *)
Definition no_entry_output (symbol : string) (st : State) : list Effect :=
  if truthy_property (read_key symbol (priceThresholds st)) then []
  else [warn_no_thresholds symbol].

(** [_logPriceChange(symbol, data, previousData)] *)
Definition _logPriceChange
    (symbol : string) (data : PriceData.t) (previousData : option PriceData.t)
  : list Effect :=
  match previousData with
  | None => []
  | Some previous =>
      let priceChange := sub (PriceData.price data) (PriceData.price previous) in
      let changePercent :=
        mul (div priceChange (PriceData.price previous)) (ofZ 100) in
      if ge (JsNum.abs changePercent) (fin (1 # 2))
      then [log_price_change symbol (PriceData.price data) changePercent]
      else []
  end.

(** [updateCryptoData(symbol, data)] *)
Definition updateCryptoData (symbol : string) (data : PriceData.t) (st : State)
  : State * list Effect :=
  let previousData := cryptoData st !! symbol in
  let st1 :=
    {| cryptoData := <[symbol := data]> (cryptoData st);
       priceThresholds := priceThresholds st;
       notificationService := notificationService st |} in
  let '(st2, out) := _checkPriceThresholds symbol data previousData st1 in
  (st2, out ++ _logPriceChange symbol data previousData).

(** [getCryptoData(symbol)] *)
Definition getCryptoData (symbol : string) (st : State) : option PriceData.t :=
  cryptoData st !! symbol.

(** [getThresholds(symbol)]: [this.priceThresholds[symbol] || null] *)
Definition getThresholds (symbol : string) (st : State) : option Property :=
  let v := read_key symbol (priceThresholds st) in
  if truthy_property v then v else None.

(** [setThresholds(symbol, min, max)] *)
Definition setThresholds (symbol : string) (min max : num) (st : State) : State :=
  {| cryptoData := cryptoData st;
     priceThresholds :=
       <[symbol := {| Thresholds.min := min; Thresholds.max := max |}]>
         (priceThresholds st);
     notificationService := notificationService st |}.

(** The request started for [alertKey] settles at [now]: the rest of
    [sendWechatAlert] runs. *)
Definition request_settles
    (alertKey : string) (outcome : NotificationService.SendOutcome) (now : Z)
    (st : State) : State :=
  {| cryptoData := cryptoData st;
     priceThresholds := priceThresholds st;
     notificationService :=
       (NotificationService.sendWechatAlert_resume
          (Some alertKey) outcome now (notificationService st)).2 |}.

(** The values a message prints with two decimals; the template has one
    such hole, the percent change. *)
Definition percent_shown (message : list Part) : list num :=
  flat_map (fun part => match part with
                        | ToFixed x 2 => [x]
                        | _ => []
                        end) message.

(** The alerts written to the console in an output. *)
Definition alerts_logged (out : list Effect) : list (list Part) :=
  flat_map (fun e => match e with log_alert m => [m] | _ => [] end) out.

(** The band invariant of one entry and of a whole table. *)
Definition band_ok (t : Thresholds.t) : bool :=
  le (Thresholds.min t) (Thresholds.max t).

Definition bands_ok (st : State) : Prop :=
  ∀ symbol t, priceThresholds st !! symbol = Some t → band_ok t = true.

(** The state after the store done first by [updateCryptoData]. *)
Definition stored (symbol : string) (data : PriceData.t) (st : State) : State :=
  {| cryptoData := <[symbol := data]> (cryptoData st);
     priceThresholds := priceThresholds st;
     notificationService := notificationService st |}.

(** The tick used in the examples: [last] is [price], [open24h] is [open]. *)
Definition tick (symbol : string) (price open : Q) : PriceData.t :=
  {| PriceData.symbol := symbol;
     PriceData.price := fin price;
     PriceData.priceChange := sub (fin price) (fin open);
     PriceData.priceChangePercent :=
       mul (div (sub (fin price) (fin open)) (fin open)) (ofZ 100);
     PriceData.volume := ofZ 0;
     PriceData.high24h := ofZ 0;
     PriceData.low24h := ofZ 0;
     PriceData.lastUpdate := JUndefined |}.

(** The start state with the band of [BTCUSDT] set to 100 .. 110. *)
Definition btc_100_110 : State :=
  setThresholds "BTCUSDT" (ofZ 100) (ofZ 110) init.

(** The clock reaches [now]: the cooldown timers due by then fire. *)
Definition timers_fire (now : Z) (st : State) : State :=
  {| cryptoData := cryptoData st;
     priceThresholds := priceThresholds st;
     notificationService := NotificationService.fire_due now (notificationService st) |}.

(** The cleanup task of the notification service runs at [now]. *)
Definition cleanup_runs (now : Z) (st : State) : State :=
  {| cryptoData := cryptoData st;
     priceThresholds := priceThresholds st;
     notificationService := NotificationService.cleanup now (notificationService st) |}.

(** The states reached from the start state by price updates whose price
    is at least zero, by [setThresholds] calls with [min <= max], by the
    settling of webhook requests and by timers. *)
Inductive reachable : State -> Prop :=
| reach_init : reachable init
| reach_timers now st :
    reachable st -> reachable (timers_fire now st)
| reach_cleanup now st :
    reachable st -> reachable (cleanup_runs now st)
| reach_update symbol data st :
    reachable st ->
    ge (PriceData.price data) (ofZ 0) = true ->
    reachable (updateCryptoData symbol data st).1
| reach_setThresholds symbol min max st :
    reachable st ->
    le min max = true ->
    reachable (setThresholds symbol min max st)
| reach_settles alertKey outcome now st :
    reachable st ->
    reachable (request_settles alertKey outcome now st).

(** [getAllCryptoData()]: a copy of the map. *)
Definition getAllCryptoData (st : State) : gmap string PriceData.t :=
  cryptoData st.

(** [getStats()], without the time stamp. *)
Definition getStats (st : State) : nat * nat :=
  (size (cryptoData st),
   NotificationService.getActiveAlertsCount (notificationService st)).

(** The webhook requests started in an output. *)
Definition requests (out : list Effect) : list (list Part * string) :=
  flat_map (fun e => match e with
                     | request content alertKey => [(content, alertKey)]
                     | _ => []
                     end) out.

End PriceMonitorService.

(* ===================================================================== *)
(** ** CryptoMonitorService: the wiring of the two services               *)
(* ===================================================================== *)

Module CryptoMonitorService.

(** The listeners bound in [_bindEventHandlers] that touch the monitor:
    ['priceUpdate'] calls [updateCryptoData]; the others only log. *)
Definition on_signal (s : Signal) (st : PriceMonitorService.State)
  : PriceMonitorService.State * list PriceMonitorService.Effect :=
  match s with
  | priceUpdate cryptoData =>
      PriceMonitorService.updateCryptoData
        (PriceData.symbol cryptoData) cryptoData st
  | _ => (st, [])
  end.

Fixpoint on_signals (l : list Signal) (st : PriceMonitorService.State)
  : PriceMonitorService.State * list PriceMonitorService.Effect :=
  match l with
  | [] => (st, [])
  | s :: rest =>
      let '(st1, out1) := on_signal s st in
      let '(st2, out2) := on_signals rest st1 in
      (st2, out1 ++ out2)
  end.

(** A raw message arrives on the socket. *)
Definition on_raw_message (raw : WebSocketCodec.RawMessage)
    (st : PriceMonitorService.State)
  : PriceMonitorService.State * list PriceMonitorService.Effect :=
  on_signals (WebSocketCodec.on_message raw) st.

(** The fields of the main service that the methods below use. *)
Record App : Type := mkApp {
  webSocketService : WebSocketService.State;
  priceMonitorService : PriceMonitorService.State;
  isRunning : bool
}.

(** [constructor()] *)
Definition init : App :=
  {| webSocketService := WebSocketService.init;
     priceMonitorService := PriceMonitorService.init;
     isRunning := false |}.

(** What [_validateConfig] reports on the console. *)
Inductive Warning : Type :=
| warn_webhook_key
| warn_no_thresholds (symbol : string).

(** The loop of [_validateConfig] over the configured symbols: the
    warnings written and, when a symbol is not valid, the symbol named by
    the error thrown. *)
Fixpoint validate_symbols (symbols : list string)
    (thresholds : gmap string Thresholds.t) : list Warning * option string :=
  match symbols with
  | [] => ([], None)
  | symbol :: rest =>
      if negb (helpers.isValidSymbol (JStr symbol)) then ([], Some symbol)
      else
        let w := match thresholds !! symbol with
                 | None => [warn_no_thresholds symbol]
                 | Some _ => []
                 end in
        let '(ws, err) := validate_symbols rest thresholds in
        (w ++ ws, err)
  end.

(** [_validateConfig()] for a configuration with the given webhook key,
    symbols and thresholds. *)
Definition _validateConfig (webhookKey : string) (symbols : list string)
    (thresholds : gmap string Thresholds.t) : list Warning * option string :=
  let w := if String.eqb webhookKey "" || String.eqb webhookKey "your-webhook-key-here"
           then [warn_webhook_key] else [] in
  let '(ws, err) := validate_symbols symbols thresholds in
  (w ++ ws, err).

(** [addSymbol(symbol, thresholds)]; [thresholds] is [None] for [null]. *)
Definition addSymbol (symbol : jsval) (thresholds : option Thresholds.t)
    (app : App) : bool * App * list WebSocketService.Effect :=
  if negb (helpers.isValidSymbol symbol) then (false, app, [])
  else
    match symbol with
    | JStr s =>
        let '(success, ws', out) :=
          WebSocketService.subscribe s (webSocketService app) in
        let pm' :=
          match thresholds with
          | Some t =>
              if success
              then PriceMonitorService.setThresholds s
                     (Thresholds.min t) (Thresholds.max t)
                     (priceMonitorService app)
              else priceMonitorService app
          | None => priceMonitorService app
          end in
        (success,
         {| webSocketService := ws';
            priceMonitorService := pm';
            isRunning := isRunning app |},
         out)
    | _ => (false, app, [])
    end.

(** [removeSymbol(symbol)] *)
Definition removeSymbol (symbol : string) (app : App)
  : bool * App * list WebSocketService.Effect :=
  let '(success, ws', out) :=
    WebSocketService.unsubscribe symbol (webSocketService app) in
  (success,
   {| webSocketService := ws';
      priceMonitorService := priceMonitorService app;
      isRunning := isRunning app |},
   out).

(** [getSymbolInfo(symbol)]: the price data with the thresholds added, or
    [None] for [null]. *)
Definition getSymbolInfo (symbol : string) (app : App)
  : option (PriceData.t * option PriceMonitorService.Property) :=
  match PriceMonitorService.getCryptoData symbol (priceMonitorService app) with
  | Some data =>
      Some (data,
            PriceMonitorService.getThresholds symbol (priceMonitorService app))
  | None => None
  end.

(** [getAllPrices()]: price, change and time of every symbol. *)
Definition getAllPrices (app : App) : gmap string (num * num * jsval) :=
  (fun data => (PriceData.price data, PriceData.priceChangePercent data,
                PriceData.lastUpdate data))
    <$> PriceMonitorService.getAllCryptoData (priceMonitorService app).

(** What the process does besides the two services. *)
Inductive ProcessEffect : Type :=
| removeAllListeners
| process_exit (code : Z).

(** [shutdown()] *)
Definition shutdown (app : App)
  : App * list WebSocketService.Effect * list ProcessEffect :=
  let '(_, ws', out) := WebSocketService.disconnect (webSocketService app) in
  ({| webSocketService := ws';
      priceMonitorService := priceMonitorService app;
      isRunning := false |},
   out, [removeAllListeners; process_exit 0]).

(** The outputs of the service for one event. *)
Record Output : Type := mkOutput {
  ws_out : list WebSocketService.Effect;
  monitor_out : list PriceMonitorService.Effect;
  process_out : list ProcessEffect
}.

(** The listeners of [_bindEventHandlers] run on the signals of an event,
    in order: ['priceUpdate'] updates the monitor,
    ['maxReconnectAttemptsReached'] shuts the service down (and nothing
    runs after the exit); the others only log. *)
Fixpoint dispatch (signals : list Signal) (app : App) : App * Output :=
  match signals with
  | [] => (app, mkOutput [] [] [])
  | priceUpdate cryptoData :: rest =>
      let '(pm', out) :=
        PriceMonitorService.updateCryptoData
          (PriceData.symbol cryptoData) cryptoData (priceMonitorService app) in
      let '(app', o) :=
        dispatch rest {| webSocketService := webSocketService app;
                         priceMonitorService := pm';
                         isRunning := isRunning app |} in
      (app', mkOutput (ws_out o) (out ++ monitor_out o) (process_out o))
  | maxReconnectAttemptsReached :: _ =>
      let '(app', out, pout) := shutdown app in
      (app', mkOutput out [] pout)
  | _ :: rest => dispatch rest app
  end.

(** An event of the socket, of a timer or a call on the socket service,
    followed by the listeners of the signals it emits. *)
Definition on_event (ev : WebSocketService.Event) (app : App) : App * Output :=
  let '(_, ws', out) := WebSocketService.step ev (webSocketService app) in
  let '(app', o) :=
    dispatch (WebSocketService.emitted out)
             {| webSocketService := ws';
                priceMonitorService := priceMonitorService app;
                isRunning := isRunning app |} in
  (app', mkOutput (out ++ ws_out o) (monitor_out o) (process_out o)).

(** Events in order, up to the exit of the process. *)
Fixpoint on_events (evs : list WebSocketService.Event) (app : App)
  : App * Output :=
  match evs with
  | [] => (app, mkOutput [] [] [])
  | ev :: rest =>
      let '(app1, o1) := on_event ev app in
      match process_out o1 with
      | [] =>
          let '(app2, o2) := on_events rest app1 in
          (app2, mkOutput (ws_out o1 ++ ws_out o2)
                          (monitor_out o1 ++ monitor_out o2)
                          (process_out o2))
      | _ :: _ => (app1, o1)
      end
  end.

(** The loop of [_subscribeDefaultSymbols] over the configured symbols:
    each one is passed to [subscribe], whose result is only logged. *)
Definition subscribe_symbols (symbols : list string) (app : App)
  : App * list WebSocketService.Effect :=
  let r := WebSocketService.run
             (map WebSocketService.call_subscribe symbols)
             (webSocketService app) in
  ({| webSocketService := WebSocketService.state_of r;
      priceMonitorService := priceMonitorService app;
      isRunning := isRunning app |},
   WebSocketService.output_of r).

(** [_subscribeDefaultSymbols()] *)
Definition _subscribeDefaultSymbols (app : App)
  : App * list WebSocketService.Effect :=
  subscribe_symbols config.symbols.default app.

(** [init()] from the point where the promise of [connect] has resolved
    (the socket has just opened): the default symbols are subscribed and
    the service is marked as running. *)
Definition init_resume (app : App) : App * list WebSocketService.Effect :=
  let '(app', out) := _subscribeDefaultSymbols app in
  ({| webSocketService := webSocketService app';
      priceMonitorService := priceMonitorService app';
      isRunning := true |},
   out).

End CryptoMonitorService.

(* ===================================================================== *)
(** * Properties                                                           *)
(* ===================================================================== *)

(** ** Numbers *)

Section NumFacts.

Lemma Qltb_true (a b : Q) : Qltb a b = true <-> (a < b)%Q.
Proof.
  unfold Qltb. rewrite Qlt_alt. destruct (a ?= b)%Q; split; congruence.
Qed.

Lemma Qleb_true (a b : Q) : Qleb a b = true <-> (a <= b)%Q.
Proof.
  unfold Qleb. rewrite Qle_alt. destruct (a ?= b)%Q; split; congruence.
Qed.

Lemma Qltb_false (a b : Q) : Qltb a b = false <-> (b <= a)%Q.
Proof.
  rewrite <- not_true_iff_false, Qltb_true. split.
  - apply Qnot_lt_le.
  - apply Qle_not_lt.
Qed.

Lemma Qleb_false (a b : Q) : Qleb a b = false <-> (b < a)%Q.
Proof.
  rewrite <- not_true_iff_false, Qleb_true. split.
  - apply Qnot_le_lt.
  - apply Qlt_not_le.
Qed.




(** The two factors of a rebase. *)
Lemma one_minus_threshold :
  sub (ofZ 1) config.alerts.priceChangeThreshold = Fin (99 # 100).
Proof. reflexivity. Qed.

Lemma one_plus_threshold :
  add (ofZ 1) config.alerts.priceChangeThreshold = Fin (101 # 100).
Proof. reflexivity. Qed.

End NumFacts.

(** ** Threshold tracker *)

Section Tracker.

Import PriceMonitorService.

(** The entry written by a rebase, with the factors evaluated. *)
Lemma rebased_eq (price : num) :
  rebased price =
  {| Thresholds.min := mul price (Fin (99 # 100));
     Thresholds.max := mul price (Fin (101 # 100)) |}.
Proof. reflexivity. Qed.

(** A rebase around a price that is at least zero gives [min <= max]. *)
Lemma rebased_band_ok (price : num) :
  ge price (ofZ 0) = true -> band_ok (rebased price) = true.
Proof.
  rewrite rebased_eq. unfold band_ok, ge. simpl.
  destruct price as [| | |q]; simpl; try congruence.
  rewrite Qleb_true. intros Hq. unfold fin. rewrite Qleb_true.
  rewrite !Qred_correct. unfold inject_Z in Hq. lra.
Qed.

(** What [_handlePriceExceeded] returns, written out. *)
Lemma handlePriceExceeded_result symbol data type threshold st :
  let price := PriceData.price data in
  let st' := {| cryptoData := cryptoData st;
                priceThresholds := <[symbol := rebased price]> (priceThresholds st);
                notificationService := notificationService st |} in
  exists message,
    _generateAlertMessage symbol data type threshold st' = Some message /\
    _handlePriceExceeded symbol data type threshold st =
      (st',
       [log_thresholds symbol (rebased price);
        if NotificationService.is_duplicate (Some (alert_key symbol type))
             (notificationService st)
        then log_duplicate (alert_key symbol type)
        else request message (alert_key symbol type);
        log_alert message]).
Proof.
  intros price st'. unfold _handlePriceExceeded, _updateThresholds.
  fold price. fold st'.
  unfold _generateAlertMessage. subst st'. cbn [priceThresholds].
  rewrite lookup_insert_eq. cbn [mbind option_bind].
  eexists. split; [reflexivity|].
  cbn [notificationService].
  destruct (NotificationService.is_duplicate _ _); reflexivity.
Qed.


(** [updateCryptoData] when neither comparison holds. *)
Lemma updateCryptoData_inside symbol data thresholds st :
  priceThresholds st !! symbol = Some thresholds ->
  gt (PriceData.price data) (Thresholds.max thresholds) = false ->
  lt (PriceData.price data) (Thresholds.min thresholds) = false ->
  updateCryptoData symbol data st =
    (stored symbol data st, _logPriceChange symbol data (cryptoData st !! symbol)).
Proof.
  intros Hband Hmax Hmin. unfold updateCryptoData, _checkPriceThresholds.
  cbn [priceThresholds]. rewrite Hband. cbn zeta. rewrite Hmax, Hmin.
  reflexivity.
Qed.

Lemma logPriceChange_requests symbol data previousData :
  requests (_logPriceChange symbol data previousData) = [].
Proof.
  unfold _logPriceChange. destruct previousData as [previous|]; [|reflexivity].
  destruct (ge _ _); reflexivity.
Qed.

Lemma requests_app out1 out2 :
  requests (out1 ++ out2) = requests out1 ++ requests out2.
Proof. apply flat_map_app. Qed.

Lemma alerts_logged_app out1 out2 :
  alerts_logged (out1 ++ out2) = alerts_logged out1 ++ alerts_logged out2.
Proof. apply flat_map_app. Qed.

(** [updateCryptoData] for a symbol that has no entry. *)
Lemma update_without_thresholds symbol data st :
  priceThresholds st !! symbol = None ->
  updateCryptoData symbol data st =
    (stored symbol data st,
     no_entry_output symbol st
     ++ _logPriceChange symbol data (cryptoData st !! symbol)).
Proof.
  intros Hnone. unfold updateCryptoData, _checkPriceThresholds, no_entry_output.
  cbn [priceThresholds]. rewrite Hnone.
  destruct (truthy_property _); reflexivity.
Qed.

Lemma no_entry_output_alerts symbol st :
  alerts_logged (no_entry_output symbol st) = [].
Proof. unfold no_entry_output. destruct (truthy_property _); reflexivity. Qed.

(** [updateCryptoData] when one of the two comparisons fires. *)
Lemma updateCryptoData_exceeded symbol data thresholds st type threshold :
  priceThresholds st !! symbol = Some thresholds ->
  match type with
  | type_max =>
      gt (PriceData.price data) (Thresholds.max thresholds) = true /\
      threshold = Thresholds.max thresholds
  | type_min =>
      gt (PriceData.price data) (Thresholds.max thresholds) = false /\
      lt (PriceData.price data) (Thresholds.min thresholds) = true /\
      threshold = Thresholds.min thresholds
  end ->
  let price := PriceData.price data in
  let r := updateCryptoData symbol data st in
  exists message,
    _generateAlertMessage symbol data type threshold r.1 = Some message /\
    r.2 = [log_thresholds symbol (rebased price);
           if NotificationService.is_duplicate (Some (alert_key symbol type))
                (notificationService st)
           then log_duplicate (alert_key symbol type)
           else request message (alert_key symbol type);
           log_alert message]
          ++ _logPriceChange symbol data (cryptoData st !! symbol) /\
    cryptoData r.1 = <[symbol := data]> (cryptoData st) /\
    priceThresholds r.1 = <[symbol := rebased price]> (priceThresholds st) /\
    notificationService r.1 = notificationService st.
Proof.
  intros Hband Htype price r.
  destruct (handlePriceExceeded_result symbol data type threshold
              (stored symbol data st)) as (message & Hmsg & Hres).
  assert (Hr : r = ((_handlePriceExceeded symbol data type threshold
                       (stored symbol data st)).1,
                    (_handlePriceExceeded symbol data type threshold
                       (stored symbol data st)).2
                    ++ _logPriceChange symbol data (cryptoData st !! symbol))).
  { subst r. unfold updateCryptoData, _checkPriceThresholds.
    cbn [priceThresholds]. rewrite Hband. cbn zeta. fold (stored symbol data st).
    destruct type.
    - destruct Htype as [-> ->].
      destruct (_handlePriceExceeded _ _ _ _ _); reflexivity.
    - destruct Htype as (-> & -> & ->).
      destruct (_handlePriceExceeded _ _ _ _ _); reflexivity. }
  rewrite Hres in Hr. cbn [fst snd] in Hr. rewrite Hr. cbn [fst snd].
  exists message. repeat split; try reflexivity. exact Hmsg.
Qed.




(** *** The band invariant *)

Lemma bands_ok_init : bands_ok init.
Proof.
  intros symbol t H. unfold init in H. cbn [priceThresholds] in H.
  apply elem_of_list_to_map_2 in H. unfold config.symbols.thresholds in H.
  repeat (apply elem_of_cons in H as [H | H];
          [injection H as _ ->; reflexivity|]).
  apply elem_of_nil in H. destruct H.
Qed.

Lemma bands_ok_insert symbol t (st st' : State) :
  bands_ok st ->
  priceThresholds st' = <[symbol := t]> (priceThresholds st) ->
  (bands_ok st' <-> band_ok t = true).
Proof.
  intros Hst Heq. split.
  - intros Hst'. apply (Hst' symbol). rewrite Heq. apply lookup_insert_eq.
  - intros Ht s u. rewrite Heq, lookup_insert. case_decide.
    + intros [= <-]. exact Ht.
    + apply Hst.
Qed.

Lemma priceThresholds_update symbol data st :
  priceThresholds (updateCryptoData symbol data st).1 = priceThresholds st \/
  priceThresholds (updateCryptoData symbol data st).1 =
    <[symbol := rebased (PriceData.price data)]> (priceThresholds st).
Proof.
  destruct (priceThresholds st !! symbol) as [thresholds|] eqn:Hband.
  - destruct (gt (PriceData.price data) (Thresholds.max thresholds)) eqn:Hmax;
      [|destruct (lt (PriceData.price data) (Thresholds.min thresholds)) eqn:Hmin].
    + destruct (updateCryptoData_exceeded symbol data thresholds st type_max
                  (Thresholds.max thresholds) Hband (conj Hmax eq_refl))
        as (_ & _ & _ & _ & H & _). right. exact H.
    + destruct (updateCryptoData_exceeded symbol data thresholds st type_min
                  (Thresholds.min thresholds) Hband
                  (conj Hmax (conj Hmin eq_refl)))
        as (_ & _ & _ & _ & H & _). right. exact H.
    + left. rewrite (updateCryptoData_inside symbol data thresholds st Hband Hmax Hmin).
      reflexivity.
  - left. rewrite (update_without_thresholds symbol data st Hband). reflexivity.
Qed.

Lemma bands_ok_update symbol data st :
  bands_ok st ->
  ge (PriceData.price data) (ofZ 0) = true ->
  bands_ok (updateCryptoData symbol data st).1.
Proof.
  intros Hst Hprice.
  destruct (priceThresholds_update symbol data st) as [Heq | Heq].
  - intros s t. rewrite Heq. apply Hst.
  - apply (bands_ok_insert symbol _ st _ Hst Heq).
    apply rebased_band_ok. exact Hprice.
Qed.

(** C8 (as stated, refuted). [setThresholds] stores its arguments as they
    come: from the start state, whose bands all have [min <= max], the call
    [setThresholds('BTCUSDT', 10, 5)] leaves a band with [min > max]. *)
Lemma C8_setThresholds_breaks_invariant :
  bands_ok init /\
  getThresholds "BTCUSDT" (setThresholds "BTCUSDT" (ofZ 10) (ofZ 5) init)
    = Some (own (Thresholds.mk (ofZ 10) (ofZ 5))) /\
  ~ bands_ok (setThresholds "BTCUSDT" (ofZ 10) (ofZ 5) init).
Proof.
  split; [exact bands_ok_init|]. split.
  - unfold getThresholds, read_key, setThresholds. cbn [priceThresholds].
    rewrite lookup_insert_eq. reflexivity.
  - intros H.
    specialize (H "BTCUSDT" (Thresholds.mk (ofZ 10) (ofZ 5))).
    unfold setThresholds in H. cbn [priceThresholds] in H.
    rewrite lookup_insert_eq in H. specialize (H eq_refl).
    vm_compute in H. discriminate H.
Qed.

(** C8 (amended). Every band of the start configuration has [min <= max];
    a price update whose price is at least zero keeps that for every
    symbol (the rebase writes [price * 0.99 <= price * 1.01]);
    [setThresholds] keeps it exactly when it is called with [min <= max];
    hence every state reached by such updates and such calls has
    [min <= max] in every band. *)
Theorem C8_band_invariant :
  bands_ok init /\
  (forall symbol data st,
     bands_ok st ->
     ge (PriceData.price data) (ofZ 0) = true ->
     bands_ok (updateCryptoData symbol data st).1) /\
  (forall symbol min max st,
     bands_ok st ->
     (bands_ok (setThresholds symbol min max st) <-> le min max = true)) /\
  (forall st, reachable st -> bands_ok st).
Proof.
  split; [exact bands_ok_init|]. split; [exact bands_ok_update|].
  assert (Hset : forall symbol min max st,
             bands_ok st ->
             (bands_ok (setThresholds symbol min max st) <-> le min max = true)).
  { intros symbol mn mx st Hst.
    apply (bands_ok_insert symbol (Thresholds.mk mn mx) st _ Hst). reflexivity. }
  split; [exact Hset|].
  intros st Hreach. induction Hreach as
    [| now st _ IH | now st _ IH
     | symbol data st _ IH Hprice | symbol mn mx st _ IH Hle
     | alertKey outcome now st _ IH].
  - exact bands_ok_init.
  - exact IH.
  - exact IH.
  - apply bands_ok_update; assumption.
  - apply Hset; assumption.
  - exact IH.
Qed.

Lemma C8_witness_reached_state :
  reachable (updateCryptoData "BTCUSDT" (tick "BTCUSDT" 111 100) btc_100_110).1 /\
  bands_ok (updateCryptoData "BTCUSDT" (tick "BTCUSDT" 111 100) btc_100_110).1.
Proof.
  assert (H : reachable
                (updateCryptoData "BTCUSDT" (tick "BTCUSDT" 111 100) btc_100_110).1).
  { apply reach_update; [|vm_compute; reflexivity].
    apply reach_setThresholds; [apply reach_init|vm_compute; reflexivity]. }
  split; [exact H|].
  destruct C8_band_invariant as (_ & _ & _ & Hinv). apply Hinv. exact H.
Defined.

(** *** The percent change of an alert *)

Lemma generateAlertMessage_percent symbol data type threshold st message :
  _generateAlertMessage symbol data type threshold st = Some message ->
  percent_shown message = [PriceData.priceChangePercent data].
Proof.
  unfold _generateAlertMessage.
  destruct (priceThresholds st !! symbol) as [t|]; [|discriminate].
  cbn [mbind option_bind]. intros [= <-]. reflexivity.
Qed.

Lemma logPriceChange_alerts symbol data previousData :
  alerts_logged (_logPriceChange symbol data previousData) = [].
Proof.
  unfold _logPriceChange. destruct previousData as [previous|]; [|reflexivity].
  destruct (ge _ _); reflexivity.
Qed.

(** The alerts of one update: none, or the one message generated from the
    tick itself. *)
Lemma alerts_of_update symbol data st :
  alerts_logged (updateCryptoData symbol data st).2 = [] \/
  exists type threshold message,
    _generateAlertMessage symbol data type threshold
      (updateCryptoData symbol data st).1 = Some message /\
    alerts_logged (updateCryptoData symbol data st).2 = [message].
Proof.
  destruct (priceThresholds st !! symbol) as [thresholds|] eqn:Hband.
  - destruct (gt (PriceData.price data) (Thresholds.max thresholds)) eqn:Hmax;
      [|destruct (lt (PriceData.price data) (Thresholds.min thresholds)) eqn:Hmin].
    + destruct (updateCryptoData_exceeded symbol data thresholds st type_max
                  (Thresholds.max thresholds) Hband (conj Hmax eq_refl))
        as (message & Hmsg & Hout & _).
      right. exists type_max, (Thresholds.max thresholds), message.
      split; [exact Hmsg|]. rewrite Hout. unfold alerts_logged.
      rewrite flat_map_app. fold (alerts_logged (_logPriceChange symbol data
                                                  (cryptoData st !! symbol))).
      rewrite logPriceChange_alerts. cbn [flat_map].
      destruct (NotificationService.is_duplicate _ _); reflexivity.
    + destruct (updateCryptoData_exceeded symbol data thresholds st type_min
                  (Thresholds.min thresholds) Hband
                  (conj Hmax (conj Hmin eq_refl)))
        as (message & Hmsg & Hout & _).
      right. exists type_min, (Thresholds.min thresholds), message.
      split; [exact Hmsg|]. rewrite Hout. unfold alerts_logged.
      rewrite flat_map_app. fold (alerts_logged (_logPriceChange symbol data
                                                  (cryptoData st !! symbol))).
      rewrite logPriceChange_alerts. cbn [flat_map].
      destruct (NotificationService.is_duplicate _ _); reflexivity.
    + left.
      rewrite (updateCryptoData_inside symbol data thresholds st Hband Hmax Hmin).
      apply logPriceChange_alerts.
  - left. rewrite (update_without_thresholds symbol data st Hband). cbn [snd].
    unfold alerts_logged. rewrite flat_map_app.
    fold (alerts_logged (no_entry_output symbol st)).
    fold (alerts_logged (_logPriceChange symbol data (cryptoData st !! symbol))).
    rewrite no_entry_output_alerts, logPriceChange_alerts. reflexivity.
Qed.

End Tracker.

(** ** Strings *)

Section StringFacts.

Import JsString.

Lemma length_append (s1 s2 : string) :
  String.length (String.append s1 s2) = (String.length s1 + String.length s2)%nat.
Proof.
  induction s1 as [|c s1 IH]; [reflexivity|].
  change (S (String.length (String.append s1 s2))
          = S (String.length s1 + String.length s2)%nat).
  rewrite IH. reflexivity.
Qed.


Lemma append_empty_r (s : string) : String.append s EmptyString = s.
Proof.
  induction s as [|c s IH]; [reflexivity|].
  change (String c (String.append s EmptyString) = String c s).
  rewrite IH. reflexivity.
Qed.

Lemma drop_append (s x : string) : drop (String.length s) (String.append s x) = x.
Proof. induction s as [|c s IH]; [reflexivity | exact IH]. Qed.

Lemma startsWith_append (p x : string) : startsWith p (String.append p x) = true.
Proof.
  induction p as [|c p IH]; [destruct x; reflexivity|].
  change (Ascii.eqb c c && startsWith p (String.append p x) = true).
  rewrite Ascii.eqb_refl, IH. reflexivity.
Qed.

Lemma endsWith_append (s x : string) : endsWith (String.append s x) x = true.
Proof.
  unfold endsWith. rewrite length_append.
  replace (String.length s + String.length x - String.length x)%nat
    with (String.length s) by lia.
  rewrite drop_append, String.eqb_refl, andb_true_r.
  apply Nat.leb_le. lia.
Qed.

Lemma replace_unfold (pat rep s : string) :
  replace pat rep s =
    if startsWith pat s then String.append rep (drop (String.length pat) s)
    else match s with
         | EmptyString => EmptyString
         | String c s' => String c (replace pat rep s')
         end.
Proof. destruct s; reflexivity. Qed.

(** [replace] removes the occurrence of [pat] that follows [base] when
    [pat] does not occur earlier. *)
Lemma replace_first_occurrence (pat base tail : string) :
  (forall i, (i < String.length base)%nat ->
     startsWith pat (drop i (String.append base (String.append pat tail))) = false) ->
  replace pat EmptyString (String.append base (String.append pat tail))
    = String.append base tail.
Proof.
  induction base as [|c base IH]; intros Hearly.
  - change (replace pat EmptyString (String.append pat tail) = tail).
    rewrite replace_unfold, startsWith_append, drop_append. reflexivity.
  - change (replace pat EmptyString
              (String c (String.append base (String.append pat tail)))
            = String c (String.append base tail)).
    rewrite replace_unfold.
    pose proof (Hearly O (Nat.lt_0_succ _)) as H0.
    change (startsWith pat
              (String c (String.append base (String.append pat tail))) = false)
      in H0.
    rewrite H0. f_equal. apply IH. intros i Hi.
    apply (Hearly (S i)). cbn [String.length]. lia.
Qed.

(** A capital letter is not the separator. *)
Lemma replace_separator (base tail : string) :
  all isUpper base = true ->
  replace "-" EmptyString (String.append base (String.append "-" tail))
    = String.append base tail.
Proof.
  intros Hupper. apply replace_first_occurrence.
  revert Hupper. induction base as [|c base IH]; intros Hupper i Hi.
  - cbn [String.length] in Hi. lia.
  - change (isUpper c && all isUpper base = true) in Hupper.
    apply andb_true_iff in Hupper as [Hc Hbase].
    destruct i as [|i].
    + change (Ascii.eqb "-" c && true = false).
      rewrite andb_true_r. apply Ascii.eqb_neq. intros <-. discriminate Hc.
    + apply (IH Hbase i). cbn [String.length] in Hi. lia.
Qed.

End StringFacts.

(** ** Ticker parser *)

Section Parser.

Import WebSocketCodec JsParse.

(** What [_parsePriceData] returns on an object whose [instId] is a
    string. *)
Lemma parsePriceData_string_instId (o : TickerItem.t) (id : string) :
  TickerItem.instId o = JStr id ->
  _parsePriceData (Some o) =
    let last := parseFloat (TickerItem.last o) in
    let open24h := parseFloat (TickerItem.open24h o) in
    if isNaN last || isNaN open24h then None
    else Some {|
      PriceData.symbol := _convertOKXSymbolBack id;
      PriceData.price := last;
      PriceData.priceChange := sub last open24h;
      PriceData.priceChangePercent :=
        mul (div (sub last open24h) open24h) (ofZ 100);
      PriceData.volume := or_zero (parseFloat (TickerItem.vol24h o));
      PriceData.high24h := or_zero (parseFloat (TickerItem.high24h o));
      PriceData.low24h := or_zero (parseFloat (TickerItem.low24h o));
      PriceData.lastUpdate := TickerItem.ts o
    |}.
Proof.
  intros Hid. unfold _parsePriceData, item_object. cbn [mbind exc_mbind exc_bind].
  rewrite Hid. cbn [_convertOKXSymbolBack_of exc_bind]. cbv zeta.
  destruct (isNaN _ || isNaN _); reflexivity.
Qed.

(** Whatever the item, a parsed tick carries the 24h change. *)
Lemma parsePriceData_percent item d :
  _parsePriceData item = Some d ->
  exists o,
    item = Some o /\
    PriceData.price d = parseFloat (TickerItem.last o) /\
    PriceData.priceChangePercent d =
      mul (div (sub (parseFloat (TickerItem.last o))
                    (parseFloat (TickerItem.open24h o)))
               (parseFloat (TickerItem.open24h o)))
          (ofZ 100).
Proof.
  destruct item as [o|]; [|discriminate]. intros H. exists o.
  split; [reflexivity|].
  destruct (TickerItem.instId o) as [| | b | n | id] eqn:Hid;
    try (unfold _parsePriceData, item_object in H;
         cbn [mbind exc_mbind exc_bind] in H; rewrite Hid in H; discriminate H).
  rewrite (parsePriceData_string_instId o id Hid) in H. cbv zeta in H.
  destruct (isNaN _ || isNaN _); [discriminate|].
  injection H as <-. split; reflexivity.
Qed.

End Parser.

Section ParserClaims.

Import WebSocketCodec JsParse.

(** An item one of whose two price fields reads as [NaN] is dropped,
    whatever its other fields. *)
Lemma parsePriceData_NaN (o : TickerItem.t) :
  isNaN (parseFloat (TickerItem.last o)) = true \/
  isNaN (parseFloat (TickerItem.open24h o)) = true ->
  _parsePriceData (Some o) = None.
Proof.
  intros H.
  destruct (TickerItem.instId o) as [| | b | n | id] eqn:Hid;
    try (unfold _parsePriceData, item_object;
         cbn [mbind exc_mbind exc_bind]; rewrite Hid; reflexivity).
  rewrite (parsePriceData_string_instId o id Hid). cbv zeta.
  destruct H as [-> | ->]; [reflexivity | rewrite orb_true_r; reflexivity].
Qed.

(** [_handleMessage] returns normally on every frame that is not [null]. *)
Lemma handleMessage_returns (frame : Frame.t) :
  exists signals, _handleMessage (Some frame) = Ok signals.
Proof.
  unfold _handleMessage.
  destruct (is_str (Frame.event frame) "subscribe"); [eauto|].
  destruct (is_str (Frame.event frame) "error"); [eauto|].
  destruct (Frame.data frame) as [items|]; [|eauto].
  destruct (is_str (Frame.arg_channel frame) "tickers"); eauto.
Qed.

(** An item that parses to [null] adds nothing to what a frame emits. *)
Lemma handleMessage_skips event msg channel id before item after :
  _parsePriceData item = None ->
  _handleMessage
    (Some (Frame.mk event msg channel id (Some (before ++ item :: after)))) =
  _handleMessage
    (Some (Frame.mk event msg channel id (Some (before ++ after)))).
Proof.
  intros Hnull. unfold _handleMessage. cbn [Frame.event Frame.data Frame.arg_channel].
  destruct (is_str event "subscribe"); [reflexivity|].
  destruct (is_str event "error"); [reflexivity|].
  destruct (is_str channel "tickers"); [|reflexivity].
  rewrite !flat_map_app. cbn [flat_map]. rewrite Hnull. reflexivity.
Qed.

(** C6 (as stated, refuted). The item
    [{ instId: 'BTC-USDT', last: 'Infinity', open24h: '100' }] has a [last]
    that does not parse as a finite number, yet the parser returns a tick
    (price [Infinity]), the frame emits a [priceUpdate] and the stored
    price of [BTCUSDT] changes. *)
Lemma C6_infinite_price_is_not_dropped :
  let o := TickerItem.mk (JStr "BTC-USDT") (JStr "Infinity") (JStr "100")
             JUndefined JUndefined JUndefined JUndefined in
  let frame := Frame.mk JUndefined JUndefined (JStr "tickers") (JStr "BTC-USDT")
                 (Some [Some o]) in
  isFinite (parseFloat (TickerItem.last o)) = false /\
  (exists d, _parsePriceData (Some o) = Some d /\ PriceData.price d = PInf /\
             on_message (Decoded (Some frame)) = [priceUpdate d]) /\
  PriceMonitorService.getCryptoData "BTCUSDT" PriceMonitorService.init = None /\
  PriceData.price <$>
    PriceMonitorService.getCryptoData "BTCUSDT"
      (CryptoMonitorService.on_raw_message (Decoded (Some frame))
         PriceMonitorService.init).1 = Some PInf.
Proof.
  cbv zeta. split; [reflexivity|]. split.
  - eexists. split; [vm_compute; reflexivity|]. split; reflexivity.
  - split; vm_compute; reflexivity.
Qed.

(** C6 (amended). An item whose [last] or [open24h] reads as [NaN] (no
    number can be parsed from it) is dropped: the parser returns [null], the
    frame emits exactly what it would emit without the item, the monitor
    ends in the same state with the same output as without it (so a frame
    made of that item alone changes nothing), and frame handling returns
    normally. *)
Theorem C6_unparsable_price_is_dropped (o : TickerItem.t) :
  isNaN (parseFloat (TickerItem.last o)) = true \/
  isNaN (parseFloat (TickerItem.open24h o)) = true ->
  _parsePriceData (Some o) = None /\
  (forall event msg channel id before after,
     let with_item :=
       Frame.mk event msg channel id (Some (before ++ Some o :: after)) in
     let without_item :=
       Frame.mk event msg channel id (Some (before ++ after)) in
     _handleMessage (Some with_item) = _handleMessage (Some without_item) /\
     (exists signals, _handleMessage (Some with_item) = Ok signals) /\
     on_message (Decoded (Some with_item)) =
       on_message (Decoded (Some without_item)) /\
     forall st,
       CryptoMonitorService.on_raw_message (Decoded (Some with_item)) st =
       CryptoMonitorService.on_raw_message (Decoded (Some without_item)) st) /\
  (forall event msg channel id st,
     CryptoMonitorService.on_raw_message
       (Decoded (Some (Frame.mk event msg channel id (Some [Some o])))) st
     = (st, [])).
Proof.
  intros Hnan. pose proof (parsePriceData_NaN o Hnan) as Hnull.
  split; [exact Hnull|]. split.
  - intros event msg channel id before after with_item without_item.
    pose proof (handleMessage_skips event msg channel id before (Some o) after
                  Hnull) as Heq.
    fold with_item without_item in Heq.
    split; [exact Heq|]. split; [apply handleMessage_returns|].
    assert (Hmsg : on_message (Decoded (Some with_item)) =
                   on_message (Decoded (Some without_item))).
    { unfold on_message. cbn [mbind exc_mbind exc_bind]. rewrite Heq.
      reflexivity. }
    split; [exact Hmsg|]. intros st.
    unfold CryptoMonitorService.on_raw_message. rewrite Hmsg. reflexivity.
  - intros event msg channel id st.
    unfold CryptoMonitorService.on_raw_message, on_message, _handleMessage.
    cbn [mbind exc_mbind exc_bind Frame.event Frame.data Frame.arg_channel].
    destruct (is_str event "subscribe"); [reflexivity|].
    destruct (is_str event "error"); [reflexivity|].
    destruct (is_str channel "tickers"); [|reflexivity].
    cbn [flat_map]. rewrite Hnull. reflexivity.
Qed.

Lemma C6_witness_last_is_not_a_number :
  let o := TickerItem.mk (JStr "BTC-USDT") (JStr "n/a") (JStr "100")
             (JStr "1") (JStr "2") (JStr "3") (JStr "1700000000000") in
  isNaN (parseFloat (TickerItem.last o)) = true /\
  _parsePriceData (Some o) = None.
Proof.
  cbv zeta. split; [vm_compute; reflexivity|].
  refine (proj1 (C6_unparsable_price_is_dropped _ _)).
  left. vm_compute. reflexivity.
Defined.

(** [parseFloat] drops nothing that the other numeric fields could bring
    back: the drop decision reads [instId], [last] and [open24h] only. *)
Lemma parsePriceData_drop_independent (o o' : TickerItem.t) :
  TickerItem.instId o = TickerItem.instId o' ->
  TickerItem.last o = TickerItem.last o' ->
  TickerItem.open24h o = TickerItem.open24h o' ->
  (_parsePriceData (Some o) = None <-> _parsePriceData (Some o') = None).
Proof.
  intros Hid Hlast Hopen.
  destruct (TickerItem.instId o) as [| | b | n | id] eqn:Hio;
    try (split; intros _; unfold _parsePriceData, item_object;
         cbn [mbind exc_mbind exc_bind]; rewrite <- ?Hid, ?Hio; reflexivity).
  rewrite (parsePriceData_string_instId o id Hio).
  rewrite (parsePriceData_string_instId o' id (eq_sym Hid)). cbv zeta.
  rewrite <- Hlast, <- Hopen.
  destruct (isNaN _ || isNaN _); split; intros H; try reflexivity;
    discriminate H.
Qed.

(** C10 (as stated, refuted).  [last] and [open24h] are not the only
    fields that gate an item: [instId] does too.  An item whose seven
    fields but [instId] are decimal numbers is dropped when [instId] is
    missing, and when it is a number (the call [okxSymbol.replace] throws
    and the [catch] returns [null]). *)
Lemma C10_item_without_instId_is_dropped :
  let missing := TickerItem.mk JUndefined (JStr "2500.5") (JStr "2400")
                   (JStr "10") (JStr "2600") (JStr "2300")
                   (JStr "1700000000000") in
  let numeric := TickerItem.mk (JNum (ofZ 7)) (JStr "2500.5") (JStr "2400")
                   (JStr "10") (JStr "2600") (JStr "2300")
                   (JStr "1700000000000") in
  isFinite (parseFloat (TickerItem.last missing)) = true /\
  isFinite (parseFloat (TickerItem.open24h missing)) = true /\
  _parsePriceData (Some missing) = None /\
  _parsePriceData (Some numeric) = None /\
  on_message
    (Decoded (Some (Frame.mk JUndefined JUndefined (JStr "tickers")
                      (JStr "ETH-USDT") (Some [Some missing])))) = [].
Proof. cbv zeta. repeat split; vm_compute; reflexivity. Qed.

(** C10 (amended).  For an item whose [last] and [open24h] parse as finite
    numbers, the parser returns a tick exactly when [instId] is a string.
    [vol24h], [high24h] and [low24h] never gate: with a string [instId]
    the tick is returned whatever they hold, each of the three that does
    not parse as a number being reported as [0] (and otherwise as its
    parsed value, [0] included); and for any [instId], whether the item
    is dropped does not depend on those three fields. *)
Theorem C10_volume_high_low_do_not_gate (o : TickerItem.t) :
  isFinite (parseFloat (TickerItem.last o)) = true ->
  isFinite (parseFloat (TickerItem.open24h o)) = true ->
  (is_Some (_parsePriceData (Some o)) <->
   exists id, TickerItem.instId o = JStr id) /\
  (forall id,
     TickerItem.instId o = JStr id ->
     (exists d,
        _parsePriceData (Some o) = Some d /\
        PriceData.price d = parseFloat (TickerItem.last o) /\
        PriceData.volume d = or_zero (parseFloat (TickerItem.vol24h o)) /\
        PriceData.high24h d = or_zero (parseFloat (TickerItem.high24h o)) /\
        PriceData.low24h d = or_zero (parseFloat (TickerItem.low24h o)) /\
        (isNaN (parseFloat (TickerItem.vol24h o)) = true ->
         PriceData.volume d = ofZ 0) /\
        (isNaN (parseFloat (TickerItem.high24h o)) = true ->
         PriceData.high24h d = ofZ 0) /\
        (isNaN (parseFloat (TickerItem.low24h o)) = true ->
         PriceData.low24h d = ofZ 0)) /\
     (forall vol high low,
        _parsePriceData
          (Some (TickerItem.mk (TickerItem.instId o) (TickerItem.last o)
                   (TickerItem.open24h o) vol high low (TickerItem.ts o)))
        <> None)) /\
  (forall vol high low,
     _parsePriceData
       (Some (TickerItem.mk (TickerItem.instId o) (TickerItem.last o)
                (TickerItem.open24h o) vol high low (TickerItem.ts o))) = None
     <-> _parsePriceData (Some o) = None).
Proof.
  intros Hlast Hopen.
  assert (Hn : isNaN (parseFloat (TickerItem.last o))
               || isNaN (parseFloat (TickerItem.open24h o)) = false).
  { destruct (parseFloat (TickerItem.last o)); try discriminate.
    destruct (parseFloat (TickerItem.open24h o)); try discriminate.
    reflexivity. }
  split; [|split].
  - split.
    + intros [d H].
      destruct (TickerItem.instId o) as [| | b | n | id] eqn:Hid;
        try (unfold _parsePriceData, item_object in H;
             cbn [mbind exc_mbind exc_bind] in H; rewrite Hid in H;
             discriminate H).
      exists id. reflexivity.
    + intros [id Hid]. rewrite (parsePriceData_string_instId o id Hid).
      cbv zeta. rewrite Hn. eauto.
  - intros id Hid. split.
    + rewrite (parsePriceData_string_instId o id Hid). cbv zeta. rewrite Hn.
      eexists. split; [reflexivity|].
      cbn [PriceData.price PriceData.volume PriceData.high24h PriceData.low24h].
      repeat split; try reflexivity; intros H;
        match goal with
        | |- or_zero ?x = _ => destruct x; try discriminate H; reflexivity
        end.
    + intros vol high low.
      rewrite (parsePriceData_string_instId
                 (TickerItem.mk (TickerItem.instId o) (TickerItem.last o)
                    (TickerItem.open24h o) vol high low (TickerItem.ts o))
                 id Hid).
      cbv zeta. cbn [TickerItem.last TickerItem.open24h]. rewrite Hn.
      discriminate.
  - intros vol high low. apply parsePriceData_drop_independent; reflexivity.
Qed.

Lemma C10_witness_volume_is_text :
  let o := TickerItem.mk (JStr "ETH-USDT") (JStr "2500.5") (JStr "2400")
             (JStr "n/a") JUndefined JNull (JStr "1700000000000") in
  exists d,
    _parsePriceData (Some o) = Some d /\
    PriceData.price d = Fin (5001 # 2) /\
    PriceData.volume d = ofZ 0 /\
    PriceData.high24h d = ofZ 0 /\
    PriceData.low24h d = ofZ 0.
Proof.
  cbv zeta.
  destruct (C10_volume_high_low_do_not_gate
              (TickerItem.mk (JStr "ETH-USDT") (JStr "2500.5") (JStr "2400")
                 (JStr "n/a") JUndefined JNull (JStr "1700000000000"))
              eq_refl eq_refl)
    as (_ & H & _).
  destruct (H "ETH-USDT" eq_refl)
    as [(d & Hd & Hprice & _ & _ & _ & Hvol & Hhigh & Hlow) _].
  exists d. split; [exact Hd|]. split; [rewrite Hprice; vm_compute; reflexivity|].
  split; [apply Hvol; reflexivity|]. split; [apply Hhigh|apply Hlow]; reflexivity.
Defined.

(** C9 (the codec on a valid symbol that contains [USDT] twice).
    [AUSDTBUSDT] passes [isValidSymbol]; [_convertSymbolForOKX] removes the
    first [USDT] instead of the final one and returns [ABUSDT-USDT];
    converting back gives [ABUSDTUSDT], not the symbol. *)
Theorem C9_roundtrip_fails_on_AUSDTBUSDT :
  helpers.isValidSymbol (JStr "AUSDTBUSDT") = true /\
  _convertSymbolForOKX "AUSDTBUSDT" = "ABUSDT-USDT" /\
  _convertOKXSymbolBack (_convertSymbolForOKX "AUSDTBUSDT") = "ABUSDTUSDT" /\
  _convertOKXSymbolBack (_convertSymbolForOKX "AUSDTBUSDT") <> "AUSDTBUSDT".
Proof.
  split; [vm_compute; reflexivity|]. split; [vm_compute; reflexivity|].
  split; [vm_compute; reflexivity|]. vm_compute. discriminate.
Qed.

(** On the symbols of the configuration the codec does round-trip. *)
Lemma roundtrip_default_symbols :
  Forall (fun s => helpers.isValidSymbol (JStr s) = true /\
                   _convertOKXSymbolBack (_convertSymbolForOKX s) = s)
         config.symbols.default.
Proof. repeat constructor. Qed.

(** More generally the codec round-trips on [base ++ "USDT"] whenever
    [base] is made of capital letters and [USDT] occurs nowhere before the
    final position. *)
Lemma roundtrip_when_USDT_occurs_once (base : string) :
  JsString.all JsString.isUpper base = true ->
  (forall i, (i < String.length base)%nat ->
     JsString.startsWith "USDT"
       (JsString.drop i (String.append base "USDT")) = false) ->
  _convertOKXSymbolBack (_convertSymbolForOKX (String.append base "USDT"))
    = String.append base "USDT".
Proof.
  intros Hupper Hearly. unfold _convertSymbolForOKX, _convertOKXSymbolBack.
  rewrite endsWith_append.
  pose proof (replace_first_occurrence "USDT" base EmptyString Hearly) as Hrep.
  change (String.append "USDT" EmptyString) with "USDT" in Hrep.
  rewrite Hrep, append_empty_r.
  exact (replace_separator base "USDT" Hupper).
Qed.

End ParserClaims.

(** ** Feed connection *)

Section Connection.

Import WebSocketService.

(** [_attemptReconnect] below the cap: the counter goes up by one and one
    reconnect is scheduled after [reconnectDelay * counter]. *)
Lemma attemptReconnect_below (st : State) :
  reconnectAttempts st < config.websocket.reconnectAttempts ->
  _attemptReconnect st =
    (tt,
     {| ws := ws st; isConnected := isConnected st;
        reconnectAttempts := reconnectAttempts st + 1;
        subscribers := subscribers st;
        heartbeatInterval := heartbeatInterval st |},
     [SetTimeout reconnectTimer
        (config.websocket.reconnectDelay * (reconnectAttempts st + 1))]).
Proof.
  intros Hlt. unfold _attemptReconnect, mbind, M_bind, get.
  destruct (config.websocket.reconnectAttempts <=? reconnectAttempts st) eqn:Hcap.
  - apply Z.leb_le in Hcap. lia.
  - reflexivity.
Qed.

(** [_attemptReconnect] at the cap: the terminal signal and nothing else. *)
Lemma attemptReconnect_exhausted (st : State) :
  config.websocket.reconnectAttempts <= reconnectAttempts st ->
  _attemptReconnect st = (tt, st, [Emit maxReconnectAttemptsReached]).
Proof.
  intros Hge. unfold _attemptReconnect, mbind, M_bind, get.
  destruct (config.websocket.reconnectAttempts <=? reconnectAttempts st) eqn:Hcap.
  - reflexivity.
  - apply Z.leb_gt in Hcap. lia.
Qed.

(** The reconnects a close schedules depend on the counter only. *)
Lemma on_close_reconnects (st : State) code reason :
  reconnect_delays (output_of (on_close code reason st)) =
    if config.websocket.reconnectAttempts <=? reconnectAttempts st then []
    else [config.websocket.reconnectDelay * (reconnectAttempts st + 1)].
Proof.
  destruct st as [w c n l h].
  unfold on_close, _attemptReconnect, _stopHeartbeat, set_isConnected,
    set_heartbeatInterval, set_reconnectAttempts, tell, put, get,
    mbind, M_bind, mret, M_ret, output_of.
  cbn [ws isConnected reconnectAttempts subscribers heartbeatInterval].
  destruct h; cbn [ws isConnected reconnectAttempts subscribers heartbeatInterval];
    destruct (config.websocket.reconnectAttempts <=? n); reflexivity.
Qed.

(** C2 (as stated, refuted). On a service that connected, [disconnect()]
    asks the socket to close with code 1000; when that close arrives, the
    ['close'] handler schedules a reconnect after 5000 ms and the counter
    becomes 1. *)
Lemma C2_close_after_disconnect_schedules_reconnect :
  let st := state_of (run [call_connect; ws_open] init) in
  let r := run [call_disconnect; ws_close 1000 "Normal closure"] st in
  isConnected st = true /\
  closes (output_of r) = [(1000, "Normal closure")] /\
  reconnect_delays (output_of r) = [5000] /\
  reconnectAttempts (state_of r) = 1.
Proof. vm_compute. repeat split; reflexivity. Qed.

(** C2 (amended). [disconnect()] stops the heartbeat timer, closes the
    socket (when there is one) with code 1000, clears [isConnected],
    resets the counter to 0 and schedules no reconnect itself.  The
    ['close'] handler is the same for every close: it schedules a
    reconnect whenever the counter is below the cap, so the close that
    follows [disconnect()] schedules one after [reconnectDelay * 1]. *)
Theorem C2_disconnect_then_close :
  (forall st,
     let r := disconnect st in
     heartbeatInterval (state_of r) = false /\
     (heartbeatInterval st = true -> In ClearInterval (output_of r)) /\
     ws (state_of r) = None /\
     closes (output_of r) =
       match ws st with
       | Some _ => [(1000, "Normal closure")]
       | None => []
       end /\
     isConnected (state_of r) = false /\
     reconnectAttempts (state_of r) = 0 /\
     reconnect_delays (output_of r) = [] /\
     emitted (output_of r) = [] /\
     forall code reason,
       let r' := step (ws_close code reason) (state_of r) in
       reconnect_delays (output_of r') = [config.websocket.reconnectDelay * 1] /\
       emitted (output_of r') = [disconnected code reason] /\
       reconnectAttempts (state_of r') = 1 /\
       isConnected (state_of r') = false /\
       heartbeatInterval (state_of r') = false) /\
  (forall st code reason,
     reconnect_delays (output_of (on_close code reason st)) =
       if config.websocket.reconnectAttempts <=? reconnectAttempts st then []
       else [config.websocket.reconnectDelay * (reconnectAttempts st + 1)]).
Proof.
  split; [|exact on_close_reconnects].
  intros [[w|] c n l [|]]; vm_compute;
    repeat split; intros; try reflexivity; try discriminate; auto.
Qed.

(** C5. From a state whose counter is 0 (as after a successful connect):
    the connection drops and the reconnect attempts fail one after the
    other.  The reconnects are scheduled after 5000, 10000, 15000, 20000
    and 25000 ms; the close that follows the fifth failed attempt emits
    [maxReconnectAttemptsReached] and schedules nothing, and so does every
    later close; the ['open'] handler sets the counter to 0.  In general a
    close with the counter at [n < 5] schedules the reconnect after
    [5000 * (n + 1)] ms. *)
Theorem C5_linear_backoff_then_exhaustion (st : State) message code reason :
  reconnectAttempts st = 0 ->
  let r4 := run (drop_and_fail 4 message code reason) st in
  let r5 := run (failed_reconnect message code reason) (state_of r4) in
  reconnect_delays (output_of r4) = [5000; 10000; 15000; 20000; 25000] /\
  emitted (output_of r5) =
    [error (JStr message); disconnected code reason;
     maxReconnectAttemptsReached] /\
  reconnect_delays (output_of r5) = [] /\
  (forall code' reason',
     let r6 := step (ws_close code' reason') (state_of r5) in
     reconnect_delays (output_of r6) = [] /\
     emitted (output_of r6) =
       [disconnected code' reason'; maxReconnectAttemptsReached]) /\
  (forall st', reconnectAttempts (state_of (step ws_open st')) = 0) /\
  (forall st' code' reason',
     reconnect_delays (output_of (on_close code' reason' st')) =
       if 5 <=? reconnectAttempts st' then []
       else [5000 * (reconnectAttempts st' + 1)]).
Proof.
  intros H0. destruct st as [w c n l h]. cbn [reconnectAttempts] in H0.
  subst n. cbv zeta.
  split; [|split; [|split; [|split; [|split; [|exact on_close_reconnects]]]]].
  - destruct w, h; vm_compute; reflexivity.
  - destruct w, h; vm_compute; reflexivity.
  - destruct w, h; vm_compute; reflexivity.
  - intros code' reason'. destruct w, h; vm_compute; split; reflexivity.
  - intros [[w'|] c' n' l' [|]]; vm_compute; reflexivity.
Qed.

Lemma C5_witness_after_first_connect :
  let st := state_of (run [call_connect; ws_open] init) in
  reconnectAttempts st = 0 /\
  reconnect_delays
    (output_of (run (drop_and_fail 4 "ECONNREFUSED" 1006 "") st))
  = [5000; 10000; 15000; 20000; 25000].
Proof.
  cbv zeta. split; [vm_compute; reflexivity|].
  refine (proj1 (C5_linear_backoff_then_exhaustion _ "ECONNREFUSED" 1006 "" _)).
  vm_compute. reflexivity.
Defined.

End Connection.

(** ** Alert deduplication *)

Section Dedup.

Import NotificationService.

(** Timers of other keys leave a record alone, and so do timers of the
    key that are not due yet. *)
Lemma fire_due_keeps (now : Z) (k : string) (st : State) :
  (forall due, (due, k) ∈ cooldownTimers st -> now < due) ->
  sentAlerts (fire_due now st) !! k = sentAlerts st !! k.
Proof.
  unfold fire_due. cbn [sentAlerts].
  generalize (sentAlerts st) as m.
  induction (cooldownTimers st) as [|[due k'] timers IH]; intros m Hk.
  - reflexivity.
  - cbn [foldr fst snd]. destruct (due <=? now) eqn:Hdue.
    + destruct (decide (k' = k)) as [->|Hne].
      * apply Z.leb_le in Hdue.
        specialize (Hk due (list_elem_of_here _ _)). lia.
      * rewrite lookup_delete_ne by exact Hne.
        apply IH. intros d Hd. apply Hk. apply list_elem_of_further. exact Hd.
    + apply IH. intros d Hd. apply Hk. apply list_elem_of_further. exact Hd.
Qed.

(** A due timer of the key removes its record. *)
Lemma fire_due_removes (now due : Z) (k : string) (st : State) :
  (due, k) ∈ cooldownTimers st ->
  due <= now ->
  sentAlerts (fire_due now st) !! k = None.
Proof.
  unfold fire_due. cbn [sentAlerts].
  generalize (sentAlerts st) as m.
  induction (cooldownTimers st) as [|[due' k'] timers IH]; intros m Hin Hdue.
  - apply elem_of_nil in Hin. destruct Hin.
  - cbn [foldr fst snd]. apply elem_of_cons in Hin as [Heq | Hin].
    + injection Heq as <- <-.
      apply Z.leb_le in Hdue. rewrite Hdue. apply lookup_delete_eq.
    + destruct (due' <=? now).
      * destruct (decide (k' = k)) as [->|Hne].
        -- apply lookup_delete_eq.
        -- rewrite lookup_delete_ne by exact Hne. apply IH; assumption.
      * apply IH; assumption.
Qed.

Lemma fire_due_timers (now : Z) (st : State) (t : Z * string) :
  t ∈ cooldownTimers (fire_due now st) <->
  t ∈ cooldownTimers st /\ now < t.1.
Proof.
  unfold fire_due. cbn [cooldownTimers]. rewrite list_elem_of_filter. tauto.
Qed.

Lemma truthy_key_nonempty (k : string) : k <> EmptyString -> truthy_key (Some k) = Some k.
Proof.
  intros Hk. unfold truthy_key.
  destruct (String.eqb_spec k EmptyString) as [->|_]; [contradiction|reflexivity].
Qed.

Lemma is_duplicate_recorded (k : string) (st : State) :
  k <> EmptyString -> is_Some (sentAlerts st !! k) ->
  is_duplicate (Some k) st = true.
Proof.
  intros Hk Hrec. unfold is_duplicate. rewrite (truthy_key_nonempty k Hk).
  apply bool_decide_eq_true. exact Hrec.
Qed.

Lemma is_duplicate_fresh (k : string) (st : State) :
  sentAlerts st !! k = None -> is_duplicate (Some k) st = false.
Proof.
  intros Hnone. unfold is_duplicate.
  destruct (truthy_key (Some k)) as [k'|] eqn:Hk; [|reflexivity].
  unfold truthy_key in Hk. destruct (String.eqb k EmptyString); [discriminate|].
  injection Hk as <-. apply bool_decide_eq_false. rewrite Hnone.
  intros [x Hx]. discriminate Hx.
Qed.

(** A call on a recorded key returns [false] at once: nothing is sent and
    nothing changes, whatever the request would have done. *)
Lemma sendWechatAlert_suppressed content k outcome now st :
  k <> EmptyString -> is_Some (sentAlerts st !! k) ->
  sendWechatAlert content (Some k) outcome now st = (false, [], st).
Proof.
  intros Hk Hrec. unfold sendWechatAlert.
  rewrite (is_duplicate_recorded k st Hk Hrec). reflexivity.
Qed.

(** A call on a key without record hands the content to [_sendToWechat];
    a record and a timer are added when, and only when, the request is
    delivered. *)
Lemma sendWechatAlert_fresh content k outcome now st :
  k <> EmptyString -> sentAlerts st !! k = None ->
  sendWechatAlert content (Some k) outcome now st =
    (success_of outcome, [content],
     match outcome with
     | Delivered =>
         {| sentAlerts := <[k := now]> (sentAlerts st);
            cooldownTimers :=
              cooldownTimers st ++ [(now + config.alerts.cooldownPeriod, k)] |}
     | Refused | Raised => st
     end).
Proof.
  intros Hk Hnone. unfold sendWechatAlert, sendWechatAlert_resume.
  rewrite (is_duplicate_fresh k st Hnone), (truthy_key_nonempty k Hk).
  destruct outcome; reflexivity.
Qed.

(** *** Records and timers of a run *)

Lemma fire_due_only_deletes (now : Z) (k : string) (stamp : Z) (st : State) :
  sentAlerts (fire_due now st) !! k = Some stamp ->
  sentAlerts st !! k = Some stamp.
Proof.
  unfold fire_due. cbn [sentAlerts].
  generalize (sentAlerts st) as m.
  induction (cooldownTimers st) as [|[due k'] timers IH]; intros m H.
  - exact H.
  - cbn [foldr fst snd] in H. destruct (due <=? now).
    + apply lookup_delete_Some in H as [_ H]. apply IH. exact H.
    + apply IH. exact H.
Qed.

Lemma consistent_init (now : Z) : consistent now init.
Proof.
  split.
  - intros due k H. apply elem_of_nil in H. destruct H.
  - intros k stamp H. cbn in H. rewrite lookup_empty in H. discriminate H.
Qed.

Lemma consistent_fire_due (now now' : Z) (st : State) :
  consistent now st -> now <= now' -> consistent now' (fire_due now' st).
Proof.
  intros [Htimers Hrecords] Hle. split.
  - intros due k Hin. apply fire_due_timers in Hin as [Hin Hdue].
    cbn [fst] in Hdue. split; [exact Hdue|].
    destruct (Htimers due k Hin) as [_ Hrec].
    rewrite fire_due_keeps; [exact Hrec|].
    intros d Hd. destruct (Htimers d k Hd) as [_ Hrec'].
    rewrite Hrec in Hrec'. injection Hrec' as Heq. lia.
  - intros k stamp Hrec.
    pose proof (fire_due_only_deletes now' k stamp st Hrec) as Hold.
    pose proof (Hrecords k stamp Hold) as Hin.
    apply fire_due_timers. split; [exact Hin|]. cbn [fst].
    destruct (Z.lt_ge_cases now' (stamp + config.alerts.cooldownPeriod))
      as [Hlt | Hge]; [exact Hlt|].
    rewrite (fire_due_removes now' _ k st Hin Hge) in Hrec. discriminate Hrec.
Qed.

Lemma consistent_send content alertKey outcome (now : Z) (st : State) :
  consistent now st ->
  consistent now (sendWechatAlert content alertKey outcome now st).2.
Proof.
  intros Hst. unfold sendWechatAlert.
  destruct (is_duplicate alertKey st) eqn:Hdup; [exact Hst|].
  unfold sendWechatAlert_resume.
  destruct outcome; try exact Hst.
  unfold is_duplicate in Hdup.
  destruct (truthy_key alertKey) as [k|]; [|exact Hst].
  apply bool_decide_eq_false in Hdup.
  assert (Hnone : sentAlerts st !! k = None).
  { destruct (sentAlerts st !! k) eqn:E; [|reflexivity].
    exfalso. apply Hdup. eauto. }
  destruct Hst as [Htimers Hrecords]. cbn [snd]. split.
  - intros due k' Hin. cbn [cooldownTimers sentAlerts] in *.
    apply elem_of_app in Hin as [Hin | Hin].
    + destruct (Htimers due k' Hin) as [Hdue Hrec]. split; [exact Hdue|].
      rewrite lookup_insert_ne; [exact Hrec|].
      intros ->. rewrite Hnone in Hrec. discriminate Hrec.
    + apply list_elem_of_singleton in Hin. injection Hin as -> ->.
      split; [unfold config.alerts.cooldownPeriod; lia|].
      rewrite lookup_insert_eq. f_equal. lia.
  - intros k' stamp Hrec. cbn [cooldownTimers sentAlerts] in *.
    apply lookup_insert_Some in Hrec as [[<- <-] | [Hne Hrec]].
    + apply elem_of_app. right. apply list_elem_of_here.
    + apply elem_of_app. left. apply Hrecords. exact Hrec.
Qed.

(** In a run the cleanup task finds nothing to delete: the cooldown timer
    has removed every record long before it is [maxAlertAge] old. *)
Lemma consistent_cleanup (now : Z) (st : State) :
  consistent now st -> cleanup now st = st.
Proof.
  intros [Htimers Hrecords]. unfold cleanup. destruct st as [m timers].
  cbn [sentAlerts cooldownTimers] in *. f_equal.
  apply map_filter_id. intros k stamp Hrec. cbn [snd].
  destruct (Htimers _ _ (Hrecords k stamp Hrec)) as [Hdue _].
  unfold config.alerts.maxAlertAge, config.alerts.cooldownPeriod in *. lia.
Qed.

Lemma reachable_consistent (now : Z) (st : State) :
  reachable_at now st -> consistent now st.
Proof.
  induction 1 as [now | now now' op st _ IH Hle].
  - apply consistent_init.
  - pose proof (consistent_fire_due now now' st IH Hle) as Hfired.
    unfold apply_at. destruct op as [content alertKey outcome|].
    + apply consistent_send. exact Hfired.
    + rewrite (consistent_cleanup now' _ Hfired). exact Hfired.
Qed.

(** In a run, a key without record has no pending timer. *)
Lemma reachable_no_stale_timer (now : Z) (st : State) (k : string) :
  reachable_at now st -> sentAlerts st !! k = None ->
  forall due, (due, k) ∉ cooldownTimers st.
Proof.
  intros Hreach Hnone due Hin.
  destruct (reachable_consistent now st Hreach) as [Htimers _].
  destruct (Htimers due k Hin) as [_ Hrec]. rewrite Hnone in Hrec.
  discriminate Hrec.
Qed.

(** *** Alert keys *)


Lemma alert_key_nonempty symbol type :
  PriceMonitorService.alert_key symbol type <> EmptyString.
Proof.
  unfold PriceMonitorService.alert_key.
  destruct symbol, type; discriminate.
Qed.

(** *** Suppression, cooldown and keys *)

(** C1 (as stated, refuted). Band 100..110.  A tick at 111 crosses upward
    and starts a webhook request under the key
    [BTCUSDT_max_price_exceeded]; the request is refused.  No record is
    kept, and the next upward crossing (a tick at 113, above the rebased
    maximum 112.11) starts a second request under the same key instead of
    being suppressed.  Had the first request been delivered, the second
    crossing would have been reported as a duplicate. *)
Lemma C1_refused_delivery_does_not_suppress_next_crossing :
  let key := "BTCUSDT_max_price_exceeded" in
  let r1 := PriceMonitorService.updateCryptoData "BTCUSDT"
              (PriceMonitorService.tick "BTCUSDT" 111 100)
              PriceMonitorService.btc_100_110 in
  let refused := PriceMonitorService.request_settles key Refused 500 r1.1 in
  let delivered := PriceMonitorService.request_settles key Delivered 500 r1.1 in
  let second st := (PriceMonitorService.updateCryptoData "BTCUSDT"
                      (PriceMonitorService.tick "BTCUSDT" 113 100) st).2 in
  (exists m, In (PriceMonitorService.request m key) r1.2) /\
  sentAlerts (PriceMonitorService.notificationService refused) = ∅ /\
  cooldownTimers (PriceMonitorService.notificationService refused) = [] /\
  (exists m, In (PriceMonitorService.request m key) (second refused)) /\
  ~ In (PriceMonitorService.log_duplicate key) (second refused) /\
  In (PriceMonitorService.log_duplicate key) (second delivered).
Proof.
  cbv zeta. split; [|split; [|split; [|split; [|split]]]].
  - eexists. vm_compute. right. left. reflexivity.
  - vm_compute. reflexivity.
  - vm_compute. reflexivity.
  - eexists. vm_compute. right. left. reflexivity.
  - vm_compute. intros H.
    repeat (destruct H as [H | H]; [discriminate H|]). exact H.
  - vm_compute. right. left. reflexivity.
Qed.

(** C1 (amended). [sendWechatAlert] on a key that has a record returns
    [false] without sending, whatever the request would have done.  On a
    key without record it sends; it records the key (with the settle time)
    and arms the cooldown timer when the request is delivered, and leaves
    the state as it was when the request is refused or raises: a failed
    delivery does not take the cooldown slot.  A crossing whose key is
    recorded is reported as a duplicate and starts no request. *)
Theorem C1_record_only_when_delivered :
  (forall content k outcome now st,
     k <> EmptyString -> is_Some (sentAlerts st !! k) ->
     sendWechatAlert content (Some k) outcome now st = (false, [], st)) /\
  (forall content k now st,
     k <> EmptyString -> sentAlerts st !! k = None ->
     let r := sendWechatAlert content (Some k) Delivered now st in
     r.1 = (true, [content]) /\
     sentAlerts r.2 !! k = Some now /\
     cooldownTimers r.2 =
       cooldownTimers st ++ [(now + config.alerts.cooldownPeriod, k)]) /\
  (forall content k outcome now st,
     k <> EmptyString -> sentAlerts st !! k = None ->
     outcome <> Delivered ->
     sendWechatAlert content (Some k) outcome now st = (false, [content], st)) /\
  (forall symbol data thresholds st,
     PriceMonitorService.priceThresholds st !! symbol = Some thresholds ->
     gt (PriceData.price data) (Thresholds.max thresholds) = true ->
     let key := PriceMonitorService.alert_key symbol PriceMonitorService.type_max in
     let out := (PriceMonitorService.updateCryptoData symbol data st).2 in
     if bool_decide
          (is_Some (sentAlerts (PriceMonitorService.notificationService st) !! key))
     then In (PriceMonitorService.log_duplicate key) out /\
          forall m k, ~ In (PriceMonitorService.request m k) out
     else exists m, In (PriceMonitorService.request m key) out).
Proof.
  split; [|split; [|split]].
  - intros content k outcome now st Hk Hrec.
    apply sendWechatAlert_suppressed; assumption.
  - intros content k now st Hk Hnone r. subst r.
    rewrite (sendWechatAlert_fresh content k Delivered now st Hk Hnone).
    cbn [fst snd sentAlerts cooldownTimers success_of].
    split; [reflexivity|]. split; [apply lookup_insert_eq | reflexivity].
  - intros content k outcome now st Hk Hnone Hfail.
    rewrite (sendWechatAlert_fresh content k outcome now st Hk Hnone).
    destruct outcome; [contradiction | reflexivity | reflexivity].
  - intros symbol data thresholds st Hband Hgt key out.
    destruct (updateCryptoData_exceeded symbol data thresholds
                st PriceMonitorService.type_max (Thresholds.max thresholds)
                Hband (conj Hgt eq_refl)) as (m & _ & Hout & _).
    fold key in Hout. subst out. rewrite Hout.
    assert (Hmoves : forall e,
               In e (PriceMonitorService._logPriceChange symbol data
                       (PriceMonitorService.cryptoData st !! symbol)) ->
               exists s p c, e = PriceMonitorService.log_price_change s p c).
    { intros e. unfold PriceMonitorService._logPriceChange.
      destruct (PriceMonitorService.cryptoData st !! symbol); [|intros []].
      destruct (ge _ _); [|intros []]. intros [<- | []]. eauto. }
    unfold is_duplicate. rewrite (truthy_key_nonempty key)
      by apply alert_key_nonempty.
    destruct (bool_decide _).
    + split; [right; left; reflexivity|].
      intros m' k' Hin. apply in_app_or in Hin as [Hin | Hin].
      * destruct Hin as [H | [H | [H | []]]]; discriminate H.
      * apply Hmoves in Hin as (s' & p' & c' & H). discriminate H.
    + exists m. right. left. reflexivity.
Qed.

Lemma C1_witness_refused_then_delivered :
  let k := "BTCUSDT_max_price_exceeded" in
  sendWechatAlert [Lit "alert"] (Some k) Refused 0 init
    = (false, [[Lit "alert"]], init) /\
  (sendWechatAlert [Lit "alert"] (Some k) Delivered 1000 init).1
    = (true, [[Lit "alert"]]).
Proof.
  cbv zeta.
  destruct C1_record_only_when_delivered as (_ & Hdelivered & Hfailed & _).
  split.
  - apply Hfailed; [discriminate | reflexivity | discriminate].
  - apply (Hdelivered [Lit "alert"] "BTCUSDT_max_price_exceeded" 1000 init);
      [discriminate | reflexivity].
Defined.




End Dedup.

Section PercentChange.

Import PriceMonitorService.

(** C7 (as stated, refuted). With the band 100..110, a first tick at 105
    (opened at 100) is stored without crossing; the next tick at 111 crosses
    and its alert shows 11 (the change since the 24h open, 100), whereas
    the change since the previous tick, 105, is 40/7.  On a first tick
    (no previous price) at 111 the alert also shows 11, not 0. *)
Lemma C7_alert_shows_24h_change_not_tick_change :
  let first := tick "BTCUSDT" 105 100 in
  let data := tick "BTCUSDT" 111 100 in
  let st := (updateCryptoData "BTCUSDT" first btc_100_110).1 in
  getCryptoData "BTCUSDT" st = Some first /\
  PriceData.price first = Fin (105 # 1) /\
  map percent_shown (alerts_logged (updateCryptoData "BTCUSDT" data st).2)
    = [[Fin (11 # 1)]] /\
  helpers.calculatePriceChangePercent
    (JNum (PriceData.price data)) (JNum (PriceData.price first)) = Fin (40 # 7) /\
  getCryptoData "BTCUSDT" btc_100_110 = None /\
  map percent_shown (alerts_logged (updateCryptoData "BTCUSDT" data btc_100_110).2)
    = [[Fin (11 # 1)]].
Proof. vm_compute. repeat split; reflexivity. Qed.

(** C7 (amended). The percent change shown by an alert is the field
    [priceChangePercent] of the tick that crossed, whatever was stored
    before; the parser computes that field as
    [((last - open24h) / open24h) * 100]; and the helper
    [calculatePriceChangePercent (current, previous)] gives [0] when
    [previous] is zero, when an argument is [NaN] and when an argument is
    not a number, and [((current - previous) / previous) * 100]
    otherwise.  The change since the previous tick is computed for the
    console line of [_logPriceChange] only, and only when a previous tick
    is stored. *)
Theorem C7_percent_change :
  (forall symbol data st message,
     In message (alerts_logged (updateCryptoData symbol data st).2) ->
     percent_shown message = [PriceData.priceChangePercent data]) /\
  (forall item d,
     WebSocketCodec._parsePriceData item = Some d ->
     exists o,
       item = Some o /\
       PriceData.priceChangePercent d =
         mul (div (sub (JsParse.parseFloat (TickerItem.last o))
                       (JsParse.parseFloat (TickerItem.open24h o)))
                  (JsParse.parseFloat (TickerItem.open24h o)))
             (ofZ 100)) /\
  (forall current previous,
     helpers.calculatePriceChangePercent (JNum current) (JNum previous) =
       if isNaN current || isNaN previous || JsNum.eqb previous (ofZ 0)
       then ofZ 0
       else mul (div (sub current previous) previous) (ofZ 100)) /\
  (forall current,
     helpers.calculatePriceChangePercent current (JNum (ofZ 0)) = ofZ 0) /\
  (forall current previous,
     (forall n, current <> JNum n) \/ (forall n, previous <> JNum n) ->
     helpers.calculatePriceChangePercent current previous = ofZ 0) /\
  (forall symbol data previousData e,
     In e (_logPriceChange symbol data previousData) ->
     exists previous,
       previousData = Some previous /\
       e = log_price_change symbol (PriceData.price data)
             (mul (div (sub (PriceData.price data) (PriceData.price previous))
                       (PriceData.price previous))
                  (ofZ 100))).
Proof.
  split; [|split; [|split; [|split; [|split]]]].
  - intros symbol data st message Hin.
    destruct (alerts_of_update symbol data st) as [Hnone | Hone].
    + rewrite Hnone in Hin. destruct Hin.
    + destruct Hone as (type & threshold & m & Hm & Hout).
      rewrite Hout in Hin. destruct Hin as [<- | []].
      exact (generateAlertMessage_percent _ _ _ _ _ _ Hm).
  - intros item d H.
    destruct (parsePriceData_percent item d H) as (o & Ho & _ & Hp).
    exists o. split; assumption.
  - intros current previous. reflexivity.
  - intros current. destruct current as [| | b | c | s]; try reflexivity.
    unfold helpers.calculatePriceChangePercent.
    destruct (isNaN c); reflexivity.
  - intros current previous [H | H].
    + destruct current as [| | b | c | s]; try reflexivity.
      destruct (H c eq_refl).
    + destruct current as [| | b | c | s]; try reflexivity.
      destruct previous as [| | b | q | s]; try reflexivity.
      destruct (H q eq_refl).
  - intros symbol data previousData e.
    unfold _logPriceChange. destruct previousData as [previous|]; [|intros []].
    destruct (ge _ _); [|intros []].
    intros [<- | []]. exists previous. split; reflexivity.
Qed.

Lemma C7_witness_alert_of_tick_111 :
  exists message,
    In message
       (alerts_logged
          (updateCryptoData "BTCUSDT" (tick "BTCUSDT" 111 100) btc_100_110).2) /\
    percent_shown message = [Fin (11 # 1)].
Proof.
  destruct C7_percent_change as (Hshown & _).
  destruct (alerts_logged
              (updateCryptoData "BTCUSDT" (tick "BTCUSDT" 111 100) btc_100_110).2)
    as [|message rest] eqn:Hlogged.
  - vm_compute in Hlogged. discriminate Hlogged.
  - exists message. split; [left; reflexivity|].
    apply (Hshown "BTCUSDT" (tick "BTCUSDT" 111 100) btc_100_110 message).
    rewrite Hlogged. left. reflexivity.
Defined.

End PercentChange.



Example parseFloat_ex1 : JsParse.parseFloat (JStr "43000.5") = Fin (86001 # 2).
Proof. vm_compute. reflexivity. Qed.

Example parseFloat_ex2 : JsParse.parseFloat (JStr "  -1.5e2abc") = Fin (-150 # 1).
Proof. vm_compute. reflexivity. Qed.

Example parseFloat_ex3 : JsParse.parseFloat (JStr "abc") = NaN.
Proof. vm_compute. reflexivity. Qed.

Example parseFloat_ex4 : JsParse.parseFloat (JStr "-Infinity") = NInf.
Proof. vm_compute. reflexivity. Qed.

Example parseFloat_ex5 : JsParse.parseFloat (JStr ".5") = Fin (1 # 2).
Proof. vm_compute. reflexivity. Qed.

Example parseFloat_ex6 : JsParse.parseFloat (JStr "1e") = Fin (1 # 1).
Proof. vm_compute. reflexivity. Qed.

Example parseFloat_ex7 : JsParse.parseFloat (JStr "5.e3") = Fin (5000 # 1).
Proof. vm_compute. reflexivity. Qed.

Example parseFloat_ex8 : JsParse.parseFloat (JStr ".e5") = NaN.
Proof. vm_compute. reflexivity. Qed.

Example parseFloat_ex9 : JsParse.parseFloat (JStr "0x10") = Fin (0 # 1).
Proof. vm_compute. reflexivity. Qed.

Example parseFloat_ex10 : JsParse.parseFloat (JStr "-.5e-2") = Fin (-1 # 200).
Proof. vm_compute. reflexivity. Qed.

Example parseFloat_ex11 : JsParse.parseFloat JUndefined = NaN.
Proof. reflexivity. Qed.

Example parseFloat_ex12 : JsParse.parseFloat (JStr "1e400") = PInf.
Proof. vm_compute. reflexivity. Qed.

Example parseFloat_ex13 : JsParse.parseFloat (JStr "-1e400") = NInf.
Proof. vm_compute. reflexivity. Qed.

Example parseFloat_ex14 : JsParse.parseFloat (JStr "1e-400") = Fin (0 # 1).
Proof. vm_compute. reflexivity. Qed.

Example parseFloat_ex15 :
  JsParse.parseFloat
    (JStr (String (ascii_of_nat 194) (String (ascii_of_nat 160) "111")))
  = Fin (111 # 1).
Proof. vm_compute. reflexivity. Qed.

Example parseFloat_ex16 :
  JsParse.parseFloat (JStr "1.7976931348623157e308")
  = Fin (17976931348623157 * 10 ^ 292 # 1).
Proof. vm_compute. reflexivity. Qed.

Example codec_ex1 : WebSocketCodec._convertSymbolForOKX "BTCUSDT" = "BTC-USDT".
Proof. vm_compute. reflexivity. Qed.

Example codec_ex2 : WebSocketCodec._convertOKXSymbolBack "BTC-USDT" = "BTCUSDT".
Proof. vm_compute. reflexivity. Qed.

Example codec_ex3 : WebSocketCodec._convertSymbolForOKX "AUSDTBUSDT" = "ABUSDT-USDT".
Proof. vm_compute. reflexivity. Qed.

Example valid_ex1 : helpers.isValidSymbol (JStr "AUSDTBUSDT") = true.
Proof. vm_compute. reflexivity. Qed.

Example valid_ex2 : helpers.isValidSymbol (JStr "AUSDT") = false.
Proof. vm_compute. reflexivity. Qed.

Example valid_ex3 : helpers.isValidSymbol (JStr "ABCDEFGHIJKUSDT") = false.
Proof. vm_compute. reflexivity. Qed.

Example ws_ex1 :
  WebSocketService.reconnect_delays
    (WebSocketService.output_of
       (WebSocketService.run
          [WebSocketService.call_connect; WebSocketService.ws_open;
           WebSocketService.ws_close 1006 ""]
          WebSocketService.init)) = [5000].
Proof. vm_compute. reflexivity. Qed.

(** The example of the specification on binary64 itself: the products are
    the doubles written [109.89] and [112.11], and those of the lower
    example are [94.05] and [95.95]. *)
Example rebase_examples_binary64 :
  (111 * (1 - 0.01) = 109.89)%float /\
  (111 * (1 + 0.01) = 112.11)%float /\
  (95 * (1 - 0.01) = 94.05)%float /\
  (95 * (1 + 0.01) = 95.95)%float.
Proof. repeat split; vm_compute; reflexivity. Qed.

(** On binary64 the band rebased around -5 is inverted, as it is with
    exact products; around the smallest negative subnormal both products
    round back to the price. *)
Example rebase_negative_binary64 :
  let band := PriceMonitorService.rebased_binary64 (-5) in
  PrimFloat.ltb band.2 (-5) = true /\ PrimFloat.ltb (-5) band.1 = true.
Proof. cbv zeta. split; vm_compute; reflexivity. Qed.

Example rebase_subnormal_binary64 :
  PriceMonitorService.rebased_binary64 (-0x1p-1074)
  = ((-0x1p-1074)%float, (-0x1p-1074)%float).
Proof. vm_compute. reflexivity. Qed.

(** Band 100..110 and price 95: lower crossing, new band 94.05..95.95. *)
Example lower_crossing_95 :
  let r := PriceMonitorService.updateCryptoData "BTCUSDT"
             (PriceMonitorService.tick "BTCUSDT" 95 100)
             PriceMonitorService.btc_100_110 in
  PriceMonitorService.getThresholds "BTCUSDT" r.1
    = Some (PriceMonitorService.own
              (Thresholds.mk (Fin (1881 # 20)) (Fin (1919 # 20)))) /\
  exists m, In (PriceMonitorService.request m "BTCUSDT_min_price_exceeded") r.2.
Proof.
  cbv zeta. split; [vm_compute; reflexivity|].
  eexists. vm_compute. right. left. reflexivity.
Qed.

(* ===================================================================== *)
(** * Further properties of the services                                   *)
(* ===================================================================== *)

(** ** Runs of the connection *)

Section ConnectionRuns.

Import WebSocketService WebSocketCodec.

Lemma bind_unfold {A B : Type} (m : M A) (k : A -> M B) (st : State) :
  (m ≫= k) st =
    (value_of (k (value_of (m st)) (state_of (m st))),
     state_of (k (value_of (m st)) (state_of (m st))),
     output_of (m st) ++ output_of (k (value_of (m st)) (state_of (m st)))).
Proof.
  unfold mbind, M_bind, value_of, state_of, output_of.
  destruct (m st) as [[a st1] out1]. cbn [fst snd].
  destruct (k a st1) as [[b st2] out2]. reflexivity.
Qed.

Lemma run_cons_state ev rest st :
  state_of (run (ev :: rest) st) = state_of (run rest (state_of (step ev st))).
Proof. cbn [run]. rewrite bind_unfold. reflexivity. Qed.

Lemma run_cons_output ev rest st :
  output_of (run (ev :: rest) st) =
    output_of (step ev st) ++ output_of (run rest (state_of (step ev st))).
Proof. cbn [run]. rewrite bind_unfold. reflexivity. Qed.

Lemma run_app_state evs1 evs2 st :
  state_of (run (evs1 ++ evs2) st) = state_of (run evs2 (state_of (run evs1 st))).
Proof.
  revert st. induction evs1 as [|ev evs1 IH]; intros st; [reflexivity|].
  rewrite <- app_comm_cons, !run_cons_state. apply IH.
Qed.

Lemma run_app_output evs1 evs2 st :
  output_of (run (evs1 ++ evs2) st) =
    output_of (run evs1 st) ++ output_of (run evs2 (state_of (run evs1 st))).
Proof.
  revert st. induction evs1 as [|ev evs1 IH]; intros st; [reflexivity|].
  rewrite <- app_comm_cons, !run_cons_output, run_cons_state, IH.
  apply app_assoc.
Qed.

Lemma send_all (l : list string) (st : State) :
  foldr (fun symbol rest => _sendSubscription symbol;; rest) (mret tt) l st =
    (tt, st, if can_send st then subscribe_requests l else []).
Proof.
  induction l as [|symbol l IH].
  - cbn [foldr]. destruct (can_send st); reflexivity.
  - cbn [foldr]. rewrite bind_unfold.
    assert (Hone : _sendSubscription symbol st =
                   (can_send st, st,
                    if can_send st
                    then [WsSend "subscribe" (_convertSymbolForOKX symbol)]
                    else [])).
    { unfold _sendSubscription. rewrite bind_unfold.
      unfold get, value_of, state_of, output_of. cbn [fst snd].
      destruct (can_send st); reflexivity. }
    rewrite Hone. unfold value_of, state_of, output_of. cbn [fst snd].
    rewrite IH. cbn [fst snd]. destruct (can_send st); reflexivity.
Qed.

Lemma resubscribeAll_result (st : State) :
  _resubscribeAll st =
    (tt, st, if can_send st then subscribe_requests (subscribers st) else []).
Proof.
  unfold _resubscribeAll. rewrite bind_unfold.
  unfold get, value_of, state_of, output_of. cbn [fst snd].
  rewrite send_all. reflexivity.
Qed.

Lemma emit_all (signals : list Signal) (st : State) :
  foldr (fun s rest => tell (Emit s);; rest) (mret tt) signals st =
    (tt, st, map Emit signals).
Proof.
  induction signals as [|s signals IH]; [reflexivity|].
  cbn [foldr]. rewrite bind_unfold.
  change (state_of (tell (Emit s) st)) with st.
  rewrite IH. reflexivity.
Qed.

Lemma step_message raw st :
  step (ws_message raw) st = (tt, st, map Emit (on_message raw)).
Proof. cbn [step]. apply emit_all. Qed.

Lemma step_resubscribe st :
  step (timer_fires resubscribeTimer) st =
    (tt, st,
     (if can_send st then subscribe_requests (subscribers st) else [])
     ++ [Emit connected]).
Proof.
  cbn [step on_timer]. rewrite bind_unfold, resubscribeAll_result. reflexivity.
Qed.

Lemma subscribe_result symbol st :
  subscribe symbol st =
    (can_send st,
     {| ws := ws st; isConnected := isConnected st;
        reconnectAttempts := reconnectAttempts st;
        subscribers := if bool_decide (symbol ∈ subscribers st)
                       then subscribers st
                       else subscribers st ++ [symbol];
        heartbeatInterval := heartbeatInterval st |},
     if can_send st then [WsSend "subscribe" (_convertSymbolForOKX symbol)]
     else []).
Proof.
  destruct st as [w c n l h].
  unfold subscribe, _sendSubscription, set_subscribers, can_send, get, put,
    tell, mbind, M_bind, mret, M_ret.
  cbn [ws isConnected reconnectAttempts subscribers heartbeatInterval].
  destruct (bool_decide (symbol ∈ l)), c, w as [[| | |]|]; reflexivity.
Qed.

Lemma unsubscribe_result symbol st :
  unsubscribe symbol st =
    (can_send st,
     {| ws := ws st; isConnected := isConnected st;
        reconnectAttempts := reconnectAttempts st;
        subscribers := filter (fun s => s <> symbol) (subscribers st);
        heartbeatInterval := heartbeatInterval st |},
     if can_send st then [WsSend "unsubscribe" (_convertSymbolForOKX symbol)]
     else []).
Proof.
  destruct st as [w c n l h].
  unfold unsubscribe, _sendUnsubscription, set_subscribers, can_send, get, put,
    tell, mbind, M_bind, mret, M_ret.
  cbn [ws isConnected reconnectAttempts subscribers heartbeatInterval].
  destruct c, w as [[| | |]|]; reflexivity.
Qed.

(** What one event does to the counter, to the heartbeat flag with the
    intervals it starts and clears, and to the subscription list. *)
Lemma step_frame ev st :
  let st' := state_of (step ev st) in
  (reconnectAttempts st' = reconnectAttempts st \/
   reconnectAttempts st' = 0 \/
   (reconnectAttempts st < config.websocket.reconnectAttempts /\
    reconnectAttempts st' = reconnectAttempts st + 1)) /\
  intervals_balance (output_of (step ev st)) =
    Z.b2z (heartbeatInterval st') - Z.b2z (heartbeatInterval st) /\
  (subscribers st' = subscribers st \/
   (exists symbol, (symbol ∉ subscribers st) /\
                   subscribers st' = subscribers st ++ [symbol]) \/
   (exists symbol, subscribers st' = filter (fun s => s <> symbol) (subscribers st))).
Proof.
  destruct ev as [| | symbol | symbol | | raw | code reason | message | t |].
  - destruct st as [w c n l h]. cbv zeta. split; [left; reflexivity|].
    split; [destruct h; reflexivity | left; reflexivity].
  - destruct st as [[w|] c n l [|]]; cbv zeta;
      (split; [right; left; reflexivity|]);
      (split; [reflexivity | left; reflexivity]).
  - cbv zeta. cbn [step]. rewrite bind_unfold, subscribe_result.
    unfold state_of, output_of, value_of.
    cbn [fst snd reconnectAttempts heartbeatInterval subscribers].
    split; [left; reflexivity|]. split.
    + rewrite app_nil_r. destruct (can_send st), (heartbeatInterval st); reflexivity.
    + destruct (bool_decide (symbol ∈ subscribers st)) eqn:Hmem;
        [left; reflexivity|].
      right. left. exists symbol. split; [|reflexivity].
      apply bool_decide_eq_false in Hmem. exact Hmem.
  - cbv zeta. cbn [step]. rewrite bind_unfold, unsubscribe_result.
    unfold state_of, output_of, value_of.
    cbn [fst snd reconnectAttempts heartbeatInterval subscribers].
    split; [left; reflexivity|]. split.
    + rewrite app_nil_r. destruct (can_send st), (heartbeatInterval st); reflexivity.
    + right. right. exists symbol. reflexivity.
  - destruct st as [[w|] c n l [|]]; cbv zeta;
      (split; [right; left; reflexivity|]);
      (split; [reflexivity | left; reflexivity]).
  - cbv zeta. rewrite step_message. unfold state_of, output_of. cbn [fst snd].
    split; [left; reflexivity|]. split; [|left; reflexivity].
    rewrite Z.sub_diag. induction (on_message raw) as [|s l IH]; [reflexivity|].
    exact IH.
  - destruct st as [w c n l h]. cbv zeta.
    assert (Hstate :
      state_of (step (ws_close code reason) (mkState w c n l h)) =
        mkState (match w with Some _ => Some CLOSED | None => None end) false
          (if config.websocket.reconnectAttempts <=? n then n else n + 1) l false).
    { destruct w, h, (config.websocket.reconnectAttempts <=? n) eqn:Hcap;
        unfold step, state_of, socket_becomes, on_close, _attemptReconnect,
          _stopHeartbeat, set_ws, set_isConnected, set_heartbeatInterval,
          set_reconnectAttempts, tell, put, get, mbind, M_bind, mret, M_ret;
        cbn [ws isConnected reconnectAttempts subscribers heartbeatInterval
             fst snd]; rewrite ?Hcap; reflexivity. }
    assert (Hout :
      intervals_balance (output_of (step (ws_close code reason) (mkState w c n l h)))
        = - Z.b2z h).
    { destruct w, h, (config.websocket.reconnectAttempts <=? n) eqn:Hcap;
        unfold step, output_of, socket_becomes, on_close, _attemptReconnect,
          _stopHeartbeat, set_ws, set_isConnected, set_heartbeatInterval,
          set_reconnectAttempts, tell, put, get, mbind, M_bind, mret, M_ret;
        cbn [ws isConnected reconnectAttempts subscribers heartbeatInterval
             fst snd]; rewrite ?Hcap; reflexivity. }
    rewrite Hstate, Hout.
    cbn [reconnectAttempts heartbeatInterval subscribers].
    split; [|split; [cbn [Z.b2z]; lia | left; reflexivity]].
    destruct (config.websocket.reconnectAttempts <=? n) eqn:Hcap;
      [left; reflexivity|].
    right. right. apply Z.leb_gt in Hcap. split; [exact Hcap | reflexivity].
  - destruct st as [w c n l h]. cbv zeta. split; [left; reflexivity|].
    split; [destruct h; reflexivity | left; reflexivity].
  - destruct t.
    + destruct st as [[[| | |]|] c n l h]; cbv zeta;
        (split; [left; reflexivity|]);
        (split; [destruct h; reflexivity | left; reflexivity]).
    + cbv zeta. rewrite step_resubscribe. unfold state_of, output_of.
      cbn [fst snd]. split; [left; reflexivity|]. split; [|left; reflexivity].
      rewrite Z.sub_diag.
      destruct (can_send st); [|reflexivity].
      unfold subscribe_requests.
      induction (subscribers st) as [|s l IH]; [reflexivity | exact IH].
    + destruct st as [w c n l h]. cbv zeta. split; [left; reflexivity|].
      split; [destruct h; reflexivity | left; reflexivity].
  - destruct st as [[[| | |]|] c n l h]; cbv zeta;
      (split; [left; reflexivity|]);
      (split; [destruct h; reflexivity | left; reflexivity]).
Qed.

Lemma sends_app out1 out2 : sends (out1 ++ out2) = sends out1 ++ sends out2.
Proof. apply flat_map_app. Qed.

Lemma emitted_app out1 out2 : emitted (out1 ++ out2) = emitted out1 ++ emitted out2.
Proof. apply flat_map_app. Qed.

Lemma sends_subscribe_requests l :
  sends (subscribe_requests l) =
    map (fun symbol => ("subscribe", _convertSymbolForOKX symbol)) l.
Proof. induction l as [|s l IH]; [reflexivity|]. cbn. f_equal. exact IH. Qed.

Lemma emitted_subscribe_requests l : emitted (subscribe_requests l) = [].
Proof. induction l as [|s l IH]; [reflexivity | exact IH]. Qed.

(** X1. After the socket opens on a connect (first or reconnect), the
    resubscribe timer sends one subscribe request for each symbol of the
    subscription list, in insertion order and for no other symbol, and
    ['connected'] is emitted after the last request; the list itself is
    not changed.  When the socket is no longer open as the timer fires,
    nothing is sent and ['connected'] is emitted all the same. *)
Theorem X1_resubscribe_after_open (first : Event) (st : State) :
  first = call_connect \/ first = timer_fires reconnectTimer ->
  let r := run [first; ws_open; timer_fires resubscribeTimer] st in
  sends (output_of r) =
    map (fun symbol => ("subscribe", _convertSymbolForOKX symbol))
        (subscribers st) /\
  emitted (output_of r) = [connected] /\
  (exists before,
     output_of r =
       before ++ subscribe_requests (subscribers st) ++ [Emit connected] /\
     sends before = [] /\ emitted before = []) /\
  subscribers (state_of r) = subscribers st /\
  (forall st',
     can_send st' = false ->
     step (timer_fires resubscribeTimer) st' = (tt, st', [Emit connected])).
Proof.
  intros Hfirst r.
  assert (Hpre : state_of (run [first; ws_open] st) =
                 mkState (Some OPEN) true 0 (subscribers st) true /\
                 sends (output_of (run [first; ws_open] st)) = [] /\
                 emitted (output_of (run [first; ws_open] st)) = []).
  { destruct st as [w c n l h].
    destruct Hfirst as [-> | ->]; destruct h; repeat split; reflexivity. }
  destruct Hpre as (Hstate & Hsends & Hemitted).
  assert (Hr : output_of r =
               output_of (run [first; ws_open] st)
               ++ subscribe_requests (subscribers st) ++ [Emit connected]).
  { subst r.
    change [first; ws_open; timer_fires resubscribeTimer]
      with ([first; ws_open] ++ [timer_fires resubscribeTimer]).
    rewrite run_app_output, Hstate.
    rewrite (run_cons_output (timer_fires resubscribeTimer) []).
    rewrite step_resubscribe. f_equal.
    change (can_send (mkState (Some OPEN) true 0 (subscribers st) true))
      with true.
    cbn [run mret M_ret output_of state_of fst snd subscribers].
    rewrite app_nil_r. reflexivity. }
  assert (Hs : state_of r = mkState (Some OPEN) true 0 (subscribers st) true).
  { subst r.
    change [first; ws_open; timer_fires resubscribeTimer]
      with ([first; ws_open] ++ [timer_fires resubscribeTimer]).
    rewrite run_app_state, Hstate.
    rewrite (run_cons_state (timer_fires resubscribeTimer) []).
    rewrite step_resubscribe. reflexivity. }
  split; [|split; [|split; [|split]]].
  - rewrite Hr, !sends_app, Hsends, sends_subscribe_requests. cbn [sends flat_map].
    rewrite app_nil_r. reflexivity.
  - rewrite Hr, !emitted_app, Hemitted, emitted_subscribe_requests. reflexivity.
  - exists (output_of (run [first; ws_open] st)). auto.
  - rewrite Hs. reflexivity.
  - intros st' Hclosed. rewrite step_resubscribe, Hclosed. reflexivity.
Qed.

Lemma X1_witness_two_symbols :
  let st := state_of (run [call_subscribe "BTCUSDT"; call_subscribe "ETHUSDT";
                           call_connect; ws_open; ws_close 1006 EmptyString]
                          init) in
  sends (output_of (run [timer_fires reconnectTimer; ws_open;
                         timer_fires resubscribeTimer] st))
  = [("subscribe", "BTC-USDT"); ("subscribe", "ETH-USDT")].
Proof.
  cbv zeta.
  refine (proj1 (X1_resubscribe_after_open (timer_fires reconnectTimer) _ _)).
  right. reflexivity.
Defined.

Lemma filter_other_id (symbol : string) (l : list string) :
  symbol ∉ l -> filter (fun s => s <> symbol) l = l.
Proof.
  induction l as [|s l IH]; intros Hnot; [reflexivity|].
  apply not_elem_of_cons in Hnot as [Hne Hnot].
  rewrite filter_cons_True by congruence. f_equal. apply IH. exact Hnot.
Qed.

(** X2. [subscribe(symbol)] keeps the subscription list a set: the symbol
    is in it afterwards, once, the other symbols stay, and a symbol that
    was there already changes nothing.  The call returns [true] and
    writes exactly one subscribe request when the service is connected
    with an open socket; otherwise it returns [false] and writes nothing,
    the symbol being kept for the next resubscribe pass. *)
Theorem X2_subscribe_keeps_a_set (symbol : string) (st : State) :
  let r := subscribe symbol st in
  value_of r = can_send st /\
  output_of r =
    (if can_send st then [WsSend "subscribe" (_convertSymbolForOKX symbol)]
     else []) /\
  (forall s, s ∈ subscribers (state_of r) <-> s = symbol \/ s ∈ subscribers st) /\
  (NoDup (subscribers st) -> NoDup (subscribers (state_of r))) /\
  (symbol ∈ subscribers st -> subscribers (state_of r) = subscribers st) /\
  can_send (state_of r) = can_send st /\
  reconnectAttempts (state_of r) = reconnectAttempts st.
Proof.
  cbv zeta. rewrite subscribe_result. unfold value_of, output_of, state_of.
  cbn [fst snd subscribers reconnectAttempts].
  split; [reflexivity|]. split; [reflexivity|].
  destruct (bool_decide (symbol ∈ subscribers st)) eqn:Hmem.
  - apply bool_decide_eq_true in Hmem. repeat split; auto.
    + intros [-> | H]; assumption.
  - apply bool_decide_eq_false in Hmem. repeat split.
    + intros H. apply elem_of_app in H as [H | H]; [right; exact H|].
      left. apply list_elem_of_singleton in H. exact H.
    + intros [-> | H]; apply elem_of_app; [right | left; exact H].
      apply list_elem_of_singleton. reflexivity.
    + intros Hnd. apply NoDup_app. split; [exact Hnd|]. split.
      * intros x Hx Hx'. apply list_elem_of_singleton in Hx'. subst x.
        contradiction.
      * apply NoDup_singleton.
    + intros H. contradiction.
Qed.

(** X3. [unsubscribe(symbol)] removes the symbol and nothing else from the
    subscription list, keeping the order of the rest; it writes one
    unsubscribe request when the service is connected with an open socket
    (even for a symbol that was not subscribed) and returns whether it did.
    Unsubscribing a symbol right after subscribing it, when it was not in
    the list before, gives the list back. *)
Theorem X3_unsubscribe_removes (symbol : string) (st : State) :
  let r := unsubscribe symbol st in
  value_of r = can_send st /\
  output_of r =
    (if can_send st then [WsSend "unsubscribe" (_convertSymbolForOKX symbol)]
     else []) /\
  (forall s, s ∈ subscribers (state_of r) <-> s <> symbol /\ s ∈ subscribers st) /\
  (NoDup (subscribers st) -> NoDup (subscribers (state_of r))) /\
  ((symbol ∉ subscribers st) ->
   subscribers (state_of r) = subscribers st /\
   subscribers (state_of (unsubscribe symbol (state_of (subscribe symbol st))))
     = subscribers st).
Proof.
  cbv zeta. rewrite unsubscribe_result. unfold value_of, output_of, state_of.
  cbn [fst snd subscribers].
  split; [reflexivity|]. split; [reflexivity|]. split; [|split].
  - intros s. rewrite list_elem_of_filter. tauto.
  - apply NoDup_filter.
  - intros Hnot. split; [apply filter_other_id; exact Hnot|].
    rewrite unsubscribe_result, subscribe_result. cbn [fst snd subscribers].
    rewrite bool_decide_eq_false_2 by exact Hnot.
    rewrite filter_app, (filter_other_id symbol _ Hnot).
    rewrite filter_cons_False by (intros H; apply H; reflexivity).
    rewrite filter_nil. apply app_nil_r.
Qed.

Lemma intervals_balance_app out1 out2 :
  intervals_balance (out1 ++ out2) = intervals_balance out1 + intervals_balance out2.
Proof.
  induction out1 as [|e out1 IH]; [reflexivity|].
  cbn [app intervals_balance foldr]. fold (intervals_balance (out1 ++ out2)).
  fold (intervals_balance out1). rewrite IH. destruct e; lia.
Qed.

(** The three invariants of a run, from any state. *)
Lemma run_invariants (evs : list Event) (st : State) :
  let r := run evs st in
  (0 <= reconnectAttempts st <= config.websocket.reconnectAttempts ->
   0 <= reconnectAttempts (state_of r) <= config.websocket.reconnectAttempts) /\
  intervals_balance (output_of r) =
    Z.b2z (heartbeatInterval (state_of r)) - Z.b2z (heartbeatInterval st) /\
  (NoDup (subscribers st) -> NoDup (subscribers (state_of r))).
Proof.
  revert st. induction evs as [|ev evs IH]; intros st; cbv zeta.
  - split; [auto|]. split; [|auto]. cbn. lia.
  - rewrite run_cons_state, run_cons_output, intervals_balance_app.
    destruct (step_frame ev st) as (Hn & Hb & Hl).
    destruct (IH (state_of (step ev st))) as (IHn & IHb & IHl).
    split; [|split].
    + intros Hrange. apply IHn.
      unfold config.websocket.reconnectAttempts in *.
      destruct Hn as [-> | [-> | [Hlt ->]]]; lia.
    + rewrite Hb, IHb. lia.
    + intros Hnd. apply IHl.
      destruct Hl as [-> | [(symbol & Hnot & ->) | (symbol & ->)]].
      * exact Hnd.
      * apply NoDup_app. split; [exact Hnd|]. split.
        -- intros x Hx Hx'. apply list_elem_of_singleton in Hx'. subst x.
           contradiction.
        -- apply NoDup_singleton.
      * apply NoDup_filter. exact Hnd.
Qed.

(** X4. In every run of the service from its construction, the reconnect
    counter stays between 0 and the configured cap of 5, whatever the
    order of calls, socket events and timers. *)
Theorem X4_reconnect_counter_bounded (evs : list Event) :
  0 <= reconnectAttempts (state_of (run evs init)) <= 5.
Proof.
  destruct (run_invariants evs init) as (H & _ & _). apply H.
  unfold config.websocket.reconnectAttempts. cbn [init reconnectAttempts]. lia.
Qed.

(** X5. In every run from construction, the heartbeat intervals started
    less those cleared is 1 when [heartbeatInterval] holds a handle and 0
    when it does not: at most one heartbeat interval is live at any time
    and none is left behind by a close or a disconnect. *)
Theorem X5_one_heartbeat_interval (evs : list Event) :
  let r := run evs init in
  intervals_balance (output_of r) =
    (if heartbeatInterval (state_of r) then 1 else 0) /\
  (forall code reason,
     heartbeatInterval (state_of (step (ws_close code reason) (state_of r)))
       = false) /\
  heartbeatInterval (state_of (step call_disconnect (state_of r))) = false.
Proof.
  cbv zeta. destruct (run_invariants evs init) as (_ & H & _). split; [|split].
  - rewrite H. cbn [init heartbeatInterval Z.b2z].
    destruct (heartbeatInterval _); reflexivity.
  - intros code reason.
    destruct (state_of (run evs init)) as [[w|] c n l [|]];
      destruct (config.websocket.reconnectAttempts <=? n) eqn:Hcap;
      unfold step, state_of, socket_becomes, on_close, _attemptReconnect,
        _stopHeartbeat, set_ws, set_isConnected, set_heartbeatInterval,
        set_reconnectAttempts, tell, put, get, mbind, M_bind, mret, M_ret;
      cbn [ws isConnected reconnectAttempts subscribers heartbeatInterval
           fst snd]; rewrite ?Hcap; reflexivity.
  - destruct (state_of (run evs init)) as [[w|] c n l [|]]; reflexivity.
Qed.

(** X6. In every run from construction the subscription list has no
    duplicate, so a resubscribe pass sends at most one request per
    symbol. *)
Theorem X6_subscriptions_without_duplicates (evs : list Event) :
  NoDup (subscribers (state_of (run evs init))) /\
  NoDup (subscribedSymbols (getStatus (state_of (run evs init)))).
Proof.
  destruct (run_invariants evs init) as (_ & _ & H).
  split; apply H; apply NoDup_nil; exact I.
Qed.

End ConnectionRuns.

(** ** Inbound frames *)

Section InboundFrames.

Import WebSocketService WebSocketCodec.

Lemma ticker_signals (items : list (option TickerItem.t)) :
  flat_map (fun item => match _parsePriceData item with
                        | Some cryptoData => [priceUpdate cryptoData]
                        | None => []
                        end) items
  = map priceUpdate (omap _parsePriceData items).
Proof.
  induction items as [|item items IH]; [reflexivity|].
  cbn [flat_map omap list_omap]. rewrite IH.
  destruct (_parsePriceData item); reflexivity.
Qed.

(** The signals of a decoded frame, case by case. *)
Lemma on_message_cases (f : Frame.t) :
  on_message (Decoded (Some f)) =
    if is_str (Frame.event f) "subscribe" then []
    else if is_str (Frame.event f) "error" then [error (Frame.msg f)]
    else match Frame.data f with
         | Some items =>
             if is_str (Frame.arg_channel f) "tickers"
             then map priceUpdate (omap _parsePriceData items)
             else []
         | None => []
         end.
Proof.
  unfold on_message, _handleMessage. cbn [mbind exc_mbind exc_bind].
  destruct (is_str (Frame.event f) "subscribe"); [reflexivity|].
  destruct (is_str (Frame.event f) "error"); [reflexivity|].
  destruct (Frame.data f) as [items|]; [|reflexivity].
  destruct (is_str (Frame.arg_channel f) "tickers"); [|reflexivity].
  cbn [try_catch]. apply ticker_signals.
Qed.

(** X7. Handling an inbound message never changes the connection state
    and writes nothing but signals.  A message that is not JSON and a
    [null] frame give exactly one ['error'] signal; an error frame gives
    one ['error'] signal carrying its [msg], whatever else it carries; a
    subscription acknowledgement gives no signal; a frame without a [data]
    array or on another channel gives none; a ticker frame gives one
    ['priceUpdate'] per item that parses, in the order of the items. *)
Theorem X7_inbound_frames_only_signal :
  (forall raw st, step (ws_message raw) st = (tt, st, map Emit (on_message raw))) /\
  (forall why, on_message (Malformed why) = [error (JStr why)]) /\
  (exists e, on_message (Decoded None) = [error e]) /\
  (forall f,
     is_str (Frame.event f) "subscribe" = true ->
     on_message (Decoded (Some f)) = []) /\
  (forall f,
     is_str (Frame.event f) "subscribe" = false ->
     is_str (Frame.event f) "error" = true ->
     on_message (Decoded (Some f)) = [error (Frame.msg f)]) /\
  (forall f,
     is_str (Frame.event f) "subscribe" = false ->
     is_str (Frame.event f) "error" = false ->
     on_message (Decoded (Some f)) =
       match Frame.data f with
       | Some items =>
           if is_str (Frame.arg_channel f) "tickers"
           then map priceUpdate (omap _parsePriceData items)
           else []
       | None => []
       end).
Proof.
  split; [exact step_message|]. split; [reflexivity|].
  split; [eexists; reflexivity|].
  split; [|split].
  - intros f Hack. rewrite on_message_cases, Hack. reflexivity.
  - intros f Hack Herr. rewrite on_message_cases, Hack, Herr. reflexivity.
  - intros f Hack Herr. rewrite on_message_cases, Hack, Herr. reflexivity.
Qed.

End InboundFrames.

(** ** Alert records over time *)

Section AlertRecords.

Import NotificationService.

(** X8. Without an alert key ([null], the default, or the empty string)
    [sendWechatAlert] never suppresses and never records: every call is
    sent, returns what the delivery returned, and leaves the records and
    the timers as they were. *)
Theorem X8_no_key_no_deduplication content alertKey outcome now st :
  alertKey = None \/ alertKey = Some EmptyString ->
  sendWechatAlert content alertKey outcome now st
    = (success_of outcome, [content], st).
Proof.
  intros [-> | ->]; unfold sendWechatAlert, is_duplicate, sendWechatAlert_resume;
    cbn [truthy_key String.eqb]; destruct outcome; reflexivity.
Qed.

Lemma X8_witness_default_key :
  sendWechatAlert [Lit "a"] None Delivered 5 init = (true, [[Lit "a"]], init) /\
  sendWechatAlert [Lit "b"] None Delivered 6 init = (true, [[Lit "b"]], init).
Proof.
  split; apply X8_no_key_no_deduplication; left; reflexivity.
Defined.

Lemma reachable_stamps (now : Z) (st : State) :
  reachable_at now st ->
  forall k stamp, sentAlerts st !! k = Some stamp -> stamp <= now.
Proof.
  induction 1 as [now | now now' op st _ IH Hle]; intros k stamp Hrec.
  - cbn in Hrec. rewrite lookup_empty in Hrec. discriminate Hrec.
  - assert (Hfired : forall k stamp,
               sentAlerts (fire_due now' st) !! k = Some stamp -> stamp <= now').
    { intros k' stamp' H'. apply fire_due_only_deletes in H'.
      specialize (IH k' stamp' H'). lia. }
    unfold apply_at in Hrec. destruct op as [content alertKey outcome|].
    + unfold sendWechatAlert in Hrec.
      destruct (is_duplicate alertKey (fire_due now' st));
        [exact (Hfired k stamp Hrec)|].
      unfold sendWechatAlert_resume in Hrec.
      destruct outcome; try exact (Hfired k stamp Hrec).
      destruct (truthy_key alertKey) as [k'|]; [|exact (Hfired k stamp Hrec)].
      cbn [snd sentAlerts] in Hrec.
      apply lookup_insert_Some in Hrec as [[_ <-] | [_ Hrec]];
        [lia | exact (Hfired k stamp Hrec)].
    + unfold cleanup in Hrec. cbn [sentAlerts] in Hrec.
      apply map_lookup_filter_Some in Hrec as [Hrec _].
      exact (Hfired k stamp Hrec).
Qed.

(** X9. In every run in which each request settles before the next call,
    a record of [sentAlerts] is never older than the cooldown period: its
    stamp lies within the last 60000 ms.  The cleanup task, which deletes
    records older than one hour, therefore never deletes anything in such
    a run. *)
Theorem X9_records_younger_than_cooldown (now : Z) (st : State) :
  reachable_at now st ->
  (forall k stamp,
     sentAlerts st !! k = Some stamp -> stamp <= now < stamp + 60000) /\
  cleanup now st = st.
Proof.
  intros Hreach. pose proof (reachable_consistent now st Hreach) as Hcons.
  split.
  - intros k stamp Hrec. split; [exact (reachable_stamps now st Hreach k stamp Hrec)|].
    destruct Hcons as [Htimers Hrecords].
    destruct (Htimers _ _ (Hrecords k stamp Hrec)) as [Hdue _].
    exact Hdue.
  - apply consistent_cleanup. exact Hcons.
Qed.

Lemma X9_witness_one_record :
  let st := apply_at 1000 (op_send [Lit "a"] (Some "k") Delivered) init in
  reachable_at 1000 st /\
  sentAlerts st !! "k" = Some 1000 /\
  cleanup 1000 st = st.
Proof.
  cbv zeta.
  assert (H : reachable_at 1000
                (apply_at 1000 (op_send [Lit "a"] (Some "k") Delivered) init)).
  { apply (reach_op 0 1000); [apply reach_start | lia]. }
  split; [exact H|]. split; [vm_compute; reflexivity|].
  exact (proj2 (X9_records_younger_than_cooldown 1000 _ H)).
Defined.

(** X10. Every record expires: one cooldown period after any moment of a
    run, once the timers have fired, no record and no timer is left and
    the count of active alerts is 0. *)
Theorem X10_records_expire (now later : Z) (st : State) :
  reachable_at now st ->
  now + config.alerts.cooldownPeriod <= later ->
  sentAlerts (fire_due later st) = ∅ /\
  cooldownTimers (fire_due later st) = [] /\
  getActiveAlertsCount (fire_due later st) = 0%nat.
Proof.
  intros Hreach Hlater.
  pose proof (reachable_consistent now st Hreach) as Hcons.
  assert (Hle : now <= later) by (unfold config.alerts.cooldownPeriod in *; lia).
  destruct (consistent_fire_due now later st Hcons Hle) as [Htimers Hrecords].
  assert (Hempty : sentAlerts (fire_due later st) = ∅).
  { apply map_empty. intros k.
    destruct (sentAlerts (fire_due later st) !! k) as [stamp|] eqn:Hrec;
      [|reflexivity].
    exfalso.
    destruct (Htimers _ _ (Hrecords k stamp Hrec)) as [Hdue _].
    apply fire_due_only_deletes in Hrec.
    pose proof (reachable_stamps now st Hreach k stamp Hrec). lia. }
  split; [exact Hempty|]. split.
  - destruct (cooldownTimers (fire_due later st)) as [|[due k] timers] eqn:Ht;
      [reflexivity|].
    exfalso. destruct (Htimers due k) as [_ Hrec].
    + rewrite ?Ht. apply list_elem_of_here.
    + rewrite Hempty, lookup_empty in Hrec. discriminate Hrec.
  - unfold getActiveAlertsCount. rewrite Hempty. apply map_size_empty.
Qed.

Lemma X10_witness_after_one_minute :
  let st := apply_at 1000 (op_send [Lit "a"] (Some "k") Delivered) init in
  getActiveAlertsCount st = 1%nat /\
  getActiveAlertsCount (fire_due 61000 st) = 0%nat.
Proof.
  cbv zeta. split; [vm_compute; reflexivity|].
  refine (proj2 (proj2 (X10_records_expire 1000 61000 _ _ _))).
  - apply (reach_op 0 1000); [apply reach_start | lia].
  - unfold config.alerts.cooldownPeriod. lia.
Defined.

(** X11. [clearAllAlerts()] empties the records but leaves the cooldown
    timers armed.  If a key recorded at [stamp] is cleared and then
    delivered again at [t1] before the old timer is due, the old timer
    deletes the new record at [stamp + 60000]: from then on, and before
    [t1 + 60000], the key is no longer held back. *)
Theorem X11_clearAllAlerts_keeps_timers
    (now stamp t1 t2 : Z) (k : string) content (st : State) :
  reachable_at now st ->
  sentAlerts st !! k = Some stamp ->
  k <> EmptyString ->
  now <= t1 < stamp + config.alerts.cooldownPeriod ->
  stamp + config.alerts.cooldownPeriod <= t2 ->
  let cleared := clearAllAlerts st in
  let st1 := (sendWechatAlert content (Some k) Delivered t1
                (fire_due t1 cleared)).2 in
  getActiveAlertsCount cleared = 0%nat /\
  cooldownTimers cleared = cooldownTimers st /\
  sentAlerts st1 !! k = Some t1 /\
  sentAlerts (fire_due t2 st1) !! k = None.
Proof.
  intros Hreach Hrec Hk Ht1 Ht2 cleared st1.
  destruct (reachable_consistent now st Hreach) as [Htimers Hrecords].
  pose proof (Hrecords k stamp Hrec) as Htimer.
  assert (Hnone : sentAlerts (fire_due t1 cleared) !! k = None).
  { destruct (sentAlerts (fire_due t1 cleared) !! k) as [x|] eqn:E; [|reflexivity].
    apply fire_due_only_deletes in E. subst cleared. cbn in E.
    rewrite lookup_empty in E. discriminate E. }
  assert (Hst1 : st1 =
            {| sentAlerts := <[k := t1]> (sentAlerts (fire_due t1 cleared));
               cooldownTimers :=
                 cooldownTimers (fire_due t1 cleared)
                 ++ [(t1 + config.alerts.cooldownPeriod, k)] |}).
  { subst st1. rewrite (sendWechatAlert_fresh content k Delivered t1 _ Hk Hnone).
    reflexivity. }
  split; [reflexivity|]. split; [reflexivity|]. split.
  - rewrite Hst1. cbn [sentAlerts]. apply lookup_insert_eq.
  - apply (fire_due_removes t2 (stamp + config.alerts.cooldownPeriod)); [|exact Ht2].
    rewrite Hst1. cbn [cooldownTimers]. apply elem_of_app. left.
    apply fire_due_timers. split; [exact Htimer|]. cbn [fst]. lia.
Qed.

Lemma X11_witness_cleared_then_delivered :
  let st := apply_at 0 (op_send [Lit "a"] (Some "k") Delivered) init in
  let st1 := (sendWechatAlert [Lit "b"] (Some "k") Delivered 30000
                (fire_due 30000 (clearAllAlerts st))).2 in
  sentAlerts st1 !! "k" = Some 30000 /\
  sentAlerts (fire_due 60000 st1) !! "k" = None.
Proof.
  cbv zeta.
  refine (proj2 (proj2 (X11_clearAllAlerts_keeps_timers 0 0 30000 60000 "k"
                          [Lit "b"] _ _ _ _ _ _))).
  - apply (reach_op 0 0); [apply reach_start | lia].
  - vm_compute. reflexivity.
  - discriminate.
  - unfold config.alerts.cooldownPeriod. lia.
  - unfold config.alerts.cooldownPeriod. lia.
Defined.

End AlertRecords.

(** ** The tracker on one tick *)

Section TrackerTicks.

Import PriceMonitorService.

(** The part of the state an update never touches, and the store it
    always does. *)
Lemma update_store symbol data st :
  cryptoData (updateCryptoData symbol data st).1 = <[symbol := data]> (cryptoData st) /\
  notificationService (updateCryptoData symbol data st).1 = notificationService st.
Proof.
  destruct (priceThresholds st !! symbol) as [thresholds|] eqn:Hband.
  - destruct (gt (PriceData.price data) (Thresholds.max thresholds)) eqn:Hmax;
      [|destruct (lt (PriceData.price data) (Thresholds.min thresholds)) eqn:Hmin].
    + destruct (updateCryptoData_exceeded symbol data thresholds st type_max
                  (Thresholds.max thresholds) Hband (conj Hmax eq_refl))
        as (_ & _ & _ & Hc & _ & Hn). split; assumption.
    + destruct (updateCryptoData_exceeded symbol data thresholds st type_min
                  (Thresholds.min thresholds) Hband
                  (conj Hmax (conj Hmin eq_refl)))
        as (_ & _ & _ & Hc & _ & Hn). split; assumption.
    + rewrite (updateCryptoData_inside symbol data thresholds st Hband Hmax Hmin).
      split; reflexivity.
  - rewrite (update_without_thresholds symbol data st Hband). split; reflexivity.
Qed.

Lemma no_entry_output_requests symbol st :
  requests (no_entry_output symbol st) = [].
Proof. unfold no_entry_output. destruct (truthy_property _); reflexivity. Qed.

Lemma logPriceChange_no_warning symbol data previousData s :
  ~ In (warn_no_thresholds s) (_logPriceChange symbol data previousData).
Proof.
  unfold _logPriceChange. destruct previousData as [previous|]; [|intros []].
  destruct (ge _ _); [|intros []]. intros [H | []]. discriminate H.
Qed.

Lemma getThresholds_None symbol st :
  getThresholds symbol st = None <->
  truthy_property (read_key symbol (priceThresholds st)) = false.
Proof.
  unfold getThresholds. cbv zeta.
  destruct (read_key symbol (priceThresholds st)) as [[t | [name | x]]|]; cbn;
    try (split; intros H; discriminate H); try (split; reflexivity).
  destruct (truthy x); split; intros H; try reflexivity; discriminate H.
Qed.

(** X12. A tick for a symbol that has no thresholds entry is stored as the
    latest price and changes nothing else: no alert, no request, no entry
    is created, the alert records are not touched.  The warning is printed
    exactly when [this.priceThresholds[symbol]] is falsy, that is when
    [getThresholds] answers [null].  The table is a plain object and the
    symbol comes from [instId] as it is: for a symbol spelled like a
    member of [Object.prototype] the read finds the inherited member and
    nothing is printed; for any other symbol, as long as no entry was
    written under [__proto__], the warning is printed. *)
Theorem X12_symbol_without_thresholds symbol data st :
  priceThresholds st !! symbol = None ->
  let r := updateCryptoData symbol data st in
  getCryptoData symbol r.1 = Some data /\
  priceThresholds r.1 = priceThresholds st /\
  getThresholds symbol r.1 = getThresholds symbol st /\
  notificationService r.1 = notificationService st /\
  requests r.2 = [] /\
  alerts_logged r.2 = [] /\
  (In (warn_no_thresholds symbol) r.2 <-> getThresholds symbol st = None) /\
  (symbol ∈ Object_prototype -> forall s, ~ In (warn_no_thresholds s) r.2) /\
  ((symbol ∉ Object_prototype) ->
   priceThresholds st !! "__proto__" = None ->
   In (warn_no_thresholds symbol) r.2).
Proof.
  intros Hnone r. subst r.
  rewrite (update_without_thresholds symbol data st Hnone).
  cbn [fst snd]. unfold getCryptoData, stored.
  cbn [cryptoData priceThresholds notificationService].
  split; [apply lookup_insert_eq|]. split; [reflexivity|].
  split; [reflexivity|]. split; [reflexivity|].
  split; [rewrite requests_app, no_entry_output_requests;
          apply logPriceChange_requests|].
  split; [rewrite alerts_logged_app, no_entry_output_alerts;
          apply logPriceChange_alerts|].
  assert (Hwarn : forall s,
            In (warn_no_thresholds s)
               (no_entry_output symbol st
                ++ _logPriceChange symbol data (cryptoData st !! symbol)) ->
            s = symbol /\
            truthy_property (read_key symbol (priceThresholds st)) = false).
  { intros s Hin. apply in_app_or in Hin as [Hin | Hin].
    - unfold no_entry_output in Hin.
      destruct (truthy_property _); [destruct Hin|].
      destruct Hin as [H | []]. injection H as <-. auto.
    - destruct (logPriceChange_no_warning _ _ _ _ Hin). }
  assert (Hfalsy : truthy_property (read_key symbol (priceThresholds st)) = false ->
            In (warn_no_thresholds symbol)
               (no_entry_output symbol st
                ++ _logPriceChange symbol data (cryptoData st !! symbol))).
  { intros H. apply in_or_app. left. unfold no_entry_output. rewrite H.
    left. reflexivity. }
  split; [|split].
  - rewrite getThresholds_None. split; [intros H; apply (Hwarn _ H) | exact Hfalsy].
  - intros Hproto s Hin. apply Hwarn in Hin as [_ Hin].
    unfold read_key, inherited in Hin. rewrite Hnone in Hin.
    rewrite bool_decide_eq_true_2 in Hin by exact Hproto. discriminate Hin.
  - intros Hproto Hnoproto. apply Hfalsy.
    unfold read_key, inherited. rewrite Hnone, Hnoproto.
    rewrite bool_decide_eq_false_2 by exact Hproto. reflexivity.
Qed.

Lemma X12_witness_unknown_symbol :
  let r := updateCryptoData "XRPUSDT" (tick "XRPUSDT" 2 1) init in
  let r' := updateCryptoData "constructor" (tick "constructor" 2 1) init in
  priceThresholds init !! "XRPUSDT" = None /\
  getCryptoData "XRPUSDT" r.1 = Some (tick "XRPUSDT" 2 1) /\
  requests r.2 = [] /\
  In (warn_no_thresholds "XRPUSDT") r.2 /\
  getCryptoData "constructor" r'.1 = Some (tick "constructor" 2 1) /\
  r'.2 = [].
Proof.
  cbv zeta.
  assert (Hnone : priceThresholds init !! "XRPUSDT" = None)
    by (vm_compute; reflexivity).
  destruct (X12_symbol_without_thresholds "XRPUSDT" (tick "XRPUSDT" 2 1) init Hnone)
    as (Hdata & _ & _ & _ & Hreq & _ & Hwarn & _).
  assert (Hnone' : priceThresholds init !! "constructor" = None)
    by (vm_compute; reflexivity).
  destruct (X12_symbol_without_thresholds "constructor" (tick "constructor" 2 1)
              init Hnone')
    as (Hdata' & _).
  split; [exact Hnone|]. split; [exact Hdata|]. split; [exact Hreq|].
  split; [apply Hwarn; vm_compute; reflexivity|].
  split; [exact Hdata' | vm_compute; reflexivity].
Defined.

Lemma read_key_insert_ne other symbol t (table : gmap string Thresholds.t) :
  other <> symbol -> symbol <> "__proto__" ->
  read_key other (<[symbol := t]> table) = read_key other table.
Proof.
  intros Hne Hproto. unfold read_key, inherited.
  rewrite !lookup_insert_ne by congruence. reflexivity.
Qed.

(** X13. Every update stores its tick as the latest price of its symbol
    and is confined to that symbol: the latest price and the thresholds
    entry of every other symbol stay as they were, and so does what
    [getThresholds] answers for them (unless the symbol updated is
    [__proto__]: a rebase written under that key replaces the prototype
    of the table, which is what the names [min] and [max] read); the
    number of monitored symbols grows by one exactly when the symbol is
    new.  The alert records are never changed by the update itself. *)
Theorem X13_update_is_per_symbol symbol data st :
  let r := updateCryptoData symbol data st in
  getCryptoData symbol r.1 = Some data /\
  (forall other, other <> symbol ->
     getCryptoData other r.1 = getCryptoData other st /\
     priceThresholds r.1 !! other = priceThresholds st !! other /\
     (symbol <> "__proto__" ->
      getThresholds other r.1 = getThresholds other st)) /\
  notificationService r.1 = notificationService st /\
  (getStats r.1).1 =
    (if bool_decide (is_Some (getCryptoData symbol st))
     then (getStats st).1 else S (getStats st).1).
Proof.
  cbv zeta. destruct (update_store symbol data st) as [Hc Hn].
  unfold getCryptoData, getThresholds, getStats. cbn [fst].
  rewrite Hc, Hn. split; [apply lookup_insert_eq|]. split; [|split].
  - intros other Hne. split; [apply lookup_insert_ne; congruence|].
    destruct (priceThresholds_update symbol data st) as [-> | ->].
    + split; reflexivity.
    + split; [apply lookup_insert_ne; congruence|].
      intros Hproto. cbv zeta.
      rewrite (read_key_insert_ne other symbol _ _ Hne Hproto). reflexivity.
  - reflexivity.
  - destruct (cryptoData st !! symbol) as [old|] eqn:Hold.
    + rewrite bool_decide_eq_true_2 by eauto.
      apply map_size_insert_Some. eauto.
    + rewrite bool_decide_eq_false_2 by (intros [x Hx]; discriminate Hx).
      apply map_size_insert_None. exact Hold.
Qed.

(** A price that is at least zero lies inside the band rebased around
    it. *)
Lemma price_inside_rebased (price : num) :
  ge price (ofZ 0) = true ->
  gt price (Thresholds.max (rebased price)) = false /\
  lt price (Thresholds.min (rebased price)) = false.
Proof.
  rewrite rebased_eq. cbn [Thresholds.min Thresholds.max]. unfold ge, gt.
  destruct price as [| | |q]; cbn; try congruence; [split; reflexivity|].
  rewrite Qleb_true. intros Hq. unfold fin. rewrite !Qltb_false.
  rewrite !Qred_correct. unfold inject_Z in Hq. split; lra.
Qed.

(** X14. A tick that has just been processed does not alert when it comes
    again: after an update with a price that is at least zero, the same
    tick for the same symbol starts no request, logs no alert and leaves
    the thresholds as they are (after a crossing the price lies inside the
    rebased band). *)
Theorem X14_repeated_tick_is_silent symbol data st :
  ge (PriceData.price data) (ofZ 0) = true ->
  let st1 := (updateCryptoData symbol data st).1 in
  let r := updateCryptoData symbol data st1 in
  requests r.2 = [] /\
  alerts_logged r.2 = [] /\
  priceThresholds r.1 = priceThresholds st1.
Proof.
  intros Hprice st1 r.
  destruct (priceThresholds st1 !! symbol) as [band|] eqn:Hband1.
  - assert (Hin : gt (PriceData.price data) (Thresholds.max band) = false /\
                  lt (PriceData.price data) (Thresholds.min band) = false).
    { subst st1.
      destruct (priceThresholds st !! symbol) as [thresholds|] eqn:Hband.
      - destruct (gt (PriceData.price data) (Thresholds.max thresholds)) eqn:Hmax;
          [|destruct (lt (PriceData.price data) (Thresholds.min thresholds)) eqn:Hmin].
        + destruct (updateCryptoData_exceeded symbol data thresholds st type_max
                      (Thresholds.max thresholds) Hband (conj Hmax eq_refl))
            as (_ & _ & _ & _ & Ht & _).
          rewrite Ht, lookup_insert_eq in Hband1. injection Hband1 as <-.
          apply price_inside_rebased. exact Hprice.
        + destruct (updateCryptoData_exceeded symbol data thresholds st type_min
                      (Thresholds.min thresholds) Hband
                      (conj Hmax (conj Hmin eq_refl)))
            as (_ & _ & _ & _ & Ht & _).
          rewrite Ht, lookup_insert_eq in Hband1. injection Hband1 as <-.
          apply price_inside_rebased. exact Hprice.
        + rewrite (updateCryptoData_inside symbol data thresholds st Hband Hmax Hmin)
            in Hband1.
          cbn [fst stored priceThresholds] in Hband1.
          rewrite Hband in Hband1. injection Hband1 as <-. split; assumption.
      - rewrite (update_without_thresholds symbol data st Hband) in Hband1.
        cbn [fst stored priceThresholds] in Hband1.
        rewrite Hband in Hband1. discriminate Hband1. }
    destruct Hin as [Hmax Hmin]. subst r.
    rewrite (updateCryptoData_inside symbol data band st1 Hband1 Hmax Hmin).
    cbn [fst snd stored priceThresholds].
    split; [apply logPriceChange_requests|].
    split; [apply logPriceChange_alerts | reflexivity].
  - subst r. rewrite (update_without_thresholds symbol data st1 Hband1).
    cbn [fst snd stored priceThresholds].
    split; [rewrite requests_app, no_entry_output_requests;
            apply logPriceChange_requests|].
    split; [rewrite alerts_logged_app, no_entry_output_alerts;
            apply logPriceChange_alerts | reflexivity].
Qed.

Lemma X14_witness_tick_111_twice :
  let data := tick "BTCUSDT" 111 100 in
  let st1 := (updateCryptoData "BTCUSDT" data btc_100_110).1 in
  requests (updateCryptoData "BTCUSDT" data btc_100_110).2 <> [] /\
  requests (updateCryptoData "BTCUSDT" data st1).2 = [].
Proof.
  cbv zeta. split; [vm_compute; discriminate|].
  refine (proj1 (X14_repeated_tick_is_silent "BTCUSDT" (tick "BTCUSDT" 111 100)
                   btc_100_110 _)).
  vm_compute. reflexivity.
Defined.

End TrackerTicks.

(** ** The main service *)

Section MainService.

Import CryptoMonitorService.

(** X15. [addSymbol] refuses a symbol that [isValidSymbol] rejects:
    it returns [false] and changes nothing.  For a valid symbol it
    subscribes and returns whether the request could be written; the
    thresholds given with the call are stored only in that case, so a
    symbol added while the service is not connected stays in the
    subscription list but its thresholds are dropped.  Price data is never
    touched. *)
Theorem X15_addSymbol_offline_drops_thresholds
    (symbol : jsval) (thresholds : option Thresholds.t) (app : App) :
  let r := addSymbol symbol thresholds app in
  let connected := WebSocketService.can_send (webSocketService app) in
  (helpers.isValidSymbol symbol = false -> r = (false, app, [])) /\
  (forall s,
     symbol = JStr s -> helpers.isValidSymbol symbol = true ->
     r.1.1 = connected /\
     s ∈ WebSocketService.subscribers (webSocketService r.1.2) /\
     PriceMonitorService.cryptoData (priceMonitorService r.1.2)
       = PriceMonitorService.cryptoData (priceMonitorService app) /\
     match thresholds with
     | Some t =>
         if connected
         then PriceMonitorService.getThresholds s (priceMonitorService r.1.2)
              = Some (PriceMonitorService.own t)
         else priceMonitorService r.1.2 = priceMonitorService app
     | None => priceMonitorService r.1.2 = priceMonitorService app
     end).
Proof.
  cbv zeta. split.
  - intros Hinvalid. unfold addSymbol. rewrite Hinvalid. reflexivity.
  - intros s -> Hvalid. unfold addSymbol. rewrite Hvalid. cbn [negb].
    rewrite subscribe_result. cbn [fst snd webSocketService priceMonitorService].
    split; [reflexivity|]. split.
    { cbn [WebSocketService.subscribers].
      destruct (bool_decide (s ∈ WebSocketService.subscribers (webSocketService app)))
        eqn:Hmem.
      - apply bool_decide_eq_true in Hmem. exact Hmem.
      - apply elem_of_app. right. apply list_elem_of_singleton. reflexivity. }
    destruct thresholds as [[mn mx]|]; [|split; reflexivity].
    destruct (WebSocketService.can_send (webSocketService app));
      [|split; reflexivity].
    split; [reflexivity|].
    unfold PriceMonitorService.getThresholds, PriceMonitorService.read_key,
      PriceMonitorService.setThresholds.
    cbn [PriceMonitorService.priceThresholds Thresholds.min Thresholds.max].
    rewrite lookup_insert_eq. reflexivity.
Qed.

Lemma X15_witness_added_before_connecting :
  let band := Thresholds.mk (ofZ 1) (ofZ 2) in
  let r := addSymbol (JStr "XRPUSDT") (Some band) init in
  r.1.1 = false /\
  "XRPUSDT" ∈ WebSocketService.subscribers (webSocketService r.1.2) /\
  PriceMonitorService.getThresholds "XRPUSDT" (priceMonitorService r.1.2) = None.
Proof.
  cbv zeta.
  destruct (X15_addSymbol_offline_drops_thresholds (JStr "XRPUSDT")
              (Some (Thresholds.mk (ofZ 1) (ofZ 2))) init) as [_ H].
  destruct (H "XRPUSDT" eq_refl eq_refl) as (Hret & Hsub & _ & Hthr).
  split; [exact Hret|]. split; [exact Hsub|].
  cbv zeta in Hthr.
  change (WebSocketService.can_send (webSocketService init)) with false in Hthr.
  cbv iota in Hthr. rewrite Hthr. vm_compute. reflexivity.
Defined.

(** What the listeners do with signals that contain no exhaustion
    signal. *)
Lemma dispatch_without_exhaustion (signals : list Signal) (app : App) :
  Forall (fun s => s <> maxReconnectAttemptsReached) signals ->
  dispatch signals app =
    ({| webSocketService := webSocketService app;
        priceMonitorService := (on_signals signals (priceMonitorService app)).1;
        isRunning := isRunning app |},
     mkOutput [] (on_signals signals (priceMonitorService app)).2 []).
Proof.
  revert app. induction signals as [|s signals IH]; intros app Hno.
  - destruct app; reflexivity.
  - apply Forall_cons in Hno as [Hs Hno].
    destruct s as [| code reason | msg | cryptoData |].
    + cbn [dispatch on_signals on_signal]. rewrite (IH app Hno).
      destruct (on_signals signals (priceMonitorService app)); reflexivity.
    + cbn [dispatch on_signals on_signal]. rewrite (IH app Hno).
      destruct (on_signals signals (priceMonitorService app)); reflexivity.
    + cbn [dispatch on_signals on_signal]. rewrite (IH app Hno).
      destruct (on_signals signals (priceMonitorService app)); reflexivity.
    + cbn [dispatch on_signals on_signal].
      destruct (PriceMonitorService.updateCryptoData (PriceData.symbol cryptoData)
                  cryptoData (priceMonitorService app)) as [pm' out].
      rewrite (IH _ Hno). cbn [webSocketService priceMonitorService isRunning].
      destruct (on_signals signals pm'); reflexivity.
    + contradiction.
Qed.

Lemma on_message_no_exhaustion raw :
  Forall (fun s => s <> maxReconnectAttemptsReached) (WebSocketCodec.on_message raw).
Proof.
  destruct raw as [why | [f|]].
  - repeat constructor. discriminate.
  - rewrite on_message_cases.
    destruct (WebSocketCodec.is_str (Frame.event f) "subscribe"); [constructor|].
    destruct (WebSocketCodec.is_str (Frame.event f) "error");
      [repeat constructor; discriminate|].
    destruct (Frame.data f) as [items|]; [|constructor].
    destruct (WebSocketCodec.is_str (Frame.arg_channel f) "tickers");
      [|constructor].
    apply Forall_forall. intros s Hs. apply list_elem_of_In, in_map_iff in Hs.
    destruct Hs as (d & <- & _). discriminate.
  - repeat constructor. discriminate.
Qed.

Lemma on_signals_app l1 l2 st :
  on_signals (l1 ++ l2) st =
    ((on_signals l2 (on_signals l1 st).1).1,
     (on_signals l1 st).2 ++ (on_signals l2 (on_signals l1 st).1).2).
Proof.
  revert st. induction l1 as [|s l1 IH]; intros st.
  - cbn [app on_signals fst snd]. destruct (on_signals l2 st); reflexivity.
  - cbn [app on_signals]. destruct (on_signal s st) as [st1 out1].
    rewrite IH. destruct (on_signals l1 st1) as [st2 out2]. cbn [fst snd].
    destruct (on_signals l2 st2) as [st3 out3]. cbn [fst snd].
    rewrite app_assoc. reflexivity.
Qed.

(** A symbol that holds a price still holds one after more signals. *)
Lemma on_signals_keeps_tracked signals symbol st :
  is_Some (PriceMonitorService.getCryptoData symbol st) ->
  is_Some (PriceMonitorService.getCryptoData symbol (on_signals signals st).1).
Proof.
  revert st. induction signals as [|s signals IH]; intros st Hsome; [exact Hsome|].
  cbn [on_signals]. destruct (on_signal s st) as [st1 out1] eqn:Hs.
  specialize (IH st1). destruct (on_signals signals st1) as [st2 out2].
  cbn [fst] in *. apply IH.
  destruct s; cbn [on_signal] in Hs; try (injection Hs as <- _; exact Hsome).
  apply (f_equal fst) in Hs. cbn [fst] in Hs. subst st1.
  unfold PriceMonitorService.getCryptoData in *.
  rewrite (proj1 (update_store _ _ _)).
  apply lookup_insert_is_Some'. right. exact Hsome.
Qed.

(** X16. A frame reaches the tracker through the listeners and touches
    nothing else: the connection state and the run flag are unchanged and
    the process does not exit.  Every item of a ticker frame that parses
    is stored under the symbol the parser gave it; after the frame each of
    those symbols holds a price, and the symbol of the last item of the
    frame, when it parses, holds exactly that item's tick. *)
Theorem X16_frame_reaches_tracker (raw : WebSocketCodec.RawMessage) (app : App) :
  let r := on_event (WebSocketService.ws_message raw) app in
  webSocketService r.1 = webSocketService app /\
  isRunning r.1 = isRunning app /\
  process_out r.2 = [] /\
  priceMonitorService r.1 = (on_raw_message raw (priceMonitorService app)).1 /\
  monitor_out r.2 = (on_raw_message raw (priceMonitorService app)).2 /\
  (forall event msg id items d,
     raw = WebSocketCodec.Decoded
             (Some (Frame.mk event msg (JStr "tickers") id (Some items))) ->
     WebSocketCodec.is_str event "subscribe" = false ->
     WebSocketCodec.is_str event "error" = false ->
     (In (Some d) (map WebSocketCodec._parsePriceData items) ->
      is_Some (PriceMonitorService.getCryptoData (PriceData.symbol d)
                 (priceMonitorService r.1))) /\
     (forall before item,
        items = before ++ [item] ->
        WebSocketCodec._parsePriceData item = Some d ->
        PriceMonitorService.getCryptoData (PriceData.symbol d)
          (priceMonitorService r.1) = Some d)).
Proof.
  cbv zeta.
  assert (Hr : on_event (WebSocketService.ws_message raw) app =
               ({| webSocketService := webSocketService app;
                   priceMonitorService :=
                     (on_raw_message raw (priceMonitorService app)).1;
                   isRunning := isRunning app |},
                mkOutput (map WebSocketService.Emit (WebSocketCodec.on_message raw))
                         (on_raw_message raw (priceMonitorService app)).2 [])).
  { unfold on_event. rewrite step_message.
    assert (Hem : WebSocketService.emitted
                    (map WebSocketService.Emit (WebSocketCodec.on_message raw))
                  = WebSocketCodec.on_message raw).
    { induction (WebSocketCodec.on_message raw) as [|s l IH]; [reflexivity|].
      cbn. f_equal. exact IH. }
    rewrite Hem.
    rewrite (dispatch_without_exhaustion _ _ (on_message_no_exhaustion raw)).
    cbn [webSocketService priceMonitorService isRunning ws_out monitor_out
         process_out]. rewrite app_nil_r. reflexivity. }
  rewrite Hr. cbn [fst snd webSocketService priceMonitorService isRunning
                   process_out monitor_out].
  repeat (split; [reflexivity|]).
  intros event msg id items d -> Hack Herr.
  unfold on_raw_message. rewrite on_message_cases.
  cbn [Frame.event Frame.data Frame.arg_channel]. rewrite Hack, Herr.
  cbn [WebSocketCodec.is_str String.eqb Ascii.eqb Bool.eqb andb].
  split.
  - intros Hin. apply in_map_iff in Hin as (item & Hitem & Hin).
    apply in_split in Hin as (l1 & l2 & ->).
    rewrite omap_app. cbn [omap list_omap]. rewrite Hitem.
    rewrite map_app, on_signals_app. cbn [fst map].
    cbn [on_signals on_signal].
    destruct (PriceMonitorService.updateCryptoData (PriceData.symbol d) d
                (on_signals (map priceUpdate (omap WebSocketCodec._parsePriceData l1))
                   (priceMonitorService app)).1) as [st1 out1] eqn:Hup.
    pose proof (on_signals_keeps_tracked
                  (map priceUpdate (omap WebSocketCodec._parsePriceData l2))
                  (PriceData.symbol d) st1) as Hkeep.
    destruct (on_signals (map priceUpdate (omap WebSocketCodec._parsePriceData l2)) st1)
      as [st2 out2].
    cbn [fst] in *. apply Hkeep.
    apply (f_equal fst) in Hup. cbn [fst] in Hup. subst st1.
    unfold PriceMonitorService.getCryptoData.
    rewrite (proj1 (update_store _ _ _)), lookup_insert_eq. eauto.
  - intros before item -> Hitem.
    rewrite omap_app. cbn [omap list_omap]. rewrite Hitem.
    rewrite map_app, on_signals_app. cbn [fst map on_signals on_signal].
    destruct (PriceMonitorService.updateCryptoData (PriceData.symbol d) d
                (on_signals (map priceUpdate
                               (omap WebSocketCodec._parsePriceData before))
                   (priceMonitorService app)).1) as [st1 out1] eqn:Hup.
    cbn [fst]. apply (f_equal fst) in Hup. cbn [fst] in Hup. subst st1.
    unfold PriceMonitorService.getCryptoData.
    rewrite (proj1 (update_store _ _ _)). apply lookup_insert_eq.
Qed.

(** X17. [removeSymbol] only unsubscribes: the stored price and the
    thresholds of the symbol stay, [getSymbolInfo] answers as before, and
    a frame that still arrives for the symbol is processed by the tracker
    exactly as if the symbol had not been removed.  [getSymbolInfo] is
    [null] as long as no tick was stored, thresholds or not. *)
Theorem X17_removeSymbol_only_unsubscribes (symbol : string) (app : App) :
  let r := removeSymbol symbol app in
  (symbol ∉ WebSocketService.subscribers (webSocketService r.1.2)) /\
  r.1.1 = WebSocketService.can_send (webSocketService app) /\
  priceMonitorService r.1.2 = priceMonitorService app /\
  (forall s, getSymbolInfo s r.1.2 = getSymbolInfo s app) /\
  (forall raw,
     priceMonitorService (on_event (WebSocketService.ws_message raw) r.1.2).1
     = priceMonitorService (on_event (WebSocketService.ws_message raw) app).1) /\
  (forall s,
     getSymbolInfo s app = None <->
     PriceMonitorService.getCryptoData s (priceMonitorService app) = None).
Proof.
  cbv zeta. unfold removeSymbol. rewrite unsubscribe_result.
  cbn [fst snd webSocketService priceMonitorService WebSocketService.subscribers].
  split; [|split; [|split; [|split; [|split]]]]; try reflexivity.
  - rewrite list_elem_of_filter. intros [H _]. apply H. reflexivity.
  - intros raw.
    unfold on_event. rewrite !step_message.
    assert (Hem : WebSocketService.emitted
                    (map WebSocketService.Emit (WebSocketCodec.on_message raw))
                  = WebSocketCodec.on_message raw).
    { induction (WebSocketCodec.on_message raw) as [|s l IH]; [reflexivity|].
      cbn. f_equal. exact IH. }
    rewrite Hem.
    rewrite !(dispatch_without_exhaustion _ _ (on_message_no_exhaustion raw)).
    reflexivity.
  - intros s. unfold getSymbolInfo.
    destruct (PriceMonitorService.getCryptoData s (priceMonitorService app));
      split; intros H; try reflexivity; discriminate H.
Qed.

(** X18. Reconnect exhaustion ends the process with exit status 0.  From a
    service whose counter is 0: while the connection drops and the first
    four reconnect attempts fail, the process does not exit; the close
    that follows the fifth failed attempt emits
    ['maxReconnectAttemptsReached'], whose listener disconnects (closing
    with code 1000), removes the listeners and calls [process.exit(0)].
    The tracker is left as it was. *)
Theorem X18_exhaustion_exits_with_status_0
    (app : App) (message : string) (code : Z) (reason : string) :
  WebSocketService.reconnectAttempts (webSocketService app) = 0 ->
  let failing := WebSocketService.drop_and_fail 4 message code reason in
  let last := WebSocketService.failed_reconnect message code reason in
  let r := on_events (failing ++ last) app in
  process_out (on_events failing app).2 = [] /\
  process_out r.2 = [removeAllListeners; process_exit 0] /\
  isRunning r.1 = false /\
  WebSocketService.ws (webSocketService r.1) = None /\
  WebSocketService.heartbeatInterval (webSocketService r.1) = false /\
  WebSocketService.closes (ws_out r.2) = [(1000, "Normal closure")] /\
  WebSocketService.reconnect_delays (ws_out r.2)
    = [5000; 10000; 15000; 20000; 25000] /\
  priceMonitorService r.1 = priceMonitorService app.
Proof.
  intros H0. destruct app as [[w c n l h] pm running].
  cbn [webSocketService WebSocketService.reconnectAttempts] in H0. subst n.
  cbv zeta. destruct w, h; vm_compute; repeat split; reflexivity.
Qed.

Lemma X18_witness_after_first_connect :
  let app := (on_events [WebSocketService.call_connect; WebSocketService.ws_open]
                init).1 in
  WebSocketService.reconnectAttempts (webSocketService app) = 0 /\
  process_out
    (on_events (WebSocketService.drop_and_fail 4 "ECONNREFUSED" 1006 EmptyString
                ++ WebSocketService.failed_reconnect "ECONNREFUSED" 1006 EmptyString)
               app).2
  = [removeAllListeners; process_exit 0].
Proof.
  cbv zeta. split; [vm_compute; reflexivity|].
  refine (proj1 (proj2 (X18_exhaustion_exits_with_status_0 _ "ECONNREFUSED" 1006
                          EmptyString _))).
  vm_compute. reflexivity.
Defined.

End MainService.

(** ** The helpers of [src/utils/helpers.js] *)

Section Helpers.

Import helpers JsString.

Ltac q_props :=
  repeat match goal with
  | H : Qltb _ _ = true |- _ => apply Qltb_true in H
  | H : Qltb _ _ = false |- _ => apply Qltb_false in H
  | H : Qleb _ _ = true |- _ => apply Qleb_true in H
  | H : Qleb _ _ = false |- _ => apply Qleb_false in H
  | |- Qltb _ _ = true => apply Qltb_true
  | |- Qltb _ _ = false => apply Qltb_false
  | |- Qleb _ _ = true => apply Qleb_true
  | |- Qleb _ _ = false => apply Qleb_false
  end.

Ltac q_ifs :=
  repeat match goal with
  | |- context [if Qltb ?a ?b then _ else _] =>
      let E := fresh "E" in destruct (Qltb a b) eqn:E
  end.

(** X19. [clamp(value, min, max)]: with [min <= max] the result lies in
    the range, is [value] itself when [value] is in the range, and is the
    bound that [value] passed otherwise.  The bounds are not checked: with
    [max < min] the result is [max] whatever [value] is.  A [NaN] in any
    argument gives [NaN]. *)
Theorem X19_clamp (value mn mx : num) :
  (isNaN value || isNaN mn || isNaN mx = true -> clamp value mn mx = NaN) /\
  (isNaN value = false -> isNaN mn = false -> isNaN mx = false ->
   (le mn mx = true ->
      le mn (clamp value mn mx) = true /\
      le (clamp value mn mx) mx = true /\
      (le mn value = true -> le value mx = true -> clamp value mn mx = value) /\
      (lt value mn = true -> clamp value mn mx = mn) /\
      (lt mx value = true -> clamp value mn mx = mx)) /\
   (lt mx mn = true -> clamp value mn mx = mx)).
Proof.
  split.
  - destruct value as [| | |v], mn as [| | |a], mx as [| | |b];
      unfold clamp, Math_max, Math_min; cbn; intros H;
      try discriminate H; try reflexivity; q_ifs; reflexivity.
  - intros Hv Ha Hb.
    destruct value as [| | |v], mn as [| | |a], mx as [| | |b];
      try discriminate Hv; try discriminate Ha; try discriminate Hb;
      unfold clamp, Math_max, Math_min; cbn;
      (split; [intros Hle; repeat split; try intros H1; try intros H2
              | intros Hlt]);
      try discriminate; try reflexivity;
      q_ifs; cbn; try discriminate; try reflexivity;
      q_props; try lra.
Qed.

Lemma retry_from_spec {A : Type} (fn : nat -> exc A) (delayMs : Z)
    (retries call : nat) :
  let r := retry_from fn call retries delayMs in
  (call < r.1.2 <= call + retries + 1)%nat /\
  r.2 = repeat delayMs (r.1.2 - call - 1) /\
  r.1.1 = fn (r.1.2 - 1)%nat /\
  (forall i, (call <= i < r.1.2 - 1)%nat -> exists e, fn i = Throw e) /\
  (forall e, r.1.1 = Throw e -> r.1.2 = (call + retries + 1)%nat).
Proof.
  revert call. induction retries as [|retries IH]; intros call; cbv zeta.
  - cbn [retry_from]. destruct (fn call) as [a|e] eqn:Hfn; cbn [fst snd].
    + replace (S call - 1)%nat with call by lia.
      replace (S call - call - 1)%nat with 0%nat by lia.
      repeat split; try lia; auto.
    + replace (S call - 1)%nat with call by lia.
      replace (S call - call - 1)%nat with 0%nat by lia.
      repeat split; try lia; auto.
  - cbn [retry_from]. destruct (fn call) as [a|e] eqn:Hfn.
    + cbn [fst snd].
      replace (S call - 1)%nat with call by lia.
      replace (S call - call - 1)%nat with 0%nat by lia.
      repeat split; try lia; auto.
      intros e He. discriminate He.
    + specialize (IH (S call)). cbv zeta in IH.
      destruct (retry_from fn (S call) retries delayMs) as [[r calls] delays].
      cbn [fst snd] in *.
      destruct IH as (Hcalls & Hdelays & Hres & Hfail & Hlast).
      repeat split; try lia.
      * replace (calls - call - 1)%nat with (S (calls - S call - 1)) by lia.
        cbn [repeat]. rewrite Hdelays. reflexivity.
      * exact Hres.
      * intros i Hi. destruct (Nat.eq_dec i call) as [-> | Hne].
        -- exists e. exact Hfn.
        -- apply Hfail. lia.
      * intros e' He'. rewrite (Hlast e' He'). lia.
Qed.

(** X20. [retry(fn, retries, delayMs)] calls [fn] at least once and at
    most [retries + 1] times, and waits [delayMs] before each call after
    the first.  It settles with the outcome of the last call it made:
    every earlier call failed; when the result is an error, all
    [retries + 1] calls were made and failed (the error is that of the
    last one).  A [retries] of zero or less means a single call. *)
Theorem X20_retry_attempts {A : Type} (fn : nat -> exc A) (retries delayMs : Z) :
  let r := retry fn retries delayMs in
  let result := r.1.1 in
  let calls := r.1.2 in
  let delays := r.2 in
  (1 <= calls <= Z.to_nat retries + 1)%nat /\
  delays = repeat delayMs (calls - 1) /\
  result = fn (calls - 1)%nat /\
  (forall i, (i < calls - 1)%nat -> exists e, fn i = Throw e) /\
  (forall e, result = Throw e ->
     calls = (Z.to_nat retries + 1)%nat /\
     forall i, (i <= Z.to_nat retries)%nat -> exists e', fn i = Throw e') /\
  (retries <= 0 -> calls = 1%nat /\ result = fn 0%nat /\ delays = []).
Proof.
  cbv zeta. unfold retry.
  pose proof (retry_from_spec fn delayMs (Z.to_nat retries) 0) as H.
  cbv zeta in H.
  destruct (retry_from fn 0 (Z.to_nat retries) delayMs) as [[result calls] delays].
  cbn [fst snd] in *.
  destruct H as (Hcalls & Hdelays & Hres & Hfail & Hlast).
  replace (calls - 0 - 1)%nat with (calls - 1)%nat in Hdelays by lia.
  repeat split; try lia; try assumption.
  - intros i Hi. apply Hfail. lia.
  - rewrite (Hlast e H). lia.
  - intros i Hi. pose proof (Hlast e H) as Hn.
    destruct (Nat.eq_dec i (calls - 1)%nat) as [-> | Hne].
    + exists e. rewrite <- Hres. exact H.
    + apply Hfail. lia.
  - replace calls with 1%nat in Hres by lia. exact Hres.
  - replace calls with 1%nat in Hdelays by lia. exact Hdelays.
Qed.

Lemma throttled_step {A : Type} (limit now : Z) (args : A) (th : Throttle) :
  th = throttle \/ (exists d, th = mkThrottle true [d]) ->
  (throttled limit now args th = ([args], mkThrottle true [now + limit]) /\
   forall d, th = mkThrottle true [d] -> d <= now) \/
  (exists d, th = mkThrottle true [d] /\ now < d /\
             throttled limit now args th = ([], th)).
Proof.
  intros [-> | [d ->]].
  - left. split; [reflexivity|]. intros d H. discriminate H.
  - unfold throttled, throttle_elapse. cbn [resetTimers inThrottle existsb orb].
    destruct (Z.leb_spec d now) as [Hle | Hlt].
    + left. rewrite filter_cons_False, filter_nil by lia.
      cbn [inThrottle resetTimers app]. split; [reflexivity|].
      intros d' H. injection H as <-. exact Hle.
    + right. exists d. rewrite filter_cons_True, filter_nil by lia.
      cbn [inThrottle resetTimers]. auto.
Qed.

Lemma throttled_calls_spec {A : Type} (limit : Z) (calls : list (Z * A)) :
  forall th,
    th = throttle \/ (exists d, th = mkThrottle true [d]) ->
    throttled_calls limit calls th `sublist_of` calls /\
    Sorted (fun x y => x.1 + limit <= y.1) (throttled_calls limit calls th) /\
    (forall d c ran,
       th = mkThrottle true [d] ->
       throttled_calls limit calls th = c :: ran -> d <= c.1) /\
    (StronglySorted Z.le (map fst calls) ->
     forall t a,
       In (t, a) calls ->
       In (t, a) (throttled_calls limit calls th) \/
       (exists t' a', In (t', a') (throttled_calls limit calls th) /\
                      t' <= t < t' + limit) \/
       (exists d, th = mkThrottle true [d] /\ t < d)).
Proof.
  induction calls as [|[now args] rest IH]; intros th Hth.
  - cbn [throttled_calls]. repeat split.
    + constructor.
    + constructor.
    + intros d c ran _ H. discriminate H.
    + intros _ t a [].
  - cbn [throttled_calls].
    destruct (throttled_step limit now args th Hth)
      as [[Hrun Hdue] | (d & -> & Hlt & Hdrop)].
    + rewrite Hrun. cbn [map app].
      destruct (IH (mkThrottle true [now + limit])) as (Hsub & Hsorted & Hhead & Hcover);
        [right; eauto|].
      repeat split.
      * apply sublist_skip. exact Hsub.
      * constructor; [exact Hsorted|].
        destruct (throttled_calls limit rest (mkThrottle true [now + limit]))
          as [|c ran] eqn:Hran; constructor.
        cbn [fst].
        first [exact (Hhead _ c ran eq_refl eq_refl)
              | exact (Hhead _ c ran eq_refl Hran)].
      * intros d c ran Hd H. injection H as <- _. cbn [fst]. exact (Hdue d Hd).
      * intros Hsort t a [H | H].
        -- left. left. exact H.
        -- cbn [map fst] in Hsort. apply StronglySorted_inv in Hsort as [Hsort Hall].
           destruct (Hcover Hsort t a H) as [Hin | [(t' & a' & Hin & Ht) | (d & Hd & Ht)]].
           ++ left. right. exact Hin.
           ++ right. left. exists t', a'. split; [right; exact Hin | exact Ht].
           ++ injection Hd as <-. right. left. exists now, args.
              split; [left; reflexivity|].
              rewrite Forall_forall in Hall.
              assert (now <= t).
              { apply Hall. apply list_elem_of_In, in_map_iff.
                exists (t, a). auto. }
              lia.
    + rewrite Hdrop. cbn [map app].
      destruct (IH (mkThrottle true [d])) as (Hsub & Hsorted & Hhead & Hcover);
        [right; eauto|].
      repeat split.
      * apply sublist_cons. exact Hsub.
      * exact Hsorted.
      * exact Hhead.
      * intros Hsort t a [H | H].
        -- injection H as <- <-. right. right. exists d. auto.
        -- cbn [map fst] in Hsort. apply StronglySorted_inv in Hsort as [Hsort _].
           exact (Hcover Hsort t a H).
Qed.

(** X21. A function made by [throttle(func, limit)], called at the times
    of [calls] (which never go back): [func] runs on some of the calls, in
    order and with their own arguments; the first call runs; two
    consecutive runs are at least [limit] apart; and a call that does not
    run comes at most [limit] after a run.  Calls that do not run are
    dropped, not deferred. *)
Theorem X21_throttle_spacing {A : Type} (limit : Z) (calls : list (Z * A)) :
  0 < limit ->
  StronglySorted Z.le (map fst calls) ->
  let ran := throttled_calls limit calls throttle in
  ran `sublist_of` calls /\
  (forall c rest, calls = c :: rest -> exists ran', ran = c :: ran') /\
  Sorted (fun x y => x.1 + limit <= y.1) ran /\
  (forall t a,
     In (t, a) calls ->
     In (t, a) ran \/
     exists t' a', In (t', a') ran /\ t' <= t <= t' + limit).
Proof.
  intros Hlimit Hsort. cbv zeta.
  destruct (throttled_calls_spec limit calls throttle) as (Hsub & Hsorted & _ & Hcover);
    [left; reflexivity|].
  repeat split; try assumption.
  - intros [now args] rest ->. cbn [throttled_calls].
    eexists. reflexivity.
  - intros t a Hin.
    destruct (Hcover Hsort t a Hin) as [H | [(t' & a' & H & Ht) | (d & Hd & _)]].
    + left. exact H.
    + right. exists t', a'. split; [exact H | lia].
    + discriminate Hd.
Qed.

Lemma X21_witness_four_calls :
  let calls := [(0, "a"); (40, "b"); (130, "c"); (150, "d")] in
  throttled_calls 100 calls throttle = [(0, "a"); (130, "c")] /\
  Sorted (fun x y => x.1 + 100 <= y.1) (throttled_calls 100 calls throttle).
Proof.
  cbv zeta. split; [vm_compute; reflexivity|].
  refine (proj1 (proj2 (proj2 (X21_throttle_spacing 100 _ _ _)))).
  - lia.
  - cbn [map fst]. repeat (constructor; [|repeat constructor; lia]). constructor.
Defined.

Lemma debounced_calls_final {A : Type} (wait : Z) (calls : list (Z * A)) :
  forall pending,
    (debounced_calls wait calls pending).2 =
      match last calls with
      | Some c => Some (c.1 + wait, c.2)
      | None => pending
      end.
Proof.
  induction calls as [|[now args] rest IH]; intros pending; [reflexivity|].
  cbn [debounced_calls debounced].
  specialize (IH (Some (now + wait, args))).
  destruct (debounced_calls wait rest (Some (now + wait, args))) as [ran' final].
  cbn [snd] in *. rewrite last_cons, IH.
  destruct (last rest); reflexivity.
Qed.

Lemma debounced_calls_in {A : Type} (wait : Z) (calls : list (Z * A)) :
  forall pending t a,
    In (t, a) (debounced_calls wait calls pending).1 ->
    In (t - wait, a) calls \/ pending = Some (t, a).
Proof.
  induction calls as [|[now args] rest IH]; intros pending t a Hin.
  - destruct Hin.
  - cbn [debounced_calls debounced] in Hin.
    specialize (IH (Some (now + wait, args)) t a).
    destruct (debounced_calls wait rest (Some (now + wait, args))) as [ran' final].
    cbn [fst] in *. apply in_app_or in Hin as [Hin | Hin].
    + right. destruct pending as [[due a0]|]; [|destruct Hin].
      destruct (due <=? now); [|destruct Hin].
      destruct Hin as [H | []]. rewrite H. reflexivity.
    + destruct (IH Hin) as [H | H].
      * left. right. exact H.
      * left. left. injection H as <- <-. f_equal. lia.
Qed.

Lemma debounced_calls_burst {A : Type} (wait : Z) (calls : list (Z * A)) :
  forall pending,
    Sorted (fun x y => x.1 <= y.1 < x.1 + wait) calls ->
    (forall due a c rest, pending = Some (due, a) -> calls = c :: rest -> c.1 < due) ->
    (debounced_calls wait calls pending).1 = [].
Proof.
  induction calls as [|[now args] rest IH]; intros pending Hsort Hhead; [reflexivity|].
  cbn [debounced_calls debounced].
  apply Sorted_inv in Hsort as [Hsort Hrel].
  specialize (IH (Some (now + wait, args)) Hsort).
  destruct (debounced_calls wait rest (Some (now + wait, args))) as [ran' final].
  cbn [fst] in *. rewrite IH.
  - destruct pending as [[due a0]|]; [|reflexivity].
    pose proof (Hhead due a0 _ _ eq_refl eq_refl) as Hlt. cbn [fst] in Hlt.
    destruct (Z.leb_spec due now); [lia | reflexivity].
  - intros due a c rest' H ->. injection H as <- _.
    apply HdRel_inv in Hrel. cbn [fst] in Hrel. lia.
Qed.

Lemma debounced_calls_separated {A : Type} (wait : Z) (calls : list (Z * A)) :
  forall pending,
    Sorted (fun x y => x.1 + wait < y.1) calls ->
    (forall due a c rest, pending = Some (due, a) -> calls = c :: rest -> due <= c.1) ->
    (debounced_calls wait calls pending).1
      ++ match (debounced_calls wait calls pending).2 with
         | Some t => [t]
         | None => []
         end
    = match pending with Some t => [t] | None => [] end
      ++ map (fun c => (c.1 + wait, c.2)) calls.
Proof.
  induction calls as [|[now args] rest IH]; intros pending Hsort Hhead.
  - cbn [debounced_calls fst snd map app]. rewrite app_nil_r. reflexivity.
  - cbn [debounced_calls debounced].
    apply Sorted_inv in Hsort as [Hsort Hrel].
    specialize (IH (Some (now + wait, args)) Hsort).
    destruct (debounced_calls wait rest (Some (now + wait, args))) as [ran' final].
    cbn [fst snd map] in *. rewrite <- app_assoc, IH.
    + destruct pending as [[due a0]|]; [|reflexivity].
      pose proof (Hhead due a0 _ _ eq_refl eq_refl) as Hle. cbn [fst] in Hle.
      destruct (Z.leb_spec due now); [reflexivity | lia].
    + intros due a c rest' H ->. injection H as <- _.
      apply HdRel_inv in Hrel. cbn [fst] in Hrel. lia.
Qed.

(** X22. A function made by [debounce(func, wait)]: [func] only ever runs
    [wait] after a call, with the arguments of that call, and the last
    call always leads to the last run.  In a burst, where every call
    comes less than [wait] after the one before, [func] runs once, [wait]
    after the last call and with its arguments; when the calls are more
    than [wait] apart every call leads to a run. *)
Theorem X22_debounce {A : Type} (wait : Z) (calls : list (Z * A)) :
  0 < wait ->
  let applied := debounce_applications wait calls in
  (forall t a, In (t, a) applied -> In (t - wait, a) calls) /\
  (forall t a, last calls = Some (t, a) -> last applied = Some (t + wait, a)) /\
  (Sorted (fun x y => x.1 <= y.1 < x.1 + wait) calls ->
   forall t a, last calls = Some (t, a) -> applied = [(t + wait, a)]) /\
  (Sorted (fun x y => x.1 + wait < y.1) calls ->
   applied = map (fun c => (c.1 + wait, c.2)) calls).
Proof.
  intros Hwait. cbv zeta. unfold debounce_applications.
  pose proof (debounced_calls_final wait calls None) as Hfinal.
  pose proof (debounced_calls_in wait calls None) as Hin.
  pose proof (debounced_calls_burst wait calls None) as Hburst.
  pose proof (debounced_calls_separated wait calls None) as Hsep.
  destruct (debounced_calls wait calls None) as [ran final].
  cbn [fst snd] in *. repeat split.
  - intros t a H. apply in_app_or in H as [H | H].
    + destruct (Hin t a H) as [H' | H']; [exact H' | discriminate H'].
    + rewrite Hfinal in H. destruct (last calls) as [[t0 a0]|] eqn:Hlast;
        [|destruct H].
      destruct H as [H | []]. injection H as <- <-.
      replace (t0 + wait - wait) with t0 by lia.
      apply list_elem_of_In. apply last_Some_elem_of. exact Hlast.
  - intros t a Hlast. rewrite Hfinal, Hlast. cbn [fst snd]. apply last_snoc.
  - intros Hsort t a Hlast. rewrite Hburst, Hfinal, Hlast; [reflexivity|exact Hsort|].
    intros due a0 c rest H. discriminate H.
  - intros Hsort. rewrite Hsep; [reflexivity|exact Hsort|].
    intros due a0 c rest H. discriminate H.
Qed.

Lemma X22_witness_burst_of_three :
  debounce_applications 300 [(0, "a"); (100, "b"); (250, "c")] = [(550, "c")] /\
  debounce_applications 300 [(0, "a"); (400, "b")] = [(300, "a"); (700, "b")].
Proof.
  split.
  - refine (proj1 (proj2 (proj2 (X22_debounce 300 _ _))) _ 250 "c" _).
    + lia.
    + repeat (constructor; [|repeat constructor; cbn [fst]; lia]). constructor.
    + reflexivity.
  - refine (proj2 (proj2 (proj2 (X22_debounce 300 _ _))) _).
    + lia.
    + repeat (constructor; [|repeat constructor; cbn [fst]; lia]). constructor.
Defined.

Lemma take_drop_append (k : nat) (s : string) :
  String.append (take k s) (drop k s) = s.
Proof.
  revert s. induction k as [|k IH]; intros [|c s]; try reflexivity.
  change (String c (String.append (take k s) (drop k s)) = String c s).
  rewrite IH. reflexivity.
Qed.

Lemma take_append (base x : string) :
  take (String.length base) (String.append base x) = base.
Proof.
  induction base as [|c base IH]; [reflexivity|].
  change (String c (take (String.length base) (String.append base x))
          = String c base).
  rewrite IH. reflexivity.
Qed.

Lemma matches_symbol_regex_shape (s : string) :
  matches_symbol_regex s = true <->
  exists base,
    s = String.append base "USDT" /\
    (2 <= String.length base <= 10)%nat /\
    all isUpper base = true.
Proof.
  unfold matches_symbol_regex. rewrite existsb_exists. split.
  - intros (k & Hk & Hcond). apply in_seq in Hk.
    apply andb_true_iff in Hcond as [Hcond Htail].
    apply andb_true_iff in Hcond as [Hupper Hlen].
    apply Nat.eqb_eq in Hlen. apply String.eqb_eq in Htail.
    exists (take k s). split; [|split].
    + rewrite <- Htail. symmetry. apply take_drop_append.
    + lia.
    + exact Hupper.
  - intros (base & -> & Hlen & Hupper). exists (String.length base).
    split; [apply in_seq; lia|].
    rewrite take_append, drop_append, Hupper, Nat.eqb_refl. reflexivity.
Qed.

(** X23. [isValidSymbol] accepts exactly the strings made of 2 to 10
    capital letters followed by [USDT].  For such a symbol in which [USDT]
    does not occur before the final position, the subscription codec
    inserts the dash before the final [USDT], and converting back gives
    the symbol again. *)
Theorem X23_valid_symbols (s : string) :
  (isValidSymbol (JStr s) = true <->
   exists base,
     s = String.append base "USDT" /\
     (2 <= String.length base <= 10)%nat /\
     all isUpper base = true) /\
  (isValidSymbol (JStr s) = true ->
   (forall i, (i + 4 < String.length s)%nat ->
      startsWith "USDT" (drop i s) = false) ->
   WebSocketCodec._convertSymbolForOKX s
     = String.append (take (String.length s - 4) s) "-USDT" /\
   WebSocketCodec._convertOKXSymbolBack (WebSocketCodec._convertSymbolForOKX s)
     = s).
Proof.
  split; [exact (matches_symbol_regex_shape s)|].
  intros Hvalid Hearly.
  apply matches_symbol_regex_shape in Hvalid as (base & -> & Hlen & Hupper).
  rewrite length_append in *.
  change (String.length "USDT") with 4%nat in *.
  replace (String.length base + 4 - 4)%nat with (String.length base) by lia.
  rewrite take_append.
  assert (Hearly' : forall i, (i < String.length base)%nat ->
            startsWith "USDT" (drop i (String.append base "USDT")) = false).
  { intros i Hi. apply Hearly. lia. }
  split; [|exact (roundtrip_when_USDT_occurs_once base Hupper Hearly')].
  unfold WebSocketCodec._convertSymbolForOKX. rewrite endsWith_append.
  pose proof (replace_first_occurrence "USDT" base EmptyString Hearly') as Hrep.
  change (String.append "USDT" EmptyString) with "USDT" in Hrep.
  rewrite Hrep, append_empty_r. reflexivity.
Qed.

(** X24. [calculatePriceChangePercent] guards against non-numbers, [NaN]
    and a zero divisor, not against infinities: its result is [NaN]
    exactly when the current price is a number other than [NaN] and the
    previous price is [Infinity] or [-Infinity]. *)
Theorem X24_percent_helper_NaN (currentPrice previousPrice : jsval) :
  isNaN (calculatePriceChangePercent currentPrice previousPrice) = true <->
  exists c,
    currentPrice = JNum c /\ isNaN c = false /\
    (previousPrice = JNum PInf \/ previousPrice = JNum NInf).
Proof.
  split.
  - destruct currentPrice as [| |b|c|s], previousPrice as [| |b'|p|s'];
      try (cbn; discriminate).
    intros H. exists c.
    destruct c as [| | |a], p as [| | |q]; try (cbn in H; discriminate H);
      try (repeat split; auto; fail);
      exfalso; unfold calculatePriceChangePercent in H; cbn [isNaN orb] in H;
      destruct (JsNum.eqb (Fin q) (ofZ 0)) eqn:E; try discriminate H;
      unfold sub, neg, add, fin, div in H.
    + destruct (Qneg q); vm_compute in H; discriminate H.
    + destruct (Qneg q); vm_compute in H; discriminate H.
    + change (Qis0 q) with (JsNum.eqb (Fin q) (ofZ 0)) in H.
      rewrite E in H. discriminate H.
  - intros (c & -> & Hc & [-> | ->]); destruct c as [| | |a];
      try discriminate Hc; reflexivity.
Qed.

End Helpers.

(** ** Start-up *)

Section Startup.

Import WebSocketService WebSocketCodec.

Lemma step_subscribe symbol st :
  step (call_subscribe symbol) st =
    (tt, state_of (subscribe symbol st), output_of (subscribe symbol st)).
Proof.
  cbn [step]. rewrite bind_unfold.
  unfold mret, M_ret, value_of, state_of, output_of. cbn [fst snd].
  rewrite app_nil_r. reflexivity.
Qed.

Lemma run_subscribe_all (symbols : list string) :
  forall st,
    can_send st = true ->
    can_send (state_of (run (map call_subscribe symbols) st)) = true /\
    output_of (run (map call_subscribe symbols) st) = subscribe_requests symbols /\
    (forall s, s ∈ subscribers (state_of (run (map call_subscribe symbols) st))
               <-> In s symbols \/ s ∈ subscribers st) /\
    (NoDup (subscribers st ++ symbols) ->
     subscribers (state_of (run (map call_subscribe symbols) st))
       = subscribers st ++ symbols).
Proof.
  induction symbols as [|symbol symbols IH]; intros st Hsend.
  - cbn [map run]. unfold mret, M_ret, state_of, output_of. cbn [fst snd].
    split; [exact Hsend|]. split; [reflexivity|]. split.
    + intros s. split; [intros H; right; exact H | intros [[] | H]; exact H].
    + intros _. symmetry. apply app_nil_r.
  - cbn [map]. rewrite run_cons_state, run_cons_output.
    pose (st1 := {| ws := ws st; isConnected := isConnected st;
                    reconnectAttempts := reconnectAttempts st;
                    subscribers := if bool_decide (symbol ∈ subscribers st)
                                   then subscribers st
                                   else subscribers st ++ [symbol];
                    heartbeatInterval := heartbeatInterval st |}).
    assert (Hst : state_of (step (call_subscribe symbol) st) = st1).
    { rewrite step_subscribe, subscribe_result. reflexivity. }
    assert (Hone : output_of (step (call_subscribe symbol) st)
                   = [WsSend "subscribe" (_convertSymbolForOKX symbol)]).
    { rewrite step_subscribe, subscribe_result, Hsend. reflexivity. }
    rewrite Hst, Hone.
    destruct (IH st1) as (Hs & Hout & Hmem & Hnd).
    { unfold can_send in *. cbn [ws isConnected st1]. exact Hsend. }
    rewrite Hout. unfold st1 in Hs, Hmem, Hnd. cbn [subscribers] in Hmem, Hnd.
    split; [exact Hs|]. split; [reflexivity|]. split; [intros s; split|].
    + intros H. apply Hmem in H as [H | H]; [left; right; exact H|].
      cbn [subscribers] in H.
      destruct (bool_decide (symbol ∈ subscribers st)); [right; exact H|].
      apply elem_of_app in H as [H | H]; [right; exact H|].
      apply list_elem_of_singleton in H. left. left. symmetry. exact H.
    + intros H. apply Hmem. cbn [subscribers].
      destruct H as [[<- | H] | H].
      * right. destruct (bool_decide (symbol ∈ subscribers st)) eqn:E.
        -- apply bool_decide_eq_true in E. exact E.
        -- apply elem_of_app. right. apply list_elem_of_singleton. reflexivity.
      * left. exact H.
      * right. destruct (bool_decide (symbol ∈ subscribers st));
          [exact H | apply elem_of_app; left; exact H].
    + intros Hnodup.
      assert (Hnot : symbol ∉ subscribers st).
      { apply NoDup_app in Hnodup as (_ & Hdisj & _). intros Hin.
        apply (Hdisj symbol Hin). apply list_elem_of_here. }
      unfold st1. rewrite bool_decide_eq_false_2 in Hnd |- * by exact Hnot.
      rewrite Hnd; [rewrite <- app_assoc; reflexivity|].
      rewrite <- app_assoc. exact Hnodup.
Qed.

(** X25. Start-up subscribes every default symbol twice.  When [init]
    resumes after the socket has opened, [_subscribeDefaultSymbols] writes
    one subscribe request per configured symbol, in order, and adds the
    symbols to the subscription list; the service is then marked as
    running.  The resubscribe timer armed by the open handler fires after
    that and writes a request for every symbol of the list again; on a
    fresh service the second pass repeats the first exactly. *)
Theorem X25_startup_subscribes_twice (app : CryptoMonitorService.App) :
  can_send (CryptoMonitorService.webSocketService app) = true ->
  let r := CryptoMonitorService.init_resume app in
  let later :=
    CryptoMonitorService.on_event (timer_fires resubscribeTimer) r.1 in
  CryptoMonitorService.isRunning r.1 = true /\
  sends r.2 =
    map (fun s => ("subscribe", _convertSymbolForOKX s)) config.symbols.default /\
  (forall s, In s config.symbols.default ->
     s ∈ subscribers (CryptoMonitorService.webSocketService r.1)) /\
  (forall s, In s config.symbols.default ->
     In ("subscribe", _convertSymbolForOKX s)
        (sends (CryptoMonitorService.ws_out later.2))) /\
  (subscribers (CryptoMonitorService.webSocketService app) = [] ->
   sends (CryptoMonitorService.ws_out later.2) = sends r.2) /\
  CryptoMonitorService.process_out later.2 = [].
Proof.
  intros Hsend. cbv zeta.
  destruct (run_subscribe_all config.symbols.default
              (CryptoMonitorService.webSocketService app) Hsend)
    as (Hs & Hout & Hmem & Hnd).
  unfold CryptoMonitorService.init_resume,
    CryptoMonitorService._subscribeDefaultSymbols,
    CryptoMonitorService.subscribe_symbols.
  cbn [fst snd CryptoMonitorService.webSocketService
       CryptoMonitorService.priceMonitorService CryptoMonitorService.isRunning].
  set (st := state_of (run (map call_subscribe config.symbols.default)
                           (CryptoMonitorService.webSocketService app))) in *.
  assert (Hlater :
    forall pm running,
      CryptoMonitorService.on_event (timer_fires resubscribeTimer)
        (CryptoMonitorService.mkApp st pm running)
      = (CryptoMonitorService.mkApp st pm running,
         CryptoMonitorService.mkOutput
           (subscribe_requests (subscribers st) ++ [Emit connected]) [] [])).
  { intros pm running. unfold CryptoMonitorService.on_event.
    cbn [CryptoMonitorService.webSocketService
         CryptoMonitorService.priceMonitorService CryptoMonitorService.isRunning].
    rewrite step_resubscribe, Hs.
    rewrite emitted_app, emitted_subscribe_requests.
    cbn [emitted flat_map List.app CryptoMonitorService.dispatch
         CryptoMonitorService.ws_out CryptoMonitorService.monitor_out
         CryptoMonitorService.process_out].
    rewrite app_nil_r. reflexivity. }
  rewrite Hlater. cbn [fst snd CryptoMonitorService.ws_out
                       CryptoMonitorService.process_out].
  rewrite Hout, sends_app, !sends_subscribe_requests.
  cbn [sends flat_map]. rewrite app_nil_r.
  split; [reflexivity|]. split; [reflexivity|]. split; [|split; [|split]].
  - intros s Hin. apply Hmem. left. exact Hin.
  - intros s Hin. apply in_map_iff. exists s. split; [reflexivity|].
    apply list_elem_of_In, Hmem. left. exact Hin.
  - intros Hempty. rewrite Hnd; rewrite Hempty; [reflexivity|].
    cbn [List.app]. unfold config.symbols.default.
    repeat (apply NoDup_cons_2;
            [rewrite ?not_elem_of_cons; repeat split;
             try discriminate; apply not_elem_of_nil|]).
    apply NoDup_nil_2.
  - reflexivity.
Qed.

Lemma X25_witness_first_connect :
  let app := (CryptoMonitorService.on_events [call_connect; ws_open]
                CryptoMonitorService.init).1 in
  let r := CryptoMonitorService.init_resume app in
  can_send (CryptoMonitorService.webSocketService app) = true /\
  sends r.2 =
    [("subscribe", "BTC-USDT"); ("subscribe", "ETH-USDT");
     ("subscribe", "SOL-USDT"); ("subscribe", "DOGE-USDT");
     ("subscribe", "OKB-USDT"); ("subscribe", "BNB-USDT");
     ("subscribe", "APT-USDT")] /\
  sends (CryptoMonitorService.ws_out
           (CryptoMonitorService.on_event (timer_fires resubscribeTimer) r.1).2)
  = sends r.2.
Proof.
  cbv zeta. split; [vm_compute; reflexivity|]. split; [vm_compute; reflexivity|].
  refine (proj1 (proj2 (proj2 (proj2 (proj2
            (X25_startup_subscribes_twice _ _))))) _);
    vm_compute; reflexivity.
Defined.

End Startup.

(** ** Ticks with a negative price *)

Section NegativePrices.

Import PriceMonitorService.

Lemma rebased_negative (q : Q) :
  (q < 0)%Q ->
  lt (Thresholds.max (rebased (Fin q))) (Fin q) = true /\
  lt (Fin q) (Thresholds.min (rebased (Fin q))) = true /\
  band_ok (rebased (Fin q)) = false.
Proof.
  intros Hq. rewrite rebased_eq. unfold band_ok. simpl. unfold fin.
  rewrite Qleb_false, !Qltb_true, !Qred_correct. repeat split; lra.
Qed.

Lemma min_normal_pos : (0 < min_normal)%Q.
Proof. reflexivity. Qed.

(** X26. The parser lets a negative price through, and the tracker
    rebases around it as around any other price.  For a finite price
    below zero in the normal range of binary64 (at most [- 2 ^ -1022];
    there a factor of 0.99 or 1.01 moves the value by more than rounding
    can undo), the band written by a crossing is inverted,
    [max < price < min], so the same tick crosses the upper bound again:
    every repetition of the tick is reported as a ['max'] crossing (a
    request, or the duplicate notice while the key is recorded) and
    leaves the same inverted band. *)
Theorem X26_negative_price_alerts_on_every_tick symbol data thresholds st q :
  priceThresholds st !! symbol = Some thresholds ->
  PriceData.price data = Fin q ->
  (q <= - min_normal)%Q ->
  gt (Fin q) (Thresholds.max thresholds) = true \/
  lt (Fin q) (Thresholds.min thresholds) = true ->
  let st1 := (updateCryptoData symbol data st).1 in
  let r := updateCryptoData symbol data st1 in
  exists band,
    priceThresholds st1 !! symbol = Some band /\
    lt (Thresholds.max band) (Fin q) = true /\
    lt (Fin q) (Thresholds.min band) = true /\
    band_ok band = false /\
    priceThresholds r.1 !! symbol = Some band /\
    exists message,
      r.2 = [log_thresholds symbol band;
             if NotificationService.is_duplicate
                  (Some (alert_key symbol type_max)) (notificationService st1)
             then log_duplicate (alert_key symbol type_max)
             else request message (alert_key symbol type_max);
             log_alert message]
            ++ _logPriceChange symbol data (Some data).
Proof.
  intros Hband Hprice Hq Hcross st1 r.
  assert (Hneg : (q < 0)%Q) by (pose proof min_normal_pos; lra).
  destruct (rebased_negative q Hneg) as (Hmax & Hmin & Hinv).
  assert (Hst1 : priceThresholds st1 = <[symbol := rebased (Fin q)]> (priceThresholds st)
                 /\ cryptoData st1 !! symbol = Some data).
  { subst st1. rewrite <- Hprice in *.
    destruct (gt (PriceData.price data) (Thresholds.max thresholds)) eqn:Hgt.
    - destruct (updateCryptoData_exceeded symbol data thresholds st type_max
                  (Thresholds.max thresholds) Hband (conj Hgt eq_refl))
        as (_ & _ & _ & Hc & Ht & _).
      rewrite Ht, Hc, lookup_insert_eq. split; reflexivity.
    - destruct Hcross as [Hcross | Hlt]; [discriminate Hcross|].
      destruct (updateCryptoData_exceeded symbol data thresholds st type_min
                  (Thresholds.min thresholds) Hband
                  (conj Hgt (conj Hlt eq_refl)))
        as (_ & _ & _ & Hc & Ht & _).
      rewrite Ht, Hc, lookup_insert_eq. split; reflexivity. }
  destruct Hst1 as [Ht1 Hc1].
  assert (Hband1 : priceThresholds st1 !! symbol = Some (rebased (Fin q))).
  { rewrite Ht1. apply lookup_insert_eq. }
  assert (Hmax1 : gt (PriceData.price data)
                     (Thresholds.max (rebased (Fin q))) = true).
  { rewrite Hprice. exact Hmax. }
  destruct (updateCryptoData_exceeded symbol data (rebased (Fin q)) st1 type_max
              (Thresholds.max (rebased (Fin q))) Hband1 (conj Hmax1 eq_refl))
    as (message & _ & Hout & _ & Ht & _).
  fold r in Hout, Ht. rewrite Hprice in Hout, Ht. rewrite Hc1 in Hout.
  exists (rebased (Fin q)).
  split; [exact Hband1|]. split; [exact Hmax|]. split; [exact Hmin|].
  split; [exact Hinv|]. split.
  - rewrite Ht. apply lookup_insert_eq.
  - exists message. exact Hout.
Qed.

Lemma X26_witness_price_minus_5 :
  let data := tick "BTCUSDT" (-5) 100 in
  let st1 := (updateCryptoData "BTCUSDT" data btc_100_110).1 in
  (-5 <= - min_normal)%Q /\
  alerts_logged (updateCryptoData "BTCUSDT" data btc_100_110).2 <> [] /\
  alerts_logged (updateCryptoData "BTCUSDT" data st1).2 <> [].
Proof.
  cbv zeta.
  assert (Hq : (-5 <= - min_normal)%Q).
  { vm_compute. intros H. discriminate H. }
  split; [exact Hq|]. split; [vm_compute; discriminate|].
  destruct (X26_negative_price_alerts_on_every_tick "BTCUSDT"
              (tick "BTCUSDT" (-5) 100) (Thresholds.mk (ofZ 100) (ofZ 110))
              btc_100_110 (-5 # 1))
    as (band & _ & _ & _ & _ & _ & message & Hout).
  - vm_compute. reflexivity.
  - vm_compute. reflexivity.
  - exact Hq.
  - right. vm_compute. reflexivity.
  - rewrite Hout. cbn [alerts_logged flat_map app].
    destruct (NotificationService.is_duplicate _ _); discriminate.
Defined.

End NegativePrices.

(** ** Validation of the configuration *)

Section Configuration.

Import CryptoMonitorService.

Lemma validate_symbols_spec (thresholds : gmap string Thresholds.t)
    (symbols : list string) :
  let r := validate_symbols symbols thresholds in
  (r.2 = None <->
   Forall (fun s => helpers.isValidSymbol (JStr s) = true) symbols) /\
  (forall s,
     r.2 = Some s ->
     exists before after,
       symbols = before ++ s :: after /\
       Forall (fun s' => helpers.isValidSymbol (JStr s') = true) before /\
       helpers.isValidSymbol (JStr s) = false) /\
  (forall w,
     In w r.1 <->
     exists s before after,
       w = warn_no_thresholds s /\
       symbols = before ++ s :: after /\
       Forall (fun s' => helpers.isValidSymbol (JStr s') = true) (before ++ [s]) /\
       thresholds !! s = None).
Proof.
  induction symbols as [|symbol rest IH]; cbv zeta.
  - cbn [validate_symbols fst snd]. split; [|split].
    + split; [constructor | reflexivity].
    + intros s H. discriminate H.
    + intros w. split; [intros []|].
      intros (s & before & after & _ & H & _). destruct before; discriminate H.
  - cbn [validate_symbols].
    destruct (helpers.isValidSymbol (JStr symbol)) eqn:Hvalid; cbn [negb].
    + cbv zeta in IH.
      destruct (validate_symbols rest thresholds) as [ws err]. cbn [fst snd] in *.
      destruct IH as (Hnone & Hsome & Hwarn). split; [|split].
      * rewrite Hnone. split.
        -- intros H. constructor; assumption.
        -- intros H. apply Forall_cons in H as [_ H]. exact H.
      * intros s Hs. destruct (Hsome s Hs) as (before & after & -> & Hb & Hbad).
        exists (symbol :: before), after. split; [reflexivity|]. split; [|exact Hbad].
        constructor; assumption.
      * intros w. rewrite in_app_iff, Hwarn. split.
        -- intros [Hw | (s & before & after & -> & -> & Hb & Hno)].
           ++ destruct (thresholds !! symbol) eqn:Hth; [destruct Hw|].
              destruct Hw as [<- | []].
              exists symbol, [], rest. repeat split; auto.
              cbn [app]. constructor; [exact Hvalid | constructor].
           ++ exists s, (symbol :: before), after. repeat split; auto.
              cbn [app]. constructor; assumption.
        -- intros (s & before & after & -> & Heq & Hb & Hno).
           destruct before as [|b before]; cbn [app] in Heq.
           ++ injection Heq as <- <-. left. rewrite Hno. left. reflexivity.
           ++ injection Heq as <- ->. right.
              exists s, before, after. repeat split; auto.
              cbn [app] in Hb. apply Forall_cons in Hb as [_ Hb]. exact Hb.
    + cbn [fst snd]. split; [|split].
      * split; [intros H; discriminate H|].
        intros H. apply Forall_cons in H as [H _]. congruence.
      * intros s H. injection H as <-. exists [], rest.
        split; [reflexivity|]. split; [constructor | exact Hvalid].
      * intros w. split; [intros []|].
        intros (s & before & after & _ & Heq & Hb & _).
        destruct before as [|b before]; cbn [app] in Heq, Hb.
        -- injection Heq as <- _. apply Forall_cons in Hb as [Hb _]. congruence.
        -- injection Heq as <- _. apply Forall_cons in Hb as [Hb _]. congruence.
Qed.

(** X27. [_validateConfig] throws exactly when some configured symbol is
    rejected by [isValidSymbol], and the error names the first such
    symbol.  A missing webhook key and missing thresholds never stop the
    start-up, they only warn: the key warning is written for an empty key
    and for the placeholder, and a threshold warning is written for each
    valid symbol without thresholds that comes before the first invalid
    one. *)
Theorem X27_validateConfig (webhookKey : string) (symbols : list string)
    (thresholds : gmap string Thresholds.t) :
  let r := _validateConfig webhookKey symbols thresholds in
  (r.2 = None <->
   Forall (fun s => helpers.isValidSymbol (JStr s) = true) symbols) /\
  (forall s,
     r.2 = Some s ->
     exists before after,
       symbols = before ++ s :: after /\
       Forall (fun s' => helpers.isValidSymbol (JStr s') = true) before /\
       helpers.isValidSymbol (JStr s) = false) /\
  (In warn_webhook_key r.1 <->
   webhookKey = EmptyString \/ webhookKey = "your-webhook-key-here") /\
  (forall s,
     In (warn_no_thresholds s) r.1 <->
     exists before after,
       symbols = before ++ s :: after /\
       Forall (fun s' => helpers.isValidSymbol (JStr s') = true) (before ++ [s]) /\
       thresholds !! s = None).
Proof.
  cbv zeta. unfold _validateConfig.
  pose proof (validate_symbols_spec thresholds symbols) as H. cbv zeta in H.
  destruct (validate_symbols symbols thresholds) as [ws err]. cbn [fst snd] in *.
  destruct H as (Hnone & Hsome & Hwarn).
  split; [exact Hnone|]. split; [exact Hsome|]. split.
  - rewrite in_app_iff. split.
    + intros [H | H].
      * destruct (String.eqb webhookKey "") eqn:E1.
        -- left. apply String.eqb_eq. exact E1.
        -- destruct (String.eqb webhookKey "your-webhook-key-here") eqn:E2;
             [|destruct H].
           right. apply String.eqb_eq. exact E2.
      * apply Hwarn in H as (s & _ & _ & H & _). discriminate H.
    + intros [-> | ->]; left; left; reflexivity.
  - intros s. rewrite in_app_iff. split.
    + intros [H | H].
      * destruct (String.eqb webhookKey "" || String.eqb webhookKey "your-webhook-key-here");
          [destruct H as [H | []]; discriminate H | destruct H].
      * apply Hwarn in H as (s' & before & after & Hs & Heq & Hb & Hno).
        injection Hs as ->. exists before, after. auto.
    + intros (before & after & Heq & Hb & Hno). right. apply Hwarn.
      exists s, before, after. auto.
Qed.

End Configuration.

(** ** Which items the parser accepts *)

Section ParserShape.

Import WebSocketCodec JsParse.

(** X28. [_parsePriceData] never throws, and it returns a tick exactly for
    an item that is an object whose [instId] is a string and whose [last]
    and [open24h] do not read as [NaN]; a [null] item and an item whose
    [instId] is missing or is not a string are dropped like an unparsable
    price.  The tick is named by [instId] without its first dash.  An
    [open24h] of zero is accepted: the tick then carries a percent change
    that is not finite ([NaN] or an infinity). *)
Theorem X28_parser_accepts_exactly (item : option TickerItem.t) :
  (is_Some (_parsePriceData item) <->
   exists o id,
     item = Some o /\
     TickerItem.instId o = JStr id /\
     isNaN (parseFloat (TickerItem.last o)) = false /\
     isNaN (parseFloat (TickerItem.open24h o)) = false) /\
  (forall o id d,
     item = Some o ->
     TickerItem.instId o = JStr id ->
     _parsePriceData item = Some d ->
     PriceData.symbol d = _convertOKXSymbolBack id /\
     PriceData.price d = parseFloat (TickerItem.last o) /\
     (JsNum.eqb (parseFloat (TickerItem.open24h o)) (ofZ 0) = true ->
      isFinite (PriceData.priceChangePercent d) = false)).
Proof.
  split.
  - split.
    + intros [d H]. destruct item as [o|]; [|discriminate H].
      destruct (TickerItem.instId o) as [| | b | n | id] eqn:Hid;
        try (unfold _parsePriceData, item_object in H;
             cbn [mbind exc_mbind exc_bind] in H; rewrite Hid in H;
             discriminate H).
      rewrite (parsePriceData_string_instId o id Hid) in H. cbv zeta in H.
      destruct (isNaN (parseFloat (TickerItem.last o))) eqn:Hlast;
        [discriminate H|].
      destruct (isNaN (parseFloat (TickerItem.open24h o))) eqn:Hopen;
        [discriminate H|].
      exists o, id. auto.
    + intros (o & id & -> & Hid & Hlast & Hopen).
      rewrite (parsePriceData_string_instId o id Hid). cbv zeta.
      rewrite Hlast, Hopen. cbn [orb]. eauto.
  - intros o id d -> Hid H.
    rewrite (parsePriceData_string_instId o id Hid) in H. cbv zeta in H.
    destruct (isNaN (parseFloat (TickerItem.last o))) eqn:Hlast;
      [discriminate H|].
    destruct (isNaN (parseFloat (TickerItem.open24h o))) eqn:Hopen;
      [discriminate H|].
    cbn [orb] in H. injection H as <-.
    cbn [PriceData.symbol PriceData.price PriceData.priceChangePercent].
    split; [reflexivity|]. split; [reflexivity|].
    intros Hzero.
    destruct (parseFloat (TickerItem.open24h o)) as [| | |q];
      try discriminate Hzero.
    destruct (parseFloat (TickerItem.last o)) as [| | |a];
      try discriminate Hlast;
      unfold sub, neg, add, fin, div;
      change (Qis0 q) with (JsNum.eqb (Fin q) (ofZ 0)); rewrite ?Hzero.
    + destruct (Qneg q); vm_compute; reflexivity.
    + destruct (Qneg q); vm_compute; reflexivity.
    + destruct (Qis0 _); [reflexivity|].
      destruct (Qneg _); vm_compute; reflexivity.
Qed.

End ParserShape.

(** ** Requests in flight *)

Section InFlight.

Import PriceMonitorService.

(** X29. Requests in flight are not deduplicated.  The record of a key is
    written when its request settles, so two upward crossings of one
    symbol that happen before the first request settles both start a
    request under the same key.  When both are delivered, at [t1] and then
    at [t2], the record carries [t2] but the timer armed at [t1] deletes
    it at [t1 + 60000]: the key is free again before the cooldown of the
    second delivery is over. *)
Theorem X29_requests_in_flight symbol data1 data2 thresholds st (t1 t2 : Z) :
  priceThresholds st !! symbol = Some thresholds ->
  gt (PriceData.price data1) (Thresholds.max thresholds) = true ->
  gt (PriceData.price data2)
     (Thresholds.max (rebased (PriceData.price data1))) = true ->
  NotificationService.is_duplicate (Some (alert_key symbol type_max))
    (notificationService st) = false ->
  t1 <= t2 ->
  let key := alert_key symbol type_max in
  let r1 := updateCryptoData symbol data1 st in
  let r2 := updateCryptoData symbol data2 r1.1 in
  let st2 := request_settles key NotificationService.Delivered t2
               (request_settles key NotificationService.Delivered t1 r2.1) in
  (exists m1 m2, requests r1.2 = [(m1, key)] /\ requests r2.2 = [(m2, key)]) /\
  NotificationService.sentAlerts (notificationService st2) !! key = Some t2 /\
  NotificationService.is_duplicate (Some key)
    (notificationService (timers_fire (t1 + config.alerts.cooldownPeriod) st2))
  = false.
Proof.
  intros Hband Hmax1 Hmax2 Hfresh Ht key r1 r2 st2.
  destruct (updateCryptoData_exceeded symbol data1 thresholds st type_max
              (Thresholds.max thresholds) Hband (conj Hmax1 eq_refl))
    as (m1 & _ & Hout1 & _ & Ht1 & Hn1).
  fold r1 in Hout1, Ht1, Hn1.
  assert (Hband1 : priceThresholds r1.1 !! symbol
                   = Some (rebased (PriceData.price data1))).
  { rewrite Ht1. apply lookup_insert_eq. }
  destruct (updateCryptoData_exceeded symbol data2
              (rebased (PriceData.price data1)) r1.1 type_max
              (Thresholds.max (rebased (PriceData.price data1)))
              Hband1 (conj Hmax2 eq_refl))
    as (m2 & _ & Hout2 & _ & _ & Hn2).
  fold r2 in Hout2, Hn2.
  rewrite Hn1 in Hout2. fold key in Hout1, Hout2, Hfresh.
  rewrite Hfresh in Hout1, Hout2.
  assert (Hkey : NotificationService.truthy_key (Some key) = Some key).
  { apply truthy_key_nonempty. apply alert_key_nonempty. }
  split; [|split].
  - exists m1, m2. rewrite Hout1, Hout2.
    assert (Happ : forall a b, requests (a ++ b) = requests a ++ requests b)
      by (intros; apply flat_map_app).
    rewrite !Happ, !logPriceChange_requests. split; reflexivity.
  - subst st2. unfold request_settles. cbn [notificationService].
    unfold NotificationService.sendWechatAlert_resume. rewrite Hkey.
    cbn [snd NotificationService.sentAlerts]. apply lookup_insert_eq.
  - unfold NotificationService.is_duplicate. rewrite Hkey.
    apply bool_decide_eq_false_2. intros [x Hx].
    assert (Hnone : NotificationService.sentAlerts
                      (notificationService
                         (timers_fire (t1 + config.alerts.cooldownPeriod) st2))
                    !! key = None).
    { unfold timers_fire. cbn [notificationService].
      apply (fire_due_removes _ (t1 + config.alerts.cooldownPeriod)); [|lia].
      subst st2. unfold request_settles. cbn [notificationService].
      unfold NotificationService.sendWechatAlert_resume. rewrite Hkey.
      cbn [snd NotificationService.cooldownTimers].
      apply elem_of_app. left. apply elem_of_app. right.
      apply list_elem_of_here. }
    rewrite Hnone in Hx. discriminate Hx.
Qed.

Lemma X29_witness_111_then_113 :
  let st1 := (updateCryptoData "BTCUSDT" (tick "BTCUSDT" 111 100) btc_100_110).1 in
  let r2 := updateCryptoData "BTCUSDT" (tick "BTCUSDT" 113 100) st1 in
  let key := "BTCUSDT_max_price_exceeded" in
  let st2 := request_settles key NotificationService.Delivered 250
               (request_settles key NotificationService.Delivered 200 r2.1) in
  NotificationService.sentAlerts (notificationService st2) !! key = Some 250 /\
  NotificationService.is_duplicate (Some key)
    (notificationService (timers_fire 60200 st2)) = false.
Proof.
  cbv zeta.
  refine (proj2 (X29_requests_in_flight "BTCUSDT" (tick "BTCUSDT" 111 100)
                   (tick "BTCUSDT" 113 100) (Thresholds.mk (ofZ 100) (ofZ 110))
                   btc_100_110 200 250 _ _ _ _ _)).
  - vm_compute. reflexivity.
  - vm_compute. reflexivity.
  - vm_compute. reflexivity.
  - vm_compute. reflexivity.
  - lia.
Defined.

End InFlight.
